(** * open-docs: repository ingestion and structural summarizer

    A shallow embedding of [lib/codebase.ts] (ignore patterns, extension
    whitelist, fence labels, [walkTree], [getRepositoryStructure],
    [getRepositoryData]) and of [lib/ast/parser.ts]
    ([parseTypeScriptApiAndStructure] with its two traversals), of the
    tally of file types and the repository name of the repository analysis
    route, and of [FormatThinkingResponse] and [generateAnchor] of
    [lib/formatter], followed by the properties established about them.

    Conventions.  JavaScript strings are modelled by [string] (one character
    per code unit).  A promise that rejects, or a statement that throws, is a
    [Throw]; everything else is an [Ok].  Library functions the code calls
    (Node's [path], isomorphic-git's [walk], the TypeScript parser) are
    modelled by what they hand to the code: their documented results.
    An [async] function runs in stretches, from one [await] to the next;
    the calls of [walk] on the entries of a tree wait at the same time, and
    the order in which they go on is a [Schedule], decided outside the
    program.  Unless a schedule is named, what is proved of a walk is proved
    for every schedule. *)

From Stdlib Require Import String Ascii List Bool Arith ZArith Lia.
From stdpp Require Import gmap strings.
Import ListNotations.
Local Open Scope string_scope.
Set Warnings "-register-all".

(** ** JavaScript values and strings *)

Module Js.

(** A thrown value: the code only ever reads [error.message]; [name] is
    the class of the error ([Error] for [new Error(...)]). *)
Record Error := mkError { name : string; message : string }.

Inductive Result (A : Type) : Type :=
| Ok (a : A)
| Throw (e : Error).
Arguments Ok {A} a.
Arguments Throw {A} e.

(** What a [walk] callback may return. *)
Inductive Value := VNull | VUndefined | VTrue.

Definition isNull (v : Value) : bool :=
  match v with VNull => true | _ => false end.

(** [new Error(msg)] *)
Definition newError (msg : string) : Error := mkError "Error" msg.

(** [s.startsWith(p)] *)
Definition startsWith (p s : string) : bool := String.prefix p s.

(** [s.includes(p)] *)
Fixpoint includes (p s : string) : bool :=
  String.prefix p s ||
  match s with
  | "" => false
  | String _ r => includes p r
  end.

(** [s.replace(p, r)] with a string pattern: the first occurrence only. *)
Fixpoint replace (p r s : string) : string :=
  if String.prefix p s then r ++ substring (String.length p) (String.length s - String.length p) s
  else match s with
       | "" => ""
       | String c t => String c (replace p r t)
       end.

(** [s.split(sep)] for a one-character separator. *)
Fixpoint split (sep : ascii) (s : string) : list string :=
  match s with
  | "" => [""]
  | String c r =>
      if Ascii.eqb c sep then "" :: split sep r
      else match split sep r with
           | x :: xs => String c x :: xs
           | [] => [String c ""]
           end
  end.

(** White space removed by [trim]: tab, line feed, vertical tab, form feed,
    carriage return, space.  These are the white space characters of
    JavaScript below code unit 128; the others ([trim] also removes the
    no-break space and further Unicode spaces) are not modelled. *)
Definition isWhiteSpace (c : ascii) : bool :=
  let n := nat_of_ascii c in
  ((9 <=? n)%nat && (n <=? 13)%nat) || (n =? 32)%nat.

Fixpoint trimStart (s : string) : string :=
  match s with
  | String c r => if isWhiteSpace c then trimStart r else s
  | "" => ""
  end.

Fixpoint trimEnd (s : string) : string :=
  match s with
  | "" => ""
  | String c r =>
      match trimEnd r with
      | "" => if isWhiteSpace c then "" else String c ""
      | r' => String c r'
      end
  end.

Definition trim (s : string) : string := trimEnd (trimStart s).

(** [s.repeat(n)] *)
Fixpoint repeat (s : string) (n : nat) : string :=
  match n with
  | O => ""
  | S k => s ++ repeat s k
  end.

(** [s.replace] with the global pattern matching a single or a double
    quote and the empty replacement: every quote character removed. *)
Fixpoint stripQuotes (s : string) : string :=
  match s with
  | "" => ""
  | String c r =>
      if (nat_of_ascii c =? 39)%nat || (nat_of_ascii c =? 34)%nat then stripQuotes r
      else String c (stripQuotes r)
  end.

Definition endsWith (p s : string) : bool :=
  (String.length p <=? String.length s)%nat &&
  String.eqb (substring (String.length s - String.length p) (String.length p) s) p.

Definition dropEnd (n : nat) (s : string) : string :=
  substring 0 (String.length s - n) s.

(** [s.replace] with the pattern [\.ts(x)?$] and the empty replacement. *)
Definition stripTsSuffix (s : string) : string :=
  if endsWith ".tsx" s then dropEnd 4 s
  else if endsWith ".ts" s then dropEnd 3 s
  else s.

(** [s.toLowerCase()] on the letters A to Z. *)
Fixpoint toLowerCase (s : string) : string :=
  match s with
  | "" => ""
  | String c r =>
      let n := nat_of_ascii c in
      String (if (65 <=? n)%nat && (n <=? 90)%nat then ascii_of_nat (n + 32) else c)
             (toLowerCase r)
  end.

(** [l.join(sep)] *)
Fixpoint join (sep : string) (l : list string) : string :=
  match l with
  | [] => ""
  | [x] => x
  | x :: r => x ++ sep ++ join sep r
  end.

Definition nl : string := String (ascii_of_nat 10) "".
Definition tab : string := String (ascii_of_nat 9) "".

End Js.

(** ** Node's [path] module (POSIX flavour) *)

Module Path.

(** The scan of [path.extname]: it runs over the characters from the last
    to the first; [i] is the index of the character at the head of the
    reversed list. *)
Record ExtState := mkExt {
  startDot : Z; startPart : Z; endPos : Z; matchedSlash : bool; preDotState : Z
}.

Definition extInit : ExtState := mkExt (-1) 0 (-1) true 0.

Fixpoint extScan (rev_chars : list ascii) (i : Z) (st : ExtState) : ExtState :=
  match rev_chars with
  | [] => st
  | code :: rest =>
      if Ascii.eqb code "/" then
        if negb (matchedSlash st)
        then mkExt (startDot st) (i + 1) (endPos st) (matchedSlash st) (preDotState st)
        else extScan rest (i - 1) st
      else
        let st1 :=
          if (endPos st =? -1)%Z
          then mkExt (startDot st) (startPart st) (i + 1) false (preDotState st)
          else st in
        let st2 :=
          if Ascii.eqb code "."
          then if (startDot st1 =? -1)%Z
               then mkExt i (startPart st1) (endPos st1) (matchedSlash st1) (preDotState st1)
               else if negb (preDotState st1 =? 1)%Z
                    then mkExt (startDot st1) (startPart st1) (endPos st1) (matchedSlash st1) 1
                    else st1
          else if negb (startDot st1 =? -1)%Z
               then mkExt (startDot st1) (startPart st1) (endPos st1) (matchedSlash st1) (-1)
               else st1 in
        extScan rest (i - 1) st2
  end.

Definition extname (path : string) : string :=
  let st := extScan (rev (list_ascii_of_string path))
                    (Z.of_nat (String.length path) - 1) extInit in
  if (startDot st =? -1)%Z || (endPos st =? -1)%Z || (preDotState st =? 0)%Z
     || ((preDotState st =? 1)%Z && (startDot st =? endPos st - 1)%Z
         && (startDot st =? startPart st + 1)%Z)
  then ""
  else substring (Z.to_nat (startDot st)) (Z.to_nat (endPos st - startDot st)) path.

(** A character that is neither a slash nor a dot. *)
Definition plain (c : ascii) : bool := negb (Ascii.eqb c "/") && negb (Ascii.eqb c ".").

(** [path.join(a, b)] for two non-empty, already normalized arguments. *)
Definition join (a b : string) : string := a ++ "/" ++ b.

End Path.

(** ** isomorphic-git: the committed tree and [walk] *)

Module Git.
Import Js.

(** What a tree entry is: [entry.type()] answers [blob], [tree], [commit]
    (a submodule link) or [special]; [entry.content()] of a blob resolves to
    its bytes, here already decoded as UTF-8 text, or rejects. *)
Inductive Object :=
| Blob (content : Result string)
| Tree (entries : list (string * Object))
| Commit
| Special.

(** The path of a child: the root is reported as [.], its children by
    their bare names, deeper entries with [/] between the segments. *)
Definition childPath (parent name : string) : string :=
  if String.eqb parent "." then name else parent ++ "/" ++ name.

(** Induction over a tree and the entries of its directories. *)
Section ObjectInduction.
Variable P : Object -> Prop.
Hypothesis HBlob : forall c, P (Blob c).
Hypothesis HTree : forall l, Forall (fun e => P (snd e)) l -> P (Tree l).
Hypothesis HCommit : P Commit.
Hypothesis HSpecial : P Special.

Fixpoint Object_nested_ind (o : Object) : P o :=
  match o with
  | Blob c => HBlob c
  | Tree l =>
      HTree l
        ((fix all (l : list (string * Object)) : Forall (fun e => P (snd e)) l :=
            match l with
            | [] => List.Forall_nil _
            | (n, child) :: rest =>
                @List.Forall_cons _ (fun e => P (snd e)) (n, child) rest
                  (Object_nested_ind child) (all rest)
            end) l)
  | Commit => HCommit
  | Special => HSpecial
  end.
End ObjectInduction.

(** Every entry under [o], itself included, with the path [walk] reports
    for it, parents before children and children in the order of their
    tree. *)
Fixpoint entries (fullpath : string) (o : Object) : list (string * Object) :=
  (fullpath, o) ::
  match o with
  | Tree l =>
      (fix below (l : list (string * Object)) : list (string * Object) :=
         match l with
         | [] => []
         | (n, child) :: rest => (entries (childPath fullpath n) child ++ below rest)%list
         end) l
  | _ => []
  end.

Fixpoint entriesBelow (parent : string) (l : list (string * Object))
  : list (string * Object) :=
  match l with
  | [] => []
  | (n, child) :: rest =>
      (entries (childPath parent n) child ++ entriesBelow parent rest)%list
  end.

(** *** [walk]

    [walk] calls itself on an entry: it reads the children of the entry,
    calls [map] on the entry and, unless [map] returned [null], calls
    itself on every child and waits for all of them with [Promise.all].
    [walk] and [map] are [async]: at an [await] a call is put aside until
    what it waits for has arrived, and meanwhile the other calls go on.
    So the calls on the entries of a tree run in stretches that
    interleave. *)

(** How a stretch of the [map] callback ends: at its next [await], or
    with the value it returns or the error it throws. *)
Inductive Next :=
| Await
| Return (r : Result Value).

(** A call of [walk] that waits to go on.  [awaited] counts the awaits of
    [map] it has come back from; a call with none is waiting for the
    children of its entry to be read, after which [map] is called. *)
Record Task := mkTask {
  taskPath : string;
  taskEntry : Object;
  awaited : nat
}.

(** The order in which the waiting calls go on: each number picks one of
    the calls that wait (counted from 0, modulo their number); when the
    numbers have run out, the first call that waits goes on. *)
Definition Schedule := list nat.

(** The calls of [walk] on the children of an entry. *)
Definition children (t : Task) : list Task :=
  match taskEntry t with
  | Tree l => List.map (fun e => mkTask (childPath (taskPath t) (fst e)) (snd e) 0) l
  | _ => []
  end.

(** [pool] with its [i]-th element replaced by the elements of [new]. *)
Definition splice {A : Type} (i : nat) (new pool : list A) : list A :=
  (firstn i pool ++ new ++ skipn (S i) pool)%list.

Section Walk.
Context {State : Type}.
(** The [map] callback, cut at its awaits: [map p o n s] is the stretch of
    the call on the entry [o] at the path [p] that follows its [n]-th
    await (the stretch 0 starts the call), run on the state [s] that the
    callback closes over. *)
Variable map : string -> Object -> nat -> State -> Next * State.

(** A waiting call goes on for one stretch.  When [map] returns, [walk]
    goes on with the children unless the value is [null]; the calls on the
    children then wait.  When [map] throws, the call of [walk] rejects. *)
Definition resume (t : Task) (s : State) : Result (list Task) * State :=
  match map (taskPath t) (taskEntry t) (awaited t) s with
  | (Await, s1) => (Ok [mkTask (taskPath t) (taskEntry t) (S (awaited t))], s1)
  | (Return (Throw e), s1) => (Throw e, s1)
  | (Return (Ok parent), s1) => (Ok (if isNull parent then [] else children t), s1)
  end.

(** After a call has rejected, [Promise.all] has rejected too and the
    rejection is on its way to the caller of [walk]; the other calls are
    not stopped.  They go on for as long as the schedule says, their own
    rejections unheard, before the caller looks at the state. *)
Fixpoint settle (sched : Schedule) (pool : list Task) (s : State) : State :=
  match sched with
  | [] => s
  | n :: rest =>
      let i := n mod List.length pool in
      match nth_error pool i with
      | None => s
      | Some t =>
          match resume t s with
          | (Ok new, s1) => settle rest (splice i new pool) s1
          | (Throw _, s1) => settle rest (splice i [] pool) s1
          end
      end
  end.

(** The calls that wait go on, one stretch at a time, in the order of the
    schedule, until none waits (every [Promise.all] has resolved) or one
    rejects.  [fuel] bounds the number of stretches. *)
Fixpoint run (fuel : nat) (sched : Schedule) (pool : list Task) (s : State)
  : Result unit * State :=
  match fuel with
  | O => (Ok tt, s)
  | S fuel' =>
      let i := hd 0 sched mod List.length pool in
      match nth_error pool i with
      | None => (Ok tt, s)
      | Some t =>
          match resume t s with
          | (Ok new, s1) => run fuel' (tl sched) (splice i new pool) s1
          | (Throw e, s1) => (Throw e, settle (tl sched) (splice i [] pool) s1)
          end
      end
  end.

(** [walk({trees: [TREE({ref})], map})] for a callback with [awaits]
    awaits: resolving the reference to its root tree may fail, and then
    nothing is visited.  Every call runs at most [awaits + 1] stretches, so
    the fuel given is enough (see [run_inv] in [WalkFacts]). *)
Variable awaits : nat.

Definition walk (sched : Schedule) (root : Result Object) (s : State) : Result unit * State :=
  match root with
  | Throw e => (Throw e, s)
  | Ok o => run (S awaits * List.length (entries "." o)) sched
              [mkTask "." o 0] s
  end.
End Walk.

End Git.

(** ** lib/codebase.ts *)

Module Codebase.
Import Js.

Record FileContent := mkFileContent { path : string; content : string }.

Definition defaultIgnorePatterns : string :=
  nl ++
  "    ui" ++ nl ++
  "    node_modules/" ++ nl ++
  "    .git" ++ nl ++
  "    dist/" ++ nl ++
  "    build/" ++ nl ++
  "    coverage/" ++ nl ++
  "    .log$" ++ nl ++
  "    .env$" ++ nl ++
  "    .lock$" ++ nl ++
  "    .md$" ++ nl ++
  "    .min.js$" ++ nl ++
  "    package-lock.json" ++ nl ++
  tab ++ ".vscode" ++ nl ++
  "    .editorconfig" ++ nl ++
  "    .gitignore" ++ nl ++
  "    license" ++ nl ++
  tab ++ "LICENSE" ++ nl ++
  "    tsconfig.json" ++ nl ++
  "    .dockerignore" ++ nl ++
  tab ++ "tailwind.config.ts" ++ nl ++
  nl.

Definition supportedExtensions : string :=
  ".js .json .ts .jsx .tsx .py .java .cpp .rb .php .go .rs .swift .cs".

Definition fileTypePrefixes : gmap string string :=
  list_to_map
    [ (".ts", "```typescript"); (".tsx", "```typescript");
      (".js", "```javascript"); (".jsx", "```javascript");
      (".java", "```java"); (".c", "```c"); (".cpp", "```c++");
      (".cs", "```csharp"); (".go", "```go"); (".py", "```python");
      (".rb", "```ruby"); (".sh", "```bash"); (".md", "```markdown");
      (".json", "```json"); (".yaml", "```yaml"); (".html", "```html");
      (".css", "```css"); (".sql", "```sql") ].

(** [fileTypePrefixes[ext] || fence]: a missing entry and an empty one
    both give the bare fence. *)
Definition fenceFor (ext : string) : string :=
  match fileTypePrefixes !! ext with
  | Some p => if String.eqb p "" then "```" else p
  | None => "```"
  end.

Definition addMarkdownPrefix (filename : string) : string :=
  let ext := Path.extname filename in
  let prefix := fenceFor ext in
  prefix ++ nl.

Definition addMarkdownSuffix (filename : string) : string :=
  let ext := Path.extname filename in
  let suffix := fenceFor ext in
  nl ++ suffix.

Definition isSupportedExtension (filename : string) : bool :=
  let ext := Path.extname filename in
  existsb (String.eqb ext) (split " " supportedExtensions).

(** The value [parseIgnorePatterns] returns and [walkTree] receives: the
    list of pattern strings, or a regular expression, of which only its
    [test] matters. *)
Inductive IgnorePatterns :=
| Patterns (l : list string)
| RegExp (test : string -> bool).

(** The regular expressions built from the patterns are never used: the
    function returns the pattern strings themselves, or, when there is no
    pattern, the empty regular expression, which matches every string. *)
Definition parseIgnorePatterns (patterns : string) : IgnorePatterns :=
  let ignorePatterns :=
    List.filter (fun line => negb (String.eqb line "") && negb (startsWith "#" line))
      (List.map (fun line => replace tab "" (trim line)) (split (ascii_of_nat 10) patterns)) in
  if (List.length ignorePatterns =? 0)%nat then RegExp (fun _ => true)
  else Patterns ignorePatterns.

Inductive ConsoleLine :=
| ConsoleLog (args : list string)
| ConsoleError (label : string) (e : Error).

(** What the callback of [walkTree] closes over and changes: the [Map]
    [fileContents], of which the code reads the size and sets keys, and
    the console. *)
Record WalkState := mkWalkState {
  fileContents : gmap string FileContent;
  console : list ConsoleLine
}.

(** The loop over the pattern strings: the first pattern for which the test
    holds ends the callback. *)
Fixpoint ignoredByPatterns (patterns : list string) (fullPath : string) : bool :=
  match patterns with
  | [] => false
  | pattern :: rest =>
      if includes (replace "$" "" pattern) fullPath || negb (isSupportedExtension fullPath)
      then true
      else ignoredByPatterns rest fullPath
  end.

Definition mentionsTests (fullPath : string) : bool :=
  includes "examples" fullPath || includes "example" fullPath
  || includes "tests" fullPath || includes "test" fullPath.

(** The checks at the head of the callback: [Some st'] when the callback
    returns there, leaving the state [st']. *)
Definition skipped (ignorePatterns : IgnorePatterns) (fullPath : string)
    (st : WalkState) : option WalkState :=
  match ignorePatterns with
  | Patterns l => if ignoredByPatterns l fullPath then Some st else None
  | RegExp test =>
      if test fullPath || negb (isSupportedExtension fullPath)
      then Some (mkWalkState (fileContents st)
                   (console st ++
                    [ConsoleLog ["skipping: " ++ fullPath ++ ". Unsupported extension"]]))
      else None
  end.

(** The [map] callback of [walkTree], cut at its two awaits,
    [await entry.type()] and [await entry.content()].  The walk is over one
    tree, so the array [entries] holds one entry, which is always there.
    The size of the map is read before the content is awaited, and the
    entry is set after it has arrived. *)
Definition walkTreeMap (ignorePatterns : IgnorePatterns) (currentPath : string)
    (filepath : string) (entry : Git.Object) (awaited : nat) (st : WalkState)
  : Git.Next * WalkState :=
  let fullPath :=
    if String.eqb currentPath "" then filepath else Path.join currentPath filepath in
  match awaited with
  | 0 =>
      if String.eqb filepath "" then (Git.Return (Ok VUndefined), st)
      else
        match skipped ignorePatterns fullPath st with
        | Some st' => (Git.Return (Ok VUndefined), st')
        | None =>
            if mentionsTests fullPath then (Git.Return (Ok VUndefined), st)
            else (Git.Await, st)
        end
  | 1 =>
      match entry with
      | Git.Blob _ =>
          if (size (fileContents st) <? 11)%nat then (Git.Await, st)
          else (Git.Return (Ok VUndefined), st)
      | Git.Tree _ => (Git.Return (Ok VTrue), st)
      | _ => (Git.Return (Ok VUndefined), st)
      end
  | _ =>
      match entry with
      | Git.Blob (Throw e) => (Git.Return (Throw e), st)
      | Git.Blob (Ok text) =>
          let formattedContent :=
            addMarkdownPrefix filepath ++ text ++ addMarkdownSuffix filepath in
          (Git.Return (Ok VUndefined),
           mkWalkState
             (<[fullPath := mkFileContent fullPath formattedContent]> (fileContents st))
             (console st))
      | _ => (Git.Return (Ok VUndefined), st)
      end
  end.

Definition walkTree (sched : Git.Schedule) (root : Result Git.Object) (st : WalkState)
    (ignorePatterns : IgnorePatterns) (currentPath : string)
  : Result unit * WalkState :=
  Git.walk (walkTreeMap ignorePatterns currentPath) 2 sched root st.

(** One line of the structure listing. *)
Definition structureLine (filepath annotation : string) : string :=
  let indentLevel := (List.length (split "/" filepath) - 1)%nat in
  let spaces := repeat "  " indentLevel in
  spaces ++ "- " ++ filepath ++ " (" ++ annotation ++ ")" ++ nl.

(** The [map] callback of [getRepositoryStructure], cut at its await,
    [await entry.type()]; the state is the string [structure]. *)
Definition structureMap (filepath : string) (entry : Git.Object) (awaited : nat)
    (structure : string) : Git.Next * string :=
  match awaited with
  | 0 =>
      if String.eqb filepath "" then (Git.Return (Ok VUndefined), structure)
      else (Git.Await, structure)
  | _ =>
      match entry with
      | Git.Tree _ =>
          (Git.Return (Ok VTrue), structure ++ structureLine filepath "directory")
      | Git.Blob _ =>
          (Git.Return (Ok VUndefined), structure ++ structureLine filepath "file")
      | _ => (Git.Return (Ok VUndefined), structure ++ structureLine filepath "unknown")
      end
  end.

Definition getRepositoryStructure (sched : Git.Schedule) (root : Result Git.Object)
  : Result string :=
  match Git.walk structureMap 1 sched root "" with
  | (Throw e, _) => Throw e
  | (Ok _, structure) => Ok structure
  end.

(** What the outside world does during one call of [getRepositoryData]:
    the outcomes of [mkdtemp], of [clone] (with the progress reports it
    makes on the way), of [listFiles], of resolving the walked reference
    to its tree, and of the final [rm]; and the order in which the calls
    of the two walks go on. *)
Record Env := mkEnv {
  mkdtemp : Result string;
  cloneProgress : list (string * string * string);
  clone : Result unit;
  listFiles : Result (list string);
  tree : Result Git.Object;
  rm : Result unit;
  extraction : Git.Schedule;
  listing : Git.Schedule
}.

(** What the call leaves behind: the temporary directories on disk and
    the console. *)
Record World := mkWorld {
  tempDirs : gset string;
  output : list ConsoleLine
}.

Record RepositoryData := mkData {
  dataFileContents : gmap string FileContent;
  structure : string
}.

Definition logLines (w : World) (l : list ConsoleLine) : World :=
  mkWorld (tempDirs w) (output w ++ l).

(** [branch || fallback] *)
Definition orDefault (branch fallback : string) : string :=
  if String.eqb branch "" then fallback else branch.

(** The body of the [try] block. *)
Definition tryBlock (env : Env) (branch : string) (w : World)
  : Result RepositoryData * World :=
  let w1 :=
    logLines w (List.map (fun '(phase, loaded, total) =>
                            ConsoleLog ["clone progress:"; phase; loaded; total])
                         (cloneProgress env)) in
  match clone env with
  | Throw e => (Throw e, w1)
  | Ok _ =>
      match listFiles env with
      | Throw e => (Throw e, w1)
      | Ok commitOid =>
          if (List.length commitOid =? 0)%nat then
            (Throw (newError ("Could not find commit for branch: " ++ orDefault branch "HEAD")), w1)
          else
            let ignorePatterns := parseIgnorePatterns defaultIgnorePatterns in
            match walkTree (extraction env) (tree env) (mkWalkState ∅ [])
                    ignorePatterns "" with
            | (Throw e, st) => (Throw e, logLines w1 (console st))
            | (Ok _, st) =>
                let w2 := logLines w1 (console st) in
                match getRepositoryStructure (listing env) (tree env) with
                | Throw e => (Throw e, w2)
                | Ok structure => (Ok (mkData (fileContents st) structure), w2)
                end
            end
      end
  end.

(** The [catch] block: the error is logged and a new [Error] is thrown. *)
Definition catchBlock (r : Result RepositoryData * World)
  : Result RepositoryData * World :=
  match r with
  | (Throw error, w) =>
      (Throw (newError ("Failed to get repository data: " ++ message error)),
       logLines w [ConsoleError "Error getting repository data:" error])
  | ok => ok
  end.

(** The [finally] block: the directory is removed, and a failure to do so
    is caught and logged. *)
Definition finallyBlock (env : Env) (dir : string)
    (r : Result RepositoryData * World) : Result RepositoryData * World :=
  let '(outcome, w) := r in
  match rm env with
  | Ok _ => (outcome, mkWorld (tempDirs w ∖ {[dir]}) (output w))
  | Throw cleanupError =>
      (outcome, logLines w [ConsoleError "Error cleaning up temporary directory:" cleanupError])
  end.

Definition getRepositoryData (env : Env) (branch : string) (w : World)
  : Result RepositoryData * World :=
  match mkdtemp env with
  | Throw e => (Throw e, w)
  | Ok dir =>
      let w0 := mkWorld ({[dir]} ∪ tempDirs w) (output w) in
      finallyBlock env dir (catchBlock (tryBlock env branch w0))
  end.

End Codebase.

(** ** lib/ast/parser.ts *)

Module Parser.
Import Js.

(** *** The syntax tree of the TypeScript parser, as the summarizer reads it

    Of a node the code reads its kind, its source text, its documentation
    comments and modifiers, the properties of the node type it casts to,
    and the children [ts.forEachChild] enumerates.  Sub-nodes of which only
    the text is read (names, type annotations, module specifiers) are kept
    as that text. *)

Record NodeInfo := mkInfo {
  text : string;                       (* node.getText(sourceFile) *)
  jsDocComments : list string;         (* the string comments of the JSDoc
                                          nodes reached from the tags *)
  modifierKinds : option (list string) (* the names of the kinds of
                                          ts.getModifiers(node); None when
                                          the node can have no modifiers *)
}.

Record ParameterDecl := mkParameter {
  paramName : string;
  paramType : option string;
  questionToken : bool
}.

Inductive FunctionKind := FunctionDeclaration | MethodDeclaration | ArrowFunction.

Record ImportSpecifier := mkSpecifier {
  propertyName : option string;
  specifierName : string
}.

Inductive NamedBindings :=
| NamedImports (elements : list ImportSpecifier)
| NamespaceImport (name : string).

Record ImportClause := mkImportClause {
  clauseName : option string;
  namedBindings : option NamedBindings
}.

Inductive ExportClause :=
| NamedExports (elements : list ImportSpecifier)
| NamespaceExport (name : string).

Inductive HeritageToken := ExtendsKeyword | ImplementsKeyword.

Record HeritageClause := mkHeritage {
  token : HeritageToken;
  types : list string                  (* type.expression.getText() *)
}.

Record EnumMember := mkEnumMember {
  memberName : string;
  memberInitializer : option string
}.

Inductive Node :=
| mkNode (info : NodeInfo) (shape : Shape) (children : list Node)
with Shape :=
| SourceFile (fileName : string)
| ImportDeclaration (moduleSpecifier : string) (importClause : option ImportClause)
| ExportDeclaration (moduleSpecifier : option string) (isTypeOnly : bool)
    (exportClause : option ExportClause)
| FunctionLike (k : FunctionKind) (name : option string)
    (parameters : list ParameterDecl) (type : option string) (body : option Node)
| Constructor (parameters : list ParameterDecl) (body : option Node)
| ClassDeclaration (name : option string) (heritageClauses : option (list HeritageClause))
    (members : list Node)
| PropertyDeclaration (name : string) (type : option string) (initializer : option Node)
| PropertySignature (name : string) (type : option string)
| InterfaceDeclaration (name : string) (members : list Node)
| TypeAliasDeclaration (name : string) (type : string)
| EnumDeclaration (name : string) (members : list EnumMember)
| VariableStatement (declarationList : Node)
| VariableDeclaration (name : string) (type : option string) (initializer : option Node)
| IfStatement (expression : Node) (thenStatement : Node) (elseStatement : option Node)
| ReturnStatement (expression : option Node)
| CallExpression (expression : Node) (arguments : list Node)
| ExpressionStatement (expression : Node)
| StringLiteral (literalText : string)
| NumericLiteral (literalText : string)
| Token (kind : string)
| Other (kind : string).

Definition infoOf (n : Node) : NodeInfo := match n with mkNode i _ _ => i end.
Definition shapeOf (n : Node) : Shape := match n with mkNode _ s _ => s end.
(** [ts.forEachChild(n, f)] with a callback that returns nothing visits
    all of these, in this order. *)
Definition forEachChild (n : Node) : list Node := match n with mkNode _ _ c => c end.
Definition getText (n : Node) : string := text (infoOf n).

(** [ts.SyntaxKind[node.kind]]; for a kind that is also a range marker of
    the enumeration, the name of the marker. *)
Definition kindName (s : Shape) : string :=
  match s with
  | SourceFile _ => "SourceFile"
  | ImportDeclaration _ _ => "ImportDeclaration"
  | ExportDeclaration _ _ _ => "ExportDeclaration"
  | FunctionLike FunctionDeclaration _ _ _ _ => "FunctionDeclaration"
  | FunctionLike MethodDeclaration _ _ _ _ => "MethodDeclaration"
  | FunctionLike ArrowFunction _ _ _ _ => "ArrowFunction"
  | Constructor _ _ => "Constructor"
  | ClassDeclaration _ _ _ => "ClassDeclaration"
  | PropertyDeclaration _ _ _ => "PropertyDeclaration"
  | PropertySignature _ _ => "PropertySignature"
  | InterfaceDeclaration _ _ => "InterfaceDeclaration"
  | TypeAliasDeclaration _ _ => "TypeAliasDeclaration"
  | EnumDeclaration _ _ => "EnumDeclaration"
  | VariableStatement _ => "FirstStatement"
  | VariableDeclaration _ _ _ => "VariableDeclaration"
  | IfStatement _ _ _ => "IfStatement"
  | ReturnStatement _ => "ReturnStatement"
  | CallExpression _ _ => "CallExpression"
  | ExpressionStatement _ => "ExpressionStatement"
  | StringLiteral _ => "StringLiteral"
  | NumericLiteral _ => "FirstLiteralToken"
  | Token k => k
  | Other k => k
  end.

Definition isToken (s : Shape) : bool :=
  match s with
  | StringLiteral _ | NumericLiteral _ | Token _ => true
  | _ => false
  end.

(** *** The summary *)

Inductive LitValue :=
| VString (s : string)
| VNumber (literalText : string)       (* parseFloat of this text *)
| VBoolean (b : bool).

Record SigParameter := mkSigParameter {
  sigName : string; sigType : string; isOptional : bool
}.

Record Signature := mkSignature {
  sigParameters : list SigParameter;
  returnType : string
}.

Record ImportedElement := mkImported {
  importedName : string;
  importedAlias : option string;
  importedIsDefault : bool;
  importedIsNamespace : bool
}.

Record ExportedElement := mkExported {
  exportedName : option string;
  exportedAlias : option string;
  fromModule : option string
}.

(** The fields of an [LlmAstNode] that hold no further nodes; an absent
    or [undefined] field is [None]. *)
Record Fields := mkFields {
  type_ : string;
  name_ : option string;
  jsDoc : option string;
  modifiers : option (list string);
  signature : option Signature;
  inheritsFrom : option string;
  implements : option (list string);
  dataType : option string;
  value : option LitValue;
  assignedFromExpression : option string;
  moduleSpecifier_ : option string;
  importedElements : option (list ImportedElement);
  exportedElements : option (list ExportedElement)
}.

Inductive LlmAstNode :=
| Llm (fields : Fields) (logicFlow : option (list LlmAstNode))
      (children_ : option (list LlmAstNode)).

Definition fieldsOf (n : LlmAstNode) : Fields := match n with Llm f _ _ => f end.
Definition logicFlowOf (n : LlmAstNode) := match n with Llm _ l _ => l end.
Definition childrenOf (n : LlmAstNode) := match n with Llm _ _ c => c end.

(** An object literal with only [type] set. *)
Definition bare (ty : string) : Fields :=
  mkFields ty None None None None None None None None None None None None.


(** Assignments to one field of a node under construction. *)
Definition set_type (f : Fields) v : Fields :=
  mkFields v (name_ f) (jsDoc f) (modifiers f) (signature f) (inheritsFrom f)
    (implements f) (dataType f) (value f) (assignedFromExpression f)
    (moduleSpecifier_ f) (importedElements f) (exportedElements f).
Definition set_name (f : Fields) v : Fields :=
  mkFields (type_ f) v (jsDoc f) (modifiers f) (signature f) (inheritsFrom f)
    (implements f) (dataType f) (value f) (assignedFromExpression f)
    (moduleSpecifier_ f) (importedElements f) (exportedElements f).
Definition set_jsDoc (f : Fields) v : Fields :=
  mkFields (type_ f) (name_ f) v (modifiers f) (signature f) (inheritsFrom f)
    (implements f) (dataType f) (value f) (assignedFromExpression f)
    (moduleSpecifier_ f) (importedElements f) (exportedElements f).
Definition set_modifiers (f : Fields) v : Fields :=
  mkFields (type_ f) (name_ f) (jsDoc f) v (signature f) (inheritsFrom f) (implements f)
    (dataType f) (value f) (assignedFromExpression f) (moduleSpecifier_ f)
    (importedElements f) (exportedElements f).
Definition set_signature (f : Fields) v : Fields :=
  mkFields (type_ f) (name_ f) (jsDoc f) (modifiers f) v (inheritsFrom f) (implements f)
    (dataType f) (value f) (assignedFromExpression f) (moduleSpecifier_ f)
    (importedElements f) (exportedElements f).
Definition set_inheritsFrom (f : Fields) v : Fields :=
  mkFields (type_ f) (name_ f) (jsDoc f) (modifiers f) (signature f) v (implements f)
    (dataType f) (value f) (assignedFromExpression f) (moduleSpecifier_ f)
    (importedElements f) (exportedElements f).
Definition set_implements (f : Fields) v : Fields :=
  mkFields (type_ f) (name_ f) (jsDoc f) (modifiers f) (signature f) (inheritsFrom f) v
    (dataType f) (value f) (assignedFromExpression f) (moduleSpecifier_ f)
    (importedElements f) (exportedElements f).
Definition set_dataType (f : Fields) v : Fields :=
  mkFields (type_ f) (name_ f) (jsDoc f) (modifiers f) (signature f) (inheritsFrom f)
    (implements f) v (value f) (assignedFromExpression f) (moduleSpecifier_ f)
    (importedElements f) (exportedElements f).
Definition set_value (f : Fields) v : Fields :=
  mkFields (type_ f) (name_ f) (jsDoc f) (modifiers f) (signature f) (inheritsFrom f)
    (implements f) (dataType f) v (assignedFromExpression f) (moduleSpecifier_ f)
    (importedElements f) (exportedElements f).
Definition set_assignedFromExpression (f : Fields) v : Fields :=
  mkFields (type_ f) (name_ f) (jsDoc f) (modifiers f) (signature f) (inheritsFrom f)
    (implements f) (dataType f) (value f) v (moduleSpecifier_ f) (importedElements f)
    (exportedElements f).
Definition set_moduleSpecifier (f : Fields) v : Fields :=
  mkFields (type_ f) (name_ f) (jsDoc f) (modifiers f) (signature f) (inheritsFrom f)
    (implements f) (dataType f) (value f) (assignedFromExpression f) v
    (importedElements f) (exportedElements f).
Definition set_importedElements (f : Fields) v : Fields :=
  mkFields (type_ f) (name_ f) (jsDoc f) (modifiers f) (signature f) (inheritsFrom f)
    (implements f) (dataType f) (value f) (assignedFromExpression f)
    (moduleSpecifier_ f) v (exportedElements f).
Definition set_exportedElements (f : Fields) v : Fields :=
  mkFields (type_ f) (name_ f) (jsDoc f) (modifiers f) (signature f) (inheritsFrom f)
    (implements f) (dataType f) (value f) (assignedFromExpression f)
    (moduleSpecifier_ f) (importedElements f) v.

(** *** Helper functions *)

Definition getJSDoc (info : NodeInfo) : option string :=
  let comments := jsDocComments info in
  if (0 <? List.length comments)%nat then Some (join nl comments) else None.

Definition getModifiers (info : NodeInfo) : list string :=
  match modifierKinds info with
  | Some ms => List.map (fun m => replace "keyword" "" (toLowerCase m)) ms
  | None => []
  end.

Definition getTypeString (typeNode : option string) : string :=
  match typeNode with
  | None => "any"
  | Some t => t
  end.

Section Collect.
Context {A B : Type} (f : A -> option B).
(** The loop that pushes every non-null result. *)
Fixpoint collect (l : list A) : list B :=
  match l with
  | [] => []
  | x :: r => match f x with
              | Some y => y :: collect r
              | None => collect r
              end
  end.
End Collect.

Definition isEmpty {A : Type} (l : list A) : bool :=
  match l with [] => true | _ => false end.

Definition signatureOf (parameters : list ParameterDecl) (ret : string) : Signature :=
  mkSignature
    (List.map (fun param => mkSigParameter (paramName param)
                              (getTypeString (paramType param)) (questionToken param))
              parameters)
    ret.

(** The two nested [forEach] over the heritage clauses of a class. *)
Definition heritageStep (tok : HeritageToken) (f : Fields) (ty : string) : Fields :=
  match tok with
  | ExtendsKeyword => set_inheritsFrom f (Some ty)
  | ImplementsKeyword =>
      set_implements f (Some (match implements f with
                              | Some l => (l ++ [ty])%list
                              | None => [ty]
                              end))
  end.

Definition heritage (clauses : list HeritageClause) (f : Fields) : Fields :=
  fold_left (fun f clause => fold_left (heritageStep (token clause)) (types clause) f)
            clauses f.

(** The literal cases shared by the initializers of properties and of
    variables; [None] when the initializer is none of them. *)
Definition literalValue (init : Node) : option LitValue :=
  match shapeOf init with
  | StringLiteral t => Some (VString t)
  | NumericLiteral t => Some (VNumber t)
  | Token k =>
      if String.eqb k "TrueKeyword" then Some (VBoolean true)
      else if String.eqb k "FalseKeyword" then Some (VBoolean false)
      else None
  | _ => None
  end.

Definition isArrowFunction (n : Node) : bool :=
  match shapeOf n with
  | FunctionLike ArrowFunction _ _ _ _ => true
  | _ => false
  end.

Definition functionType (k : FunctionKind) : string :=
  match k with
  | FunctionDeclaration => "Function"
  | MethodDeclaration => "Method"
  | ArrowFunction => "ArrowFunction"
  end.

Definition importedOf (clause : option ImportClause) : list ImportedElement :=
  match clause with
  | None => []
  | Some c =>
      ((match clauseName c with
        | Some n => [mkImported n None true false]
        | None => []
        end) ++
       match namedBindings c with
       | Some (NamedImports elements) =>
           List.map (fun element =>
                       mkImported (specifierName element) (propertyName element) false false)
                    elements
       | Some (NamespaceImport n) => [mkImported n None false true]
       | None => []
       end)%list
  end.

Definition exportedOf (clause : option ExportClause) (spec : option string)
  : list ExportedElement :=
  match clause with
  | Some (NamedExports elements) =>
      List.map (fun element =>
                  mkExported (Some (specifierName element)) (propertyName element) spec)
               elements
  | Some (NamespaceExport _) => []
  | None =>
      match spec with
      | Some _ => [mkExported (Some "*") None spec]
      | None => []
      end
  end.

(** *** processNode

    [processFunctionLogicNode] calls [processNode] on the very node it was
    given, so the body of [processNode] is written once, over the two
    functions [pn] and [pl] its recursive calls go to; [processNode] below
    is that body with [pn] and [pl] tied back to the two traversals.
    [fileName] is [context.sourceFile.fileName]. *)
Definition processNodeWith (pn pl : Node -> option LlmAstNode)
    (fileName : string) (node : Node) : option LlmAstNode :=
  match node with
  | mkNode info shape children =>
    if isToken shape
       || String.eqb (kindName shape) "MissingDeclaration"
       || String.eqb (kindName shape) "CommaListExpression"
    then None
    else
      let nodeRep :=
        set_modifiers (set_jsDoc (bare "Unknown") (getJSDoc info))
                      (Some (getModifiers info)) in
      let default :=
        let processed := collect pn children in
        if isEmpty processed then None
        else Some (Llm (set_type nodeRep ("GenericContainer (" ++ kindName shape ++ ")"))
                       None (Some processed)) in
      match shape with
      | SourceFile _ =>
          Some (Llm (set_name (set_type nodeRep "Module") (Some (stripTsSuffix fileName)))
                    None (Some (collect pn children)))
      | ImportDeclaration moduleSpecifier importClause =>
          Some (Llm (set_importedElements
                       (set_moduleSpecifier (set_type nodeRep "Import")
                          (Some (stripQuotes moduleSpecifier)))
                       (Some (importedOf importClause)))
                    None None)
      | ExportDeclaration moduleSpecifier isTypeOnly exportClause =>
          let spec := option_map stripQuotes moduleSpecifier in
          let rep := set_moduleSpecifier (set_type nodeRep "Export") spec in
          let rep := if isTypeOnly
                     then set_modifiers rep (Some (getModifiers info ++ ["typeOnly"])%list)
                     else rep in
          Some (Llm (set_exportedElements rep (Some (exportedOf exportClause spec)))
                    None None)
      | FunctionLike k name parameters type body =>
          let rep := set_signature
                       (set_modifiers (set_name (set_type nodeRep (functionType k)) name)
                          (Some (getModifiers info)))
                       (Some (signatureOf parameters (getTypeString type))) in
          Some (Llm rep
                    (match body with
                     | Some (mkNode _ _ statements) => Some (collect pl statements)
                     | None => None
                     end)
                    None)
      | ClassDeclaration name heritageClauses members =>
          let rep := set_modifiers (set_name (set_type nodeRep "Class") name)
                       (Some (getModifiers info)) in
          let rep := match heritageClauses with
                     | Some clauses => heritage clauses rep
                     | None => rep
                     end in
          Some (Llm rep None (Some (collect pn members)))
      | PropertyDeclaration name type initializer =>
          let rep := set_modifiers
                       (set_dataType (set_name (set_type nodeRep "Property") (Some name))
                          (Some (getTypeString type)))
                       (Some (getModifiers info)) in
          Some (Llm (match initializer with
                     | Some init =>
                         match literalValue init with
                         | Some v => set_value rep (Some v)
                         | None => set_assignedFromExpression rep (Some (getText init))
                         end
                     | None => rep
                     end) None None)
      | PropertySignature name type =>
          Some (Llm (set_modifiers
                       (set_dataType
                          (set_name (set_type nodeRep "PropertySignature") (Some name))
                          (Some (getTypeString type)))
                       (Some (getModifiers info))) None None)
      | Constructor parameters body =>
          let rep := set_signature
                       (set_modifiers (set_type nodeRep "Constructor")
                          (Some (getModifiers info)))
                       (Some (signatureOf parameters "void")) in
          Some (Llm rep
                    (match body with
                     | Some (mkNode _ _ statements) => Some (collect pl statements)
                     | None => None
                     end)
                    None)
      | InterfaceDeclaration name members =>
          Some (Llm (set_modifiers (set_name (set_type nodeRep "Interface") (Some name))
                       (Some (getModifiers info)))
                    None (Some (collect pn members)))
      | TypeAliasDeclaration name type =>
          Some (Llm (set_modifiers
                       (set_dataType (set_name (set_type nodeRep "TypeAlias") (Some name))
                          (Some (getTypeString (Some type))))
                       (Some (getModifiers info))) None None)
      | EnumDeclaration name members =>
          Some (Llm (set_modifiers (set_name (set_type nodeRep "Enum") (Some name))
                       (Some (getModifiers info)))
                    None
                    (Some (List.map
                             (fun member =>
                                Llm (set_value
                                       (set_name (bare "EnumMember") (Some (memberName member)))
                                       (option_map VString (memberInitializer member)))
                                    None None)
                             members)))
      | VariableStatement (mkNode _ _ declarations) =>
          let rep := set_modifiers (set_type nodeRep "VariableDeclarationGroup")
                       (Some (getModifiers info)) in
          Some (Llm rep None
                    (Some (collect
                             (fun declNode =>
                                match declNode with
                                | mkNode _ (VariableDeclaration name type initializer) _ =>
                                    let varNode :=
                                      set_dataType (set_name (bare "Variable") (Some name))
                                                   (Some (getTypeString type)) in
                                    match initializer with
                                    | None => Some (Llm varNode None None)
                                    | Some init =>
                                        match literalValue init with
                                        | Some v => Some (Llm (set_value varNode (Some v)) None None)
                                        | None =>
                                            if isArrowFunction init then
                                              match pn init with
                                              | Some (Llm f lf ch) =>
                                                  Some (Llm (set_modifiers
                                                               (set_name f (Some name))
                                                               (Some (getModifiers info ++
                                                                      match modifiers f with
                                                                      | Some l => l
                                                                      | None => []
                                                                      end)%list))
                                                            lf ch)
                                              | None => Some (Llm varNode None None)
                                              end
                                            else Some (Llm (set_assignedFromExpression varNode
                                                              (Some (getText init)))
                                                           None None)
                                        end
                                    end
                                | _ => None
                                end)
                             declarations)))
      | _ => default
      end
  end.

Definition isLoopKind (k : string) : bool :=
  String.eqb k "ForStatement" || String.eqb k "WhileStatement"
  || String.eqb k "SwitchStatement" || String.eqb k "TryStatement".

Definition isVariableNode (v : LlmAstNode) : bool :=
  String.eqb (type_ (fieldsOf v)) "Variable"
  || String.eqb (type_ (fieldsOf v)) "VariableDeclarationGroup".

Fixpoint processNode (fileName : string) (node : Node) {struct node}
  : option LlmAstNode :=
  processNodeWith (processNode fileName) (processFunctionLogicNode fileName) fileName node

with processFunctionLogicNode (fileName : string) (node : Node) {struct node}
  : option LlmAstNode :=
  match node with
  | mkNode info shape children =>
    let logicNode := bare "UnknownLogic" in
    let variable :=
      match processNodeWith (processNode fileName) (processFunctionLogicNode fileName)
              fileName node with
      | Some varDeclarationNode =>
          if isVariableNode varDeclarationNode then Some varDeclarationNode else None
      | None => None
      end in
    let default :=
      let nestedLogicChildren := collect (processFunctionLogicNode fileName) children in
      if isEmpty nestedLogicChildren then None
      else Some (Llm (set_value (bare ("NestedLogic (" ++ kindName shape ++ ")"))
                                (Some (VString (text info))))
                     None (Some nestedLogicChildren)) in
    match shape with
    | IfStatement expression thenStatement elseStatement =>
        let thenPart :=
          match processFunctionLogicNode fileName thenStatement with
          | Some thenBlock => [Llm (bare "ThenBlock") None (Some [thenBlock])]
          | None => []
          end in
        let elsePart :=
          match elseStatement with
          | Some e =>
              match processFunctionLogicNode fileName e with
              | Some elseBlock => [Llm (bare "ElseBlock") None (Some [elseBlock])]
              | None => []
              end
          | None => []
          end in
        Some (Llm (set_name (set_type logicNode "IfStatement")
                            (Some ("if (" ++ getText expression ++ ")")))
                  None (Some (thenPart ++ elsePart)%list))
    | ReturnStatement expression =>
        Some (Llm (set_value (set_type logicNode "ReturnStatement")
                             (Some (VString (match expression with
                                             | Some e => getText e
                                             | None => "void"
                                             end))))
                  None None)
    | CallExpression expression arguments =>
        Some (Llm (set_name (set_type logicNode "FunctionCall") (Some (getText expression)))
                  None
                  (Some (List.map (fun arg =>
                                     Llm (set_value (bare "Argument")
                                                    (Some (VString (getText arg))))
                                         None None)
                                  arguments)))
    | ExpressionStatement expression => processFunctionLogicNode fileName expression
    | VariableStatement _ => variable
    | VariableDeclaration _ _ _ => variable
    | Other k =>
        if String.eqb k "Block" then
          let blockChildren := collect (processFunctionLogicNode fileName) children in
          if isEmpty blockChildren then None
          else Some (Llm (bare "Block") None (Some blockChildren))
        else if isLoopKind k then
          let childrenLogic := collect (processFunctionLogicNode fileName) children in
          Some (Llm (set_type logicNode k) None
                    (if isEmpty childrenLogic then None else Some childrenLogic))
        else if String.eqb k "VariableDeclarationList" then variable
        else default
    | _ => default
    end
  end.

(** [parseTypeScriptApiAndStructure]: the value handed to
    [JSON.stringify], the children of the module node. *)
Definition parseTypeScriptApiAndStructure (sourceFile : Node)
  : option (list LlmAstNode) :=
  let fileName := match shapeOf sourceFile with
                  | SourceFile f => f
                  | _ => ""
                  end in
  match processNode fileName sourceFile with
  | Some rootNodes => childrenOf rootNodes
  | None => None
  end.

End Parser.

(** ** Vocabulary of the statements *)

Module Spec.
Import Js.

(** [P] has [s] as one of its segments between slashes. *)
Definition hasSegment (s P : string) : Prop := In s (split "/" P).

Definition excludedSegments : list string :=
  ["node_modules"; ".git"; "dist"; "build"; "coverage";
   "examples"; "example"; "tests"; "test"].

(** The names among them that the checks look for anywhere in the path. *)
Definition excludedAnywhere : list string :=
  [".git"; "build"; "examples"; "example"; "tests"; "test"].

(** The depth of a path: the number of slashes in it. *)
Fixpoint depth (P : string) : nat :=
  match P with
  | "" => 0
  | String c r => if Ascii.eqb c "/" then S (depth r) else depth r
  end.

Definition annotation (o : Git.Object) : string :=
  match o with
  | Git.Tree _ => "directory"
  | Git.Blob _ => "file"
  | _ => "unknown"
  end.

(** The line of the listing for one entry. *)
Definition lineOf (e : string * Git.Object) : string :=
  repeat "  " (depth (fst e)) ++ "- " ++ fst e ++ " (" ++ annotation (snd e) ++ ")" ++ nl.

Fixpoint listing (l : list (string * Git.Object)) : string :=
  match l with
  | [] => ""
  | e :: rest => lineOf e ++ listing rest
  end.

Definition named (e : string * Git.Object) : bool := negb (String.eqb (fst e) "").

(** The fence of a file: its label in the table, or the bare fence. *)
Definition fence (P : string) : string :=
  match Codebase.fileTypePrefixes !! Path.extname P with
  | Some label => label
  | None => "```"
  end.

(** The pattern strings in [defaultIgnorePatterns]. *)
Definition defaults : list string :=
  ["ui"; "node_modules/"; ".git"; "dist/"; "build/"; "coverage/"; ".log$"; ".env$";
   ".lock$"; ".md$"; ".min.js$"; "package-lock.json"; ".vscode"; ".editorconfig";
   ".gitignore"; "license"; "LICENSE"; "tsconfig.json"; ".dockerignore";
   "tailwind.config.ts"].

(** The prefix of the message of every error [getRepositoryData] throws. *)
Definition errorPrefix : string := "Failed to get repository data: ".

(** The patterns and the initial state [getRepositoryData] walks with. *)
Definition patterns : Codebase.IgnorePatterns :=
  Codebase.parseIgnorePatterns Codebase.defaultIgnorePatterns.

Definition start : Codebase.WalkState := Codebase.mkWalkState ∅ [].

(** Every entry of the map is the fenced text of a blob of the tree,
    stored under the path of that blob. *)
Definition fenced (root : Git.Object) (st : Codebase.WalkState) : Prop :=
  forall P v, Codebase.fileContents st !! P = Some v ->
    Codebase.path v = P /\
    exists raw, In (P, Git.Blob (Ok raw)) (Git.entries "." root) /\
                Codebase.content v = fence P ++ nl ++ raw ++ nl ++ fence P.

(** [env] with another outcome of the final [rm]. *)
Definition withRm (env : Codebase.Env) (r : Result unit) : Codebase.Env :=
  Codebase.mkEnv (Codebase.mkdtemp env) (Codebase.cloneProgress env) (Codebase.clone env)
    (Codebase.listFiles env) (Codebase.tree env) r
    (Codebase.extraction env) (Codebase.listing env).

(** The extracted-file map a walk of [root] leaves, when its calls go on in
    the order [sched]. *)
Definition extracted (sched : Git.Schedule) (root : Result Git.Object)
  : gmap string Codebase.FileContent :=
  Codebase.fileContents (snd (Codebase.walkTree sched root start patterns "")).

(** *** Shapes of the summary *)

Import Parser.

Definition doubleQuote : string := String (ascii_of_nat 34) "".
Definition singleQuote : string := String (ascii_of_nat 39) "".

Definition typeOf (n : LlmAstNode) : string := type_ (fieldsOf n).

Definition childNodes (n : LlmAstNode) : list LlmAstNode :=
  match childrenOf n with
  | Some l => l
  | None => []
  end.

(** A [ReturnStatement] node with the value [v]. *)
Definition returnOf (v : string) : LlmAstNode :=
  Llm (mkFields "ReturnStatement" None None None None None None None
         (Some (VString v)) None None None None) None None.

(** A node that has only a type and children. *)
Definition container (ty : string) (l : list LlmAstNode) : LlmAstNode :=
  Llm (bare ty) None (Some l).

(** The [IfStatement] node with the condition [cond] and the given
    children. *)
Definition ifOf (cond : string) (l : list LlmAstNode) : LlmAstNode :=
  Llm (mkFields "IfStatement" (Some ("if (" ++ cond ++ ")")) None None None None None None
         None None None None None) None (Some l).

Definition isReturnOf (v : string) (n : LlmAstNode) : bool :=
  String.eqb (typeOf n) "ReturnStatement" &&
  match value (fieldsOf n) with
  | Some (VString s) => String.eqb s v
  | _ => false
  end.

(** The nodes below [n]: its children, their children, and so on. *)
Fixpoint descendants (n : LlmAstNode) : list LlmAstNode :=
  match n with
  | Llm _ _ (Some l) =>
      (fix below (l : list LlmAstNode) : list LlmAstNode :=
         match l with
         | [] => []
         | c :: rest => (c :: descendants c ++ below rest)%list
         end) l
  | Llm _ _ None => []
  end.

(** [n] is a node of type [ty] that contains a return of [v]. *)
Definition branchReturns (ty v : string) (n : LlmAstNode) : bool :=
  String.eqb (typeOf n) ty && existsb (isReturnOf v) (descendants n).

(** The logic flow has an [IfStatement] whose [ThenBlock] child contains a
    return of [a] and whose [ElseBlock] child contains a return of [b]. *)
Definition ifReturns (a b : string) (flow : list LlmAstNode) : bool :=
  existsb (fun n => String.eqb (typeOf n) "IfStatement"
                    && existsb (branchReturns "ThenBlock" a) (childNodes n)
                    && existsb (branchReturns "ElseBlock" b) (childNodes n))
          flow.

(** [f] is a function declaration, a method, an arrow function or a
    constructor, and [body] is its body. *)
Definition functionWithBody (f body : Node) : Prop :=
  (exists k name parameters ty, shapeOf f = FunctionLike k name parameters ty (Some body))
  \/ (exists parameters, shapeOf f = Constructor parameters (Some body)).

(** The summary of [if (cond) { return a; } else { return b; }]. *)
Definition ifElseSummary (cond a b : string) : LlmAstNode :=
  ifOf cond [ container "ThenBlock" [container "Block" [returnOf a]];
              container "ElseBlock" [container "Block" [returnOf b]] ].

(** The [Import] node for the named imports [Foo] and [Bar as Baz] from
    [./mod], with the documentation and modifiers of the declaration. *)
Definition importFooBaz (info : NodeInfo) : LlmAstNode :=
  Llm (mkFields "Import" None (getJSDoc info) (Some (getModifiers info)) None None None
         None None None (Some "./mod")
         (Some [mkImported "Foo" None false false;
                mkImported "Baz" (Some "Bar") false false])
         None) None None.

End Spec.

(** ** Sample inputs *)

Module Examples.
Import Js.

Definition file (name text : string) : string * Git.Object :=
  (name, Git.Blob (Ok text)).

(** Eleven source files side by side. *)
Definition elevenFiles : Git.Object :=
  Git.Tree [ file "a.ts" "1"; file "b.ts" "2"; file "c.ts" "3"; file "d.ts" "4";
             file "e.ts" "5"; file "f.ts" "6"; file "g.ts" "7"; file "h.ts" "8";
             file "i.ts" "9"; file "j.ts" "10"; file "k.ts" "11" ].

(** A small repository, with a submodule link at the end. *)
Definition smallRepo : Git.Object :=
  Git.Tree [ file "README.md" "# readme";
             ("node_modules", Git.Tree [ file "dep.js" "x" ]);
             ("build", Git.Tree [ file "quick.ts" "q" ]);
             ("src", Git.Tree [ file "add.ts" "export function add() {}";
                                file "latest.ts" "export const latest = 1";
                                file "index.php" "<?php" ]);
             ("vendor", Git.Commit) ].

Definition readFailure : Error := mkError "Error" "object not found".

(** A blob that cannot be read, followed by one that can. *)
Definition unreadableFirst : Git.Object :=
  Git.Tree [ ("a.ts", Git.Blob (Throw readFailure)); file "b.ts" "let b" ].

Definition readableOnly : Git.Object :=
  Git.Tree [ file "b.ts" "let b" ].

Definition tmp : string := "/tmp/repo-clone-Ab12Cd".

Definition emptyWorld : Codebase.World := Codebase.mkWorld ∅ [].

(** A call in which everything outside goes well, and in which of the
    calls that wait the first always goes on. *)
Definition envOf (root : Git.Object) : Codebase.Env :=
  Codebase.mkEnv (Ok tmp) [("Receiving objects", "1", "4")] (Ok tt)
    (Ok ["src/add.ts"]) (Ok root) (Ok tt) [] [].

(** The clone fails; the message of the failure happens to read like the
    one [getRepositoryData] makes up for an empty listing. *)
Definition cloneFails : Codebase.Env :=
  Codebase.mkEnv (Ok tmp) []
    (Throw (mkError "HttpError" "Could not find commit for branch: HEAD"))
    (Ok []) (Ok smallRepo) (Ok tt) [] [].

(** The clone succeeds and [listFiles] finds nothing. *)
Definition noCommit : Codebase.Env :=
  Codebase.mkEnv (Ok tmp) [] (Ok tt) (Ok []) (Ok smallRepo) (Ok tt) [] [].

(** The clone fails and so does the removal of the directory. *)
Definition cloneAndCleanupFail : Codebase.Env :=
  Codebase.mkEnv (Ok tmp) [] (Throw (mkError "HttpError" "HTTP Error: 401 Unauthorized"))
    (Ok []) (Ok smallRepo) (Throw (mkError "Error" "EBUSY: resource busy or locked"))
    [] [].

(** *** Syntax trees *)

Import Parser.

Definition plainInfo (text : string) : NodeInfo := mkInfo text [] None.

Definition identifier (text : string) : Node :=
  mkNode (plainInfo text) (Token "Identifier") [].

Definition number (text : string) : Node :=
  mkNode (plainInfo text) (NumericLiteral text) [].

Definition returning (e : Node) : Node :=
  mkNode (plainInfo ("return " ++ getText e ++ ";")) (ReturnStatement (Some e)) [e].

Definition blockOf (text : string) (statements : list Node) : Node :=
  mkNode (plainInfo text) (Other "Block") statements.

(** [if (x) { return 1; } else { return 2; }] *)
Definition ifElse : Node :=
  let cond := identifier "x" in
  let thenStatement := blockOf "{ return 1; }" [returning (number "1")] in
  let elseStatement := blockOf "{ return 2; }" [returning (number "2")] in
  mkNode (plainInfo "if (x) { return 1; } else { return 2; }")
    (IfStatement cond thenStatement (Some elseStatement))
    [cond; thenStatement; elseStatement].

(** [function pick(x) { if (x) { return 1; } else { return 2; } }] *)
Definition pick : Node :=
  let body := blockOf "{ if (x) { return 1; } else { return 2; } }" [ifElse] in
  mkNode (mkInfo "function pick(x) { if (x) { return 1; } else { return 2; } }" [] (Some []))
    (FunctionLike FunctionDeclaration (Some "pick") [mkParameter "x" None false] None
       (Some body))
    [identifier "pick";
     mkNode (mkInfo "x" [] (Some [])) (Other "Parameter") [identifier "x"];
     body].

Definition pickFile : Node :=
  mkNode (plainInfo "function pick(x) { if (x) { return 1; } else { return 2; } }")
    (SourceFile "pick.ts")
    [pick; mkNode (plainInfo "") (Token "EndOfFileToken") []].

(** The import of [Foo] and of [Bar as Baz] from [./mod], written with
    the quote character [quote]. *)
Definition importDeclaration (quote : string) (info : NodeInfo) (children : list Node)
  : Node :=
  mkNode info
    (ImportDeclaration (quote ++ "./mod" ++ quote)
       (Some (mkImportClause None
                (Some (NamedImports [mkSpecifier None "Foo";
                                     mkSpecifier (Some "Bar") "Baz"])))))
    children.

Definition importFile : Node :=
  let quote := String (ascii_of_nat 34) "" in
  let line := "import { Foo, Bar as Baz } from " ++ quote ++ "./mod" ++ quote in
  mkNode (plainInfo line)
    (SourceFile "main.ts")
    [importDeclaration quote (mkInfo line [] (Some [])) [];
     mkNode (plainInfo "") (Token "EndOfFileToken") []].

End Examples.

(** ** The repository analysis route: the tally of file types *)

Module Routes.
Import Js.

(** An item of the contents listing of the repository: the code reads its
    [type] and its [name]. *)
Record ContentItem := mkItem { itemType : string; itemName : string }.

(** [name.split(".").pop()?.toLowerCase() || "no-ext"] *)
Definition extensionOf (name : string) : string :=
  let ext := toLowerCase (List.last (split "." name) "") in
  if String.eqb ext "" then "no-ext" else ext.

(** The two variables [analyzeContents] closes over. *)
Record Tally := mkTally { fileTypes : gmap string nat; totalFiles : nat }.

(** One turn of the [forEach] of [analyzeContents]. *)
Definition analyzeItem (t : Tally) (item : ContentItem) : Tally :=
  if String.eqb (itemType item) "file" then
    let ext := extensionOf (itemName item) in
    mkTally (<[ext := (default 0 (fileTypes t !! ext) + 1)%nat]> (fileTypes t))
            (S (totalFiles t))
  else t.

Definition analyzeContents (items : list ContentItem) (t : Tally) : Tally :=
  fold_left analyzeItem items t.

(** [repo.replace(".git", "")] *)
Definition cleanRepo (repo : string) : string := replace ".git" "" repo.

End Routes.

(** ** [lib/formatter]: thinking sections and anchors *)

Module Formatter.
Import Js.

Definition thinkingSeparator : string := "</think>".

(** [s.indexOf(p)]: the position of the first occurrence of [p], or -1. *)
Fixpoint indexOf (p s : string) : Z :=
  if String.prefix p s then 0%Z
  else match s with
       | "" => (-1)%Z
       | String _ r =>
           let i := indexOf p r in
           if (i <? 0)%Z then (-1)%Z else (i + 1)%Z
       end.

(** [s.substring(start)]: a negative start counts as 0, one past the end
    as the end. *)
Definition substringFrom (start : Z) (s : string) : string :=
  substring (Z.to_nat start) (String.length s - Z.to_nat start) s.

Definition FormatThinkingResponse (response : string) : string :=
  let thinkIndex := indexOf thinkingSeparator response in
  if (thinkIndex <? 0)%Z then response
  else trim (substringFrom (thinkIndex + Z.of_nat (String.length thinkingSeparator))
               response).

(** The characters the pattern of [generateAnchor] leaves alone: the
    digits and the letters A to Z and a to z. *)
Definition isAlphaNumeric (c : ascii) : bool :=
  let n := nat_of_ascii c in
  ((48 <=? n)%nat && (n <=? 57)%nat)
  || ((65 <=? n)%nat && (n <=? 90)%nat)
  || ((97 <=? n)%nat && (n <=? 122)%nat).

(** [s.replace] with the global pattern of one or more characters that are
    not alphanumeric and the replacement [-]: every maximal run of such
    characters becomes one hyphen.  [inRun] tells that the run the scan is
    in has got its hyphen. *)
Fixpoint hyphenate (inRun : bool) (s : string) : string :=
  match s with
  | "" => ""
  | String c r =>
      if isAlphaNumeric c then String c (hyphenate false r)
      else if inRun then hyphenate true r
      else String "-" (hyphenate true r)
  end.

Definition generateAnchor (filePath : string) : string :=
  let anchor := hyphenate false filePath in
  toLowerCase anchor.

End Formatter.

(** ** Further vocabulary *)

Module Terms.
Import Js.

Definition isBlob (o : Git.Object) : bool :=
  match o with Git.Blob _ => true | _ => false end.

(** A path the checks of the [walkTree] callback let through, with the
    default patterns. *)
Definition eligible (P : string) : bool :=
  negb (String.eqb P "")
  && negb (Codebase.ignoredByPatterns Spec.defaults P)
  && negb (Codebase.mentionsTests P).

(** The same set of paths, written out: the texts that must not occur in
    the path are the default patterns without their dollar sign and the four
    names of the second check; the extensions are those of the whitelist. *)
Definition rejectedTexts : list string :=
  ["ui"; "node_modules/"; ".git"; "dist/"; "build/"; "coverage/"; ".log"; ".env";
   ".lock"; ".md"; ".min.js"; "package-lock.json"; ".vscode"; ".editorconfig";
   ".gitignore"; "license"; "LICENSE"; "tsconfig.json"; ".dockerignore";
   "tailwind.config.ts"; "examples"; "example"; "tests"; "test"].

Definition supported : list string :=
  [".js"; ".json"; ".ts"; ".jsx"; ".tsx"; ".py"; ".java"; ".cpp"; ".rb"; ".php";
   ".go"; ".rs"; ".swift"; ".cs"].

Definition passes (P : string) : bool :=
  negb (String.eqb P "")
  && forallb (fun text => negb (includes text P)) rejectedTexts
  && existsb (String.eqb (Path.extname P)) supported.

Definition isReadable (o : Git.Object) : bool :=
  match o with Git.Blob (Ok _) => true | _ => false end.

(** The blobs among [l] whose path passes, and those of them that can be
    read. *)
Definition passing (l : list (string * Git.Object)) : list (string * Git.Object) :=
  List.filter (fun e => isBlob (snd e) && passes (fst e)) l.

Definition storable (l : list (string * Git.Object)) : list (string * Git.Object) :=
  List.filter (fun e => isReadable (snd e) && passes (fst e)) l.

(** The paths of the blobs of a tree that pass. *)
Definition candidatesOf (l : list (string * Git.Object)) : list string :=
  List.map fst (passing l).

Definition candidates (root : Git.Object) : list string :=
  candidatesOf (Git.entries "." root).

(** No blob whose path passes is unreadable. *)
Definition readable (root : Git.Object) : Prop :=
  forall q e, In (q, Git.Blob (Throw e)) (Git.entries "." root) -> passes q = false.

(** *** Calls that wait *)

(** The entries a waiting call of [walk] stands for: its own and those
    below it. *)
Definition subtree (t : Git.Task) : list (string * Git.Object) :=
  Git.entries (Git.taskPath t) (Git.taskEntry t).

Definition pending (pool : list Git.Task) : list (string * Git.Object) :=
  flat_map subtree pool.

(** A bound on the stretches the calls that wait, and the calls they will
    make, still run, for a callback with [awaits] awaits. *)
Definition taskWeight (awaits : nat) (t : Git.Task) : nat :=
  (S awaits - Git.awaited t) + S awaits * List.length (tl (subtree t)).

Definition weight (awaits : nat) (pool : list Git.Task) : nat :=
  list_sum (List.map (taskWeight awaits) pool).

(** What is known of a call of the [walkTree] callback that has come back
    from an await: its path went through the checks. *)
Definition checked (ignorePatterns : Codebase.IgnorePatterns) (currentPath : string)
    (t : Git.Task) : Prop :=
  1 <= Git.awaited t ->
  let fullPath :=
    if String.eqb currentPath "" then Git.taskPath t
    else Path.join currentPath (Git.taskPath t) in
  String.eqb (Git.taskPath t) "" = false
  /\ (forall st, Codebase.skipped ignorePatterns fullPath st = None)
  /\ Codebase.mentionsTests fullPath = false.

(** The same of a call of the [getRepositoryStructure] callback: its path
    is not empty. *)
Definition listed (t : Git.Task) : Prop :=
  1 <= Git.awaited t -> String.eqb (Git.taskPath t) "" = false.

(** The size of the map cannot turn away a blob that passes: the readable
    blobs that pass are at most ten, or at most eleven with no unreadable
    one beside them. *)
Definition room (root : Git.Object) : Prop :=
  List.length (storable (Git.entries "." root)) <= 10
  \/ (List.length (storable (Git.entries "." root)) <= 11 /\ readable root).

(** *** What holds between two stretches *)

(** The calls that wait stand for entries with [Q], and each of them has
    [T]. *)
Definition covered (Q : string -> Git.Object -> Prop) (T : Git.Task -> Prop)
    (pool : list Git.Task) : Prop :=
  (forall e, In e (pending pool) -> Q (fst e) (snd e)) /\ Forall T pool.

(** During the walk of [walkTree] over [root]: the entries are those the
    callback has returned for ([done]) and those of the calls that wait;
    and, when there is room, the map holds the readable blobs that pass
    among the former, none of which was unreadable. *)
Definition extracting (root : Git.Object) (pool : list Git.Task)
    (st : Codebase.WalkState) : Prop :=
  exists done,
    Permutation (done ++ pending pool) (Git.entries "." root)
    /\ Forall (checked Spec.patterns "") pool
    /\ (room root ->
        size (Codebase.fileContents st) <= List.length (storable done)
        /\ (forall P, is_Some (Codebase.fileContents st !! P)
                      <-> In P (List.map fst (storable done)))
        /\ (forall q e, In (q, Git.Blob (Throw e)) done -> passes q = false)).

(** During the walk of [getRepositoryStructure] over [root]: the text is
    the lines of the entries the callback has returned for, in the order
    in which it did. *)
Definition listingSoFar (root : Git.Object) (pool : list Git.Task)
    (structure : string) : Prop :=
  exists done,
    structure = Spec.listing (List.filter Spec.named done)
    /\ Permutation (done ++ pending pool) (Git.entries "." root)
    /\ Forall listed pool.

(** *** Lines of the pattern text *)

(** A line that holds only white space, or whose first character that is
    not white space is the number sign. *)
Fixpoint blankOrComment (line : string) : bool :=
  match line with
  | "" => true
  | String c rest => if isWhiteSpace c then blankOrComment rest else Ascii.eqb c "#"
  end.

(** The first character of [s], if any, is not white space. *)
Definition startsTight (s : string) : bool :=
  match s with
  | "" => true
  | String c _ => negb (isWhiteSpace c)
  end.

(** The last character of [s], if any, is not white space. *)
Fixpoint endsTight (s : string) : bool :=
  match s with
  | "" => true
  | String c "" => negb (isWhiteSpace c)
  | String _ r => endsTight r
  end.

(** *** Syntax trees and summaries *)

Import Parser.

(** The number of nodes of a syntax tree: the node, the nodes its shape
    holds and the children. *)
Fixpoint nodeSize (n : Node) : nat :=
  match n with
  | mkNode _ s c => S (shapeSize s + list_sum (List.map nodeSize c))
  end

with shapeSize (s : Shape) : nat :=
  match s with
  | FunctionLike _ _ _ _ (Some b) => nodeSize b
  | Constructor _ (Some b) => nodeSize b
  | ClassDeclaration _ _ members => list_sum (List.map nodeSize members)
  | PropertyDeclaration _ _ (Some i) => nodeSize i
  | InterfaceDeclaration _ members => list_sum (List.map nodeSize members)
  | VariableStatement d => nodeSize d
  | VariableDeclaration _ _ (Some i) => nodeSize i
  | IfStatement e t (Some f) => nodeSize e + nodeSize t + nodeSize f
  | IfStatement e t None => nodeSize e + nodeSize t
  | ReturnStatement (Some e) => nodeSize e
  | CallExpression e args => nodeSize e + list_sum (List.map nodeSize args)
  | ExpressionStatement e => nodeSize e
  | _ => 0
  end.

(** The nodes of a syntax tree: the node itself, the nodes its shape holds
    and its children, all the way down. *)
Fixpoint within (n : Node) : list Node :=
  match n with
  | mkNode _ s c => (n :: withinShape s ++ flat_map within c)%list
  end

with withinShape (s : Shape) : list Node :=
  match s with
  | FunctionLike _ _ _ _ (Some b) => within b
  | Constructor _ (Some b) => within b
  | ClassDeclaration _ _ members => flat_map within members
  | PropertyDeclaration _ _ (Some i) => within i
  | InterfaceDeclaration _ members => flat_map within members
  | VariableStatement d => within d
  | VariableDeclaration _ _ (Some i) => within i
  | IfStatement e t (Some f) => (within e ++ within t ++ within f)%list
  | IfStatement e t None => (within e ++ within t)%list
  | ReturnStatement (Some e) => within e
  | CallExpression e args => (within e ++ flat_map within args)%list
  | ExpressionStatement e => within e
  | _ => []
  end.

(** The nodes [processNode] returns [null] for at once. *)
Definition skippedNode (s : Shape) : bool :=
  isToken s || String.eqb (kindName s) "MissingDeclaration"
  || String.eqb (kindName s) "CommaListExpression".

(** The kinds for which [processNode] calls itself on every child: the
    source file and the kinds of the default case. *)
Definition recursesIntoChildren (s : Shape) : bool :=
  match s with
  | SourceFile _ | VariableDeclaration _ _ _ | IfStatement _ _ _ | ReturnStatement _
  | CallExpression _ _ | ExpressionStatement _ | Other _ => true
  | _ => false
  end.

(** [visits n f]: in the call of [processNode] on [n], [processNode] is
    called on [f], and what it returns is kept.  From a node it goes to the
    children (source file and default case), to the members (class and
    interface), and to the arrow function a declared variable is
    initialised with; it does not go into the other nodes. *)
Inductive visits : Node -> Node -> Prop :=
| visits_self (f : Node) : visits f f
| visits_child (info : NodeInfo) (shape : Shape) (children : list Node) (c f : Node) :
    skippedNode shape = false -> recursesIntoChildren shape = true ->
    In c children -> visits c f -> visits (mkNode info shape children) f
| visits_class_member (info : NodeInfo) (name : option string)
    (clauses : option (list HeritageClause)) (members children : list Node) (c f : Node) :
    In c members -> visits c f ->
    visits (mkNode info (ClassDeclaration name clauses members) children) f
| visits_interface_member (info : NodeInfo) (name : string)
    (members children : list Node) (c f : Node) :
    In c members -> visits c f ->
    visits (mkNode info (InterfaceDeclaration name members) children) f
| visits_arrow (info listInfo declInfo : NodeInfo) (listShape : Shape)
    (declarations declChildren children : list Node) (name : string)
    (ty : option string) (init f : Node) :
    In (mkNode declInfo (VariableDeclaration name ty (Some init)) declChildren)
       declarations ->
    isArrowFunction init = true -> visits init f ->
    visits (mkNode info (VariableStatement (mkNode listInfo listShape declarations))
              children) f.

(** The nodes of a summary: the node itself and the nodes of its logic
    flow and of its children, all the way down. *)
Fixpoint everywhere (n : LlmAstNode) : list LlmAstNode :=
  match n with
  | Llm _ lf ch =>
      (n :: match lf with Some l => flat_map everywhere l | None => [] end
         ++ match ch with Some l => flat_map everywhere l | None => [] end)%list
  end.

(** The types of the summaries of functions. *)
Definition functionTypes : list string :=
  ["Function"; "Method"; "ArrowFunction"; "Constructor"].

(** The types of the nodes that only hold other nodes. *)
Definition isContainer (ty : string) : bool :=
  String.eqb ty "Block" || String.eqb ty "ThenBlock" || String.eqb ty "ElseBlock"
  || startsWith "GenericContainer (" ty || startsWith "NestedLogic (" ty.

Definition hasChild (n : LlmAstNode) : bool :=
  match childrenOf n with
  | Some (_ :: _) => true
  | _ => false
  end.

(** What holds of every node of a summary: a logic flow only on the
    summary of a function, which then has no children; a type other than
    the two placeholders; a child in every container. *)
Definition wellShaped (n : LlmAstNode) : bool :=
  match logicFlowOf n with
  | Some _ =>
      existsb (String.eqb (Spec.typeOf n)) functionTypes
      && match childrenOf n with None => true | Some _ => false end
  | None => true
  end
  && negb (String.eqb (Spec.typeOf n) "Unknown")
  && negb (String.eqb (Spec.typeOf n) "UnknownLogic")
  && (if isContainer (Spec.typeOf n) then hasChild n else true).

Definition shapedThroughout (r : LlmAstNode) : Prop :=
  Forall (fun m => wellShaped m = true) (everywhere r).

(** The types named by the heritage clauses with the token [tok], in
    source order. *)
Definition heritageTypes (tok : HeritageToken) (clauses : list HeritageClause)
  : list string :=
  flat_map (fun clause =>
              match token clause, tok with
              | ExtendsKeyword, ExtendsKeyword => types clause
              | ImplementsKeyword, ImplementsKeyword => types clause
              | _, _ => []
              end) clauses.

(** *** Tallies and anchors *)

(** The items of a listing that are files with the extension [ext]. *)
Definition filesOfType (ext : string) (items : list Routes.ContentItem)
  : list Routes.ContentItem :=
  List.filter (fun item => String.eqb (Routes.itemType item) "file"
                           && String.eqb (Routes.extensionOf (Routes.itemName item)) ext)
              items.

Definition files (items : list Routes.ContentItem) : list Routes.ContentItem :=
  List.filter (fun item => String.eqb (Routes.itemType item) "file") items.

(** The sum of the counts of a tally. *)
Definition countSum (m : gmap string nat) : nat :=
  map_fold (fun _ n acc => (n + acc)%nat) 0%nat m.

(** A count as the map holds it: no entry for zero. *)
Definition entryOf (n : nat) : option nat :=
  match n with
  | O => None
  | S _ => Some n
  end.

(** The characters of an anchor: digits, the letters a to z, the hyphen. *)
Definition isAnchorChar (c : ascii) : bool :=
  let n := nat_of_ascii c in
  ((48 <=? n)%nat && (n <=? 57)%nat) || ((97 <=? n)%nat && (n <=? 122)%nat)
  || (n =? 45)%nat.

Fixpoint allChars (f : ascii -> bool) (s : string) : bool :=
  match s with
  | "" => true
  | String c r => f c && allChars f r
  end.

End Terms.

(** ** Further sample inputs *)

Module Samples.
Import Js.

(** A source file whose path merely contains [.md]. *)
Definition loaderRepo : Git.Object :=
  Git.Tree [ ("src", Git.Tree [ Examples.file ".mdx-loader.ts" "export {}" ]) ].

(** Patterns that are all blank or comments. *)
Definition commentsOnly : string := "# nothing to ignore" ++ nl ++ "   " ++ nl.

(** The order in which, of files side by side, every call has read the
    size of the map before the content of any of them has arrived: the call
    on the root first, then each of twelve calls up to its first await, each
    up to its second, and then each to its end. *)
Definition guardsFirst : Git.Schedule := (0 :: seq 0 12 ++ seq 0 12)%list.

(** The order in which the entries of the root of [Examples.smallRepo]
    all get their line before any entry of its directories does: the call
    on the root runs to its end, each of the five calls on its entries
    runs up to its await, and then each of them runs to its end. *)
Definition levelByLevel : Git.Schedule := [0; 0; 0; 1; 2; 3; 4; 0; 0; 1; 2; 5].

(** A call in which everything outside goes well, with the orders in which
    the calls of the two walks go on. *)
Definition envWith (extraction listing : Git.Schedule) (root : Git.Object)
  : Codebase.Env :=
  Codebase.mkEnv (Ok Examples.tmp) [] (Ok tt) (Ok ["a.ts"]) (Ok root) (Ok tt)
    extraction listing.

(** Twelve source files side by side. *)
Definition twelveFiles : Git.Object :=
  Git.Tree [ Examples.file "a.ts" "1"; Examples.file "b.ts" "2"; Examples.file "c.ts" "3";
             Examples.file "d.ts" "4"; Examples.file "e.ts" "5"; Examples.file "f.ts" "6";
             Examples.file "g.ts" "7"; Examples.file "h.ts" "8"; Examples.file "i.ts" "9";
             Examples.file "j.ts" "10"; Examples.file "k.ts" "11";
             Examples.file "l.ts" "12" ].

(** *** Syntax trees *)

Import Parser.

(** [class A { pick = (x) => { if (x) { return 1; } else { return 2; } } }]:
    the function is the initializer of a class property. *)
Definition pickArrow : Node :=
  mkNode (mkInfo "(x) => { if (x) { return 1; } else { return 2; } }" [] (Some []))
    (FunctionLike ArrowFunction None [mkParameter "x" None false] None
       (Some (Examples.blockOf "{ if (x) { return 1; } else { return 2; } }"
                [Examples.ifElse])))
    [].

Definition propertyFile : Node :=
  let property :=
    mkNode (mkInfo "pick = (x) => { if (x) { return 1; } else { return 2; } }" []
              (Some []))
      (PropertyDeclaration "pick" None (Some pickArrow))
      [Examples.identifier "pick"; pickArrow] in
  mkNode (Examples.plainInfo
            "class A { pick = (x) => { if (x) { return 1; } else { return 2; } } }")
    (SourceFile "a.ts")
    [ mkNode (mkInfo "class A { pick = (x) => { if (x) { return 1; } else { return 2; } } }"
                [] (Some []))
        (ClassDeclaration (Some "A") None [property])
        [Examples.identifier "A"; property];
      mkNode (Examples.plainInfo "") (Token "EndOfFileToken") [] ].

(** The summary of [Examples.pick]. *)
Definition pickSummary : LlmAstNode :=
  Llm (mkFields "Function" (Some "pick") None (Some [])
         (Some (mkSignature [mkSigParameter "x" "any" false] "any"))
         None None None None None None None None)
      (Some [Spec.ifElseSummary "x" "1" "2"]) None.

(** The declaration list [let i = 0] in the head of a [for] loop. *)
Definition loopVariables : Node :=
  mkNode (Examples.plainInfo "let i = 0") (Other "VariableDeclarationList")
    [ mkNode (Examples.plainInfo "i = 0")
        (VariableDeclaration "i" None (Some (Examples.number "0")))
        [Examples.identifier "i"; Examples.number "0"] ].

(** [export const twice = async (n: number) => { return n; }] *)
Definition twiceArrow : Node :=
  mkNode (mkInfo "async (n: number) => { return n; }" [] (Some ["AsyncKeyword"]))
    (FunctionLike ArrowFunction None [mkParameter "n" (Some "number") false] None
       (Some (Examples.blockOf "{ return n; }"
                [Examples.returning (Examples.identifier "n")])))
    [].

Definition twiceList : Node :=
  mkNode (Examples.plainInfo "const twice = async (n: number) => { return n; }")
    (Other "VariableDeclarationList")
    [ mkNode (Examples.plainInfo "twice = async (n: number) => { return n; }")
        (VariableDeclaration "twice" None (Some twiceArrow)) [] ].

Definition twiceStatement : Node :=
  mkNode (mkInfo "export const twice = async (n: number) => { return n; }" []
            (Some ["ExportKeyword"]))
    (VariableStatement twiceList) [twiceList].

End Samples.

(** * Properties *)

(** ** Strings *)

Module StringFacts.
Import Js.

Example split_ex : split "/" "a/b//c" = ["a"; "b"; ""; "c"]. Proof. reflexivity. Qed.
Example trim_ex : trim "  a b  " = "a b". Proof. reflexivity. Qed.
Example replace_ex : replace "$" "" ".log$" = ".log". Proof. reflexivity. Qed.
Example includes_ex : includes "ui" "build/quick.ts" = true. Proof. reflexivity. Qed.

Lemma app_nil_l (s : string) : "" ++ s = s.
Proof. reflexivity. Qed.

Lemma app_cons (c : ascii) (a b : string) : String c a ++ b = String c (a ++ b).
Proof. reflexivity. Qed.

Lemma app_nil_r (s : string) : s ++ "" = s.
Proof. induction s as [|c s IH]; [reflexivity|]. now rewrite app_cons, IH. Qed.

Lemma app_assoc (a b c : string) : (a ++ b) ++ c = a ++ b ++ c.
Proof. induction a as [|x a IH]; [reflexivity|]. now rewrite !app_cons, IH. Qed.

Lemma prefix_app (p b : string) : String.prefix p (p ++ b) = true.
Proof.
  induction p as [|c p IH].
  - now destruct b.
  - rewrite app_cons. simpl. destruct (ascii_dec c c) as [_|ne]; [exact IH | now destruct ne].
Qed.

Lemma prefix_split (p s : string) :
  String.prefix p s = true -> exists b, s = p ++ b.
Proof.
  revert s; induction p as [|c p IH]; intros s H.
  - now exists s.
  - destruct s as [|d s]; simpl in H; [discriminate|].
    destruct (ascii_dec c d) as [->|]; [|discriminate].
    destruct (IH s H) as [b ->]. now exists b.
Qed.

Lemma includes_prefix (p s : string) :
  String.prefix p s = true -> includes p s = true.
Proof. intros H. destruct s; cbn [includes]; rewrite H; reflexivity. Qed.

Lemma includes_cons (p : string) (c : ascii) (s : string) :
  includes p s = true -> includes p (String c s) = true.
Proof. intros H. cbn [includes]. rewrite H. apply orb_true_r. Qed.

Lemma includes_app_l (p a s : string) :
  includes p s = true -> includes p (a ++ s) = true.
Proof.
  intros H. induction a as [|c a IH]; [exact H|].
  rewrite app_cons. now apply includes_cons.
Qed.

(** [s.includes(p)] holds exactly when [p] occurs somewhere in [s]. *)
Lemma includes_intro (p a b : string) : includes p (a ++ p ++ b) = true.
Proof. apply includes_app_l, includes_prefix, prefix_app. Qed.

Lemma includes_elim (p s : string) :
  includes p s = true -> exists a b, s = a ++ p ++ b.
Proof.
  induction s as [|c s IH]; cbn [includes]; intros H.
  - rewrite orb_false_r in H. destruct (prefix_split _ _ H) as [b ->].
    now exists "", b.
  - apply orb_true_iff in H as [H|H].
    + destruct (prefix_split _ _ H) as [b ->]. now exists "", b.
    + destruct (IH H) as (a & b & ->). now exists (String c a), b.
Qed.

Lemma includes_trans (p q s : string) :
  includes p q = true -> includes q s = true -> includes p s = true.
Proof.
  intros Hp Hq.
  destruct (includes_elim _ _ Hp) as (a & b & ->).
  destruct (includes_elim _ _ Hq) as (a' & b' & ->).
  rewrite !app_assoc, <- (app_assoc a' a). apply includes_intro.
Qed.

(** *** Segments of a path *)

Lemma split_nonempty (sep : ascii) (s : string) : split sep s <> [].
Proof.
  destruct s as [|c s]; simpl; [discriminate|].
  destruct (Ascii.eqb c sep); [discriminate|].
  destruct (split sep s); discriminate.
Qed.

(** The first segment is followed by a slash or ends the path. *)
Lemma split_head (r x : string) (xs : list string) :
  split "/" r = x :: xs ->
  (xs = [] /\ r = x) \/ (exists post, r = x ++ "/" ++ post).
Proof.
  revert x xs; induction r as [|c r IH]; simpl; intros x xs H.
  - injection H as <- <-. now left.
  - destruct (Ascii.eqb_spec c "/") as [->|ne].
    + injection H as <- <-. right. now exists r.
    + destruct (split "/" r) as [|y ys] eqn:E; [now destruct (split_nonempty "/" r)|].
      injection H as <- <-.
      destruct (IH y ys eq_refl) as [[-> ->]|[post ->]].
      * now left.
      * right. now exists post.
Qed.

(** A later segment is preceded by a slash, and followed by one or ends
    the path. *)
Lemma split_tail (r s : string) :
  In s (tl (split "/" r)) ->
  (exists pre, r = pre ++ "/" ++ s) \/ (exists pre post, r = pre ++ "/" ++ s ++ "/" ++ post).
Proof.
  induction r as [|c r IH]; simpl; intros H; [contradiction|].
  destruct (Ascii.eqb_spec c "/") as [->|ne].
  - simpl in H.
    destruct (split "/" r) as [|y ys] eqn:E; [now destruct (split_nonempty "/" r)|].
    destruct H as [<-|H].
    + destruct (split_head _ _ _ E) as [[_ ->]|[post ->]].
      * left. now exists "".
      * right. now exists "", post.
    + destruct IH as [[pre ->]|(pre & post & ->)]; [exact H| |].
      * left. now exists (String "/" pre).
      * right. now exists (String "/" pre), post.
  - destruct (split "/" r) as [|y ys] eqn:E; [now destruct (split_nonempty "/" r)|].
    simpl in H.
    destruct IH as [[pre ->]|(pre & post & ->)]; [exact H| |].
    + left. now exists (String c pre).
    + right. now exists (String c pre), post.
Qed.

(** A segment is followed by a slash, or it is the last one. *)
Lemma segment_cases (s P : string) :
  Spec.hasSegment s P ->
  includes (s ++ "/") P = true \/
  P = s \/ (exists pre, P = pre ++ "/" ++ s).
Proof.
  unfold Spec.hasSegment. intros H.
  destruct (split "/" P) as [|x xs] eqn:E; [contradiction|].
  destruct H as [<-|H].
  - destruct (split_head _ _ _ E) as [[_ ->]|[post ->]].
    + right. now left.
    + left. rewrite <- app_assoc. apply includes_prefix, prefix_app.
  - destruct (split_tail P s) as [[pre ->]|(pre & post & ->)].
    + rewrite E. exact H.
    + right. right. now exists pre.
    + left. replace (pre ++ "/" ++ s ++ "/" ++ post)
        with ((pre ++ "/") ++ (s ++ "/") ++ post)
        by (now rewrite !app_assoc).
      apply includes_intro.
Qed.

Lemma segment_includes (s P : string) :
  Spec.hasSegment s P -> includes s P = true.
Proof.
  intros H. destruct (segment_cases _ _ H) as [H1|[->|[pre ->]]].
  - eapply includes_trans; [|exact H1].
    exact (includes_intro s "" "/").
  - apply includes_prefix. rewrite <- (app_nil_r s) at 2. apply prefix_app.
  - replace (pre ++ "/" ++ s) with ((pre ++ "/") ++ s ++ "") by
      (now rewrite app_assoc, app_nil_r).
    apply includes_intro.
Qed.

End StringFacts.

(** ** Paths *)

Module PathFacts.
Import Js Path StringFacts.

Example extname_ts : extname "src/lib/a.ts" = ".ts". Proof. reflexivity. Qed.
Example extname_two : extname "index.coffee.md" = ".md". Proof. reflexivity. Qed.
Example extname_dotfile : extname ".gitignore" = "". Proof. reflexivity. Qed.
Example extname_none : extname "a.b/dist" = "". Proof. reflexivity. Qed.
Example extname_dot : extname "." = "". Proof. reflexivity. Qed.
Example extname_dotdot : extname "a/.." = "". Proof. reflexivity. Qed.
Example extname_trail : extname "index." = ".". Proof. reflexivity. Qed.

Lemma list_ascii_app (a b : string) :
  list_ascii_of_string (a ++ b) = (list_ascii_of_string a ++ list_ascii_of_string b)%list.
Proof.
  induction a as [|c a IH]; [reflexivity|].
  rewrite app_cons. simpl. now rewrite IH.
Qed.

(** While the scan has seen no dot and is inside the last segment, plain
    characters keep it so, and a slash or the start of the path ends it. *)
Lemma extScan_plain (l rest : list ascii) (i : Z) (st : ExtState) :
  forallb Path.plain l = true ->
  startDot st = (-1)%Z -> matchedSlash st = false ->
  rest = [] \/ (exists r, rest = "/"%char :: r) ->
  startDot (extScan (l ++ rest) i st) = (-1)%Z.
Proof.
  revert i st; induction l as [|c l IH]; intros i st Hl Hdot Hslash Hrest.
  - destruct Hrest as [->|[r ->]]; simpl; [exact Hdot|].
    now rewrite Hslash.
  - simpl in Hl. apply andb_true_iff in Hl as [Hc Hl].
    unfold Path.plain in Hc. apply andb_true_iff in Hc as [Hc1 Hc2].
    apply negb_true_iff in Hc1, Hc2.
    simpl. rewrite Hc1, Hc2.
    apply IH; try assumption;
      destruct (endPos st =? -1)%Z; simpl; rewrite ?Hdot; simpl; rewrite ?Hdot; auto.
Qed.

(** A path whose last segment has no dot has no extension. *)
Lemma extname_plain_segment (pre s : string) :
  s <> "" ->
  forallb Path.plain (list_ascii_of_string s) = true ->
  pre = "" \/ (exists pre', pre = pre' ++ "/") ->
  extname (pre ++ s) = "".
Proof.
  intros Hs Hplain Hpre. unfold extname.
  set (i := (Z.of_nat (String.length (pre ++ s)) - 1)%Z). clearbody i.
  rewrite list_ascii_app, rev_app_distr.
  assert (Hrest : rev (list_ascii_of_string pre) = [] \/
                  exists r, rev (list_ascii_of_string pre) = "/"%char :: r).
  { destruct Hpre as [->|[pre' ->]]; [now left|right].
    rewrite list_ascii_app, rev_app_distr. simpl. eauto. }
  assert (Hrev : forallb Path.plain (rev (list_ascii_of_string s)) = true).
  { rewrite forallb_forall in *. intros c Hc. apply Hplain, in_rev, Hc. }
  destruct (rev (list_ascii_of_string s)) as [|c l] eqn:E.
  { destruct s; [now destruct Hs|]. simpl in E.
    now destruct (rev (list_ascii_of_string s)). }
  simpl in Hrev. apply andb_true_iff in Hrev as [Hc Hl].
  unfold Path.plain in Hc. apply andb_true_iff in Hc as [Hc1 Hc2].
  apply negb_true_iff in Hc1, Hc2.
  assert (H : startDot (extScan ((c :: l) ++ rev (list_ascii_of_string pre)) i extInit)
              = (-1)%Z).
  { simpl. rewrite Hc1, Hc2. simpl. now apply extScan_plain. }
  rewrite H. reflexivity.
Qed.

Example extname_plain_example : extname ("src/" ++ "dist") = "".
Proof. apply extname_plain_segment; [discriminate | reflexivity | right; now exists "src"]. Qed.

End PathFacts.

(** ** The walk *)

Module WalkFacts.
Import Js Git.

Lemma entries_eq (p : string) (o : Object) :
  entries p o = (p, o) :: match o with
                          | Tree l => entriesBelow p l
                          | _ => []
                          end.
Proof.
  destruct o as [c|l| |]; simpl; try reflexivity.
  f_equal. induction l as [|[n child] l IH]; simpl; [reflexivity|]. now rewrite IH.
Qed.

(** The entries of a call are its own and those of the calls on its
    children. *)
Lemma subtree_children (t : Task) :
  Terms.subtree t = (taskPath t, taskEntry t) :: Terms.pending (children t).
Proof.
  unfold Terms.subtree, Terms.pending, children. rewrite entries_eq.
  destruct (taskEntry t) as [c|l| |]; try reflexivity. f_equal.
  generalize (taskPath t). intros p.
  induction l as [|[n child] l IH]; simpl; [reflexivity|]. now rewrite IH.
Qed.

Lemma subtree_continued (t : Task) (n : nat) :
  Terms.subtree (mkTask (taskPath t) (taskEntry t) n) = Terms.subtree t.
Proof. reflexivity. Qed.

(** *** The pool *)

Lemma chosen_in {A : Type} (pool : list A) (i : nat) (t : A) :
  nth_error pool i = Some t -> In t pool.
Proof. apply nth_error_In. Qed.

Lemma nothing_waits {A : Type} (pool : list A) (n : nat) :
  nth_error pool (n mod List.length pool) = None -> pool = [].
Proof.
  destruct pool as [|t pool]; [reflexivity|]. intros H.
  apply nth_error_None in H.
  pose proof (Nat.mod_upper_bound n (List.length (t :: pool))) as Hlt.
  simpl in *. lia.
Qed.

Lemma pool_split {A : Type} (pool : list A) (i : nat) (t : A) :
  nth_error pool i = Some t ->
  pool = (firstn i pool ++ t :: skipn (S i) pool)%list.
Proof.
  revert i. induction pool as [|x pool IH]; intros [|i] H; simpl in *; try discriminate.
  - now injection H as ->.
  - f_equal. now apply IH.
Qed.

Lemma splice_perm {A : Type} (pool new : list A) (i : nat) (t : A) :
  nth_error pool i = Some t ->
  Permutation (t :: splice i [] pool) pool
  /\ Permutation (splice i new pool) (new ++ splice i [] pool).
Proof.
  intros H. unfold splice. rewrite (pool_split pool i t H) at 3. cbn [List.app]. split.
  - apply Permutation_middle.
  - rewrite !List.app_assoc. apply Permutation_app_tail, Permutation_app_comm.
Qed.

Section Generic.
Context {State : Type} (map : string -> Object -> nat -> State -> Next * State).

Lemma resume_state (t : Task) (s : State) :
  snd (resume map t s) = snd (map (taskPath t) (taskEntry t) (awaited t) s).
Proof.
  unfold resume. destruct (map _ _ _ s) as [[|[v|e]] s1]; reflexivity.
Qed.

(** What a stretch leaves waiting stands for entries of the call that
    ran it. *)
Lemma resume_within (t : Task) (s : State) (new : list Task) :
  fst (resume map t s) = Ok new ->
  forall e, In e (Terms.pending new) -> In e (Terms.subtree t).
Proof.
  unfold resume. destruct (map _ _ _ s) as [[|[v|err]] s1]; cbn [fst];
    intros [= <-] e He.
  - unfold Terms.pending in He. cbn [flat_map] in He. rewrite List.app_nil_r in He.
    exact He.
  - destruct (isNull v); [contradiction|]. rewrite subtree_children. now right.
Qed.

(** *** What waits after a stretch *)

Lemma pending_app (a b : list Task) :
  Terms.pending (a ++ b) = (Terms.pending a ++ Terms.pending b)%list.
Proof. apply flat_map_app. Qed.

(** A call that has come back from an await stands for the same entries
    as before. *)
Lemma pending_continued (pool : list Task) (i : nat) (t : Task) (n : nat) :
  nth_error pool i = Some t ->
  Terms.pending (splice i [mkTask (taskPath t) (taskEntry t) n] pool) = Terms.pending pool.
Proof.
  intros H. unfold splice. rewrite (pool_split pool i t H) at 3.
  rewrite !pending_app. f_equal. unfold Terms.pending. cbn [flat_map].
  now rewrite List.app_nil_r.
Qed.

(** When [map] has returned, the entry of the call is done with and its
    children wait. *)
Lemma pending_returned (pool : list Task) (i : nat) (t : Task) :
  nth_error pool i = Some t ->
  Permutation ((taskPath t, taskEntry t) :: Terms.pending (splice i (children t) pool))
              (Terms.pending pool).
Proof.
  intros H. unfold splice. rewrite (pool_split pool i t H) at 3.
  rewrite !pending_app.
  change (Terms.pending (t :: skipn (S i) pool))
    with (Terms.subtree t ++ Terms.pending (skipn (S i) pool))%list.
  rewrite subtree_children.
  change ((?x :: ?l) ++ ?r)%list with (x :: l ++ r)%list.
  apply Permutation_middle.
Qed.

Lemma pending_dropped (pool : list Task) (i : nat) (t : Task) :
  nth_error pool i = Some t ->
  forall e, In e (Terms.pending (splice i [] pool)) -> In e (Terms.pending pool).
Proof.
  intros H e He. unfold Terms.pending in *. apply in_flat_map in He as (u & Hu & He).
  apply in_flat_map. exists u. split; [|exact He].
  destruct (splice_perm pool [] i t H) as [Hp _].
  apply (Permutation_in _ Hp). now right.
Qed.

Lemma Forall_splice {A : Type} (P : A -> Prop) (pool new : list A) (i : nat) :
  Forall P pool -> Forall P new -> Forall P (splice i new pool).
Proof.
  intros Hpool Hnew. unfold splice. apply Forall_app. split; [now apply Forall_take|].
  apply Forall_app. split; [exact Hnew | now apply Forall_drop].
Qed.

Lemma filter_perm {A : Type} (f : A -> bool) (l l' : list A) :
  Permutation l l' -> Permutation (List.filter f l) (List.filter f l').
Proof.
  induction 1 as [|x l l' _ IH|x y l|l1 l2 l3 _ IH1 _ IH2]; cbn [List.filter].
  - constructor.
  - destruct (f x); [now constructor | exact IH].
  - destruct (f x), (f y); try reflexivity. constructor.
  - now transitivity (List.filter f l2).
Qed.

(** The entries done with and those that wait, after [map] has returned
    for the entry of a call. *)
Lemma ledger_returned (all done : list (string * Object)) (pool : list Task)
    (i : nat) (t : Task) :
  nth_error pool i = Some t ->
  Permutation (done ++ Terms.pending pool) all ->
  Permutation ((done ++ [(taskPath t, taskEntry t)])
               ++ Terms.pending (splice i (children t) pool)) all.
Proof.
  intros Hnth Hperm. rewrite <- Hperm, <- List.app_assoc. apply Permutation_app_head.
  cbn [List.app]. apply pending_returned, Hnth.
Qed.

Lemma children_of_leaf (t : Task) :
  (forall l, taskEntry t <> Tree l) -> children t = [].
Proof.
  unfold children. destruct (taskEntry t) as [c|l| |]; try reflexivity.
  intros H. now destruct (H l).
Qed.

(** *** A relation kept by every stretch

    A relation between the states before and after, kept by every stretch
    that a call on an entry of the tree can come to, is kept by the walk,
    in whatever order its calls go on, and whether it resolves or rejects.
    [Q] says which entries the tree has; [T] says what is known of a call
    from the awaits it has come back from. *)
Section Relation.
Variable R : State -> State -> Prop.
Variable Q : string -> Object -> Prop.
Variable T : Task -> Prop.
Hypothesis R_refl : forall s, R s s.
Hypothesis R_trans : forall s1 s2 s3, R s1 s2 -> R s2 s3 -> R s1 s3.
Hypothesis T_fresh : forall p o, T (mkTask p o 0).
Hypothesis T_next :
  forall t s s1, T t -> map (taskPath t) (taskEntry t) (awaited t) s = (Await, s1) ->
    T (mkTask (taskPath t) (taskEntry t) (S (awaited t))).
Hypothesis R_map :
  forall t s, Q (taskPath t) (taskEntry t) -> T t ->
    R s (snd (map (taskPath t) (taskEntry t) (awaited t) s)).

Lemma fresh_children (t : Task) : Forall T (children t).
Proof.
  unfold children. destruct (taskEntry t); try constructor.
  apply List.Forall_map, List.Forall_forall. intros e _. apply T_fresh.
Qed.

Lemma covered_step (pool : list Task) (i : nat) (t : Task) (s : State) :
  Terms.covered Q T pool -> nth_error pool i = Some t ->
  R s (snd (resume map t s))
  /\ Terms.covered Q T (splice i [] pool)
  /\ forall new, fst (resume map t s) = Ok new ->
                 Terms.covered Q T (splice i new pool).
Proof.
  intros [Hcov Hall] Hnth.
  assert (Hin : forall e, In e (Terms.subtree t) -> In e (Terms.pending pool)).
  { intros e He. unfold Terms.pending. apply in_flat_map. exists t.
    split; [now apply (nth_error_In pool i) | exact He]. }
  assert (Ht : T t).
  { apply (proj1 (List.Forall_forall _ _) Hall). now apply (nth_error_In pool i). }
  assert (Hsplice : forall new, Forall T new -> Forall T (splice i new pool))
    by (intros new Hnew; now apply Forall_splice).
  split; [|split].
  - rewrite resume_state. apply R_map; [|exact Ht].
    apply (Hcov (taskPath t, taskEntry t)), Hin.
    rewrite subtree_children. now left.
  - split; [|apply Hsplice; constructor].
    intros e He. now apply Hcov, (pending_dropped pool i t).
  - intros new Hnew. split.
    + intros e He. apply Hcov.
      destruct (splice_perm pool new i t Hnth) as [_ Hp].
      unfold Terms.pending in He. apply in_flat_map in He as (u & Hu & He).
      apply (Permutation_in _ Hp) in Hu. apply in_app_or in Hu as [Hu|Hu].
      * apply Hin. apply (resume_within t s new Hnew). unfold Terms.pending.
        apply in_flat_map. now exists u.
      * apply (pending_dropped pool i t Hnth). unfold Terms.pending.
        apply in_flat_map. now exists u.
    + apply Hsplice. revert Hnew. unfold resume.
      destruct (map _ _ _ s) as [[|[v|err]] s1] eqn:E; cbn [fst]; intros [= <-].
      * constructor; [now apply (T_next t s s1) | constructor].
      * destruct (isNull v); [constructor | apply fresh_children].
Qed.

Lemma settle_rel (sched : Schedule) :
  forall pool s, Terms.covered Q T pool -> R s (settle map sched pool s).
Proof.
  induction sched as [|n sched IH]; intros pool s Hcov; cbn [settle]; [apply R_refl|].
  destruct (nth_error pool (n mod List.length pool)) as [t|] eqn:Hnth; [|apply R_refl].
  destruct (covered_step pool _ t s Hcov Hnth) as (Hr & Hrest & Hnew).
  destruct (resume map t s) as [[new|e] s1]; cbn [fst snd] in *.
  - apply (R_trans _ s1); [exact Hr|]. apply IH. now apply Hnew.
  - apply (R_trans _ s1); [exact Hr|]. now apply IH.
Qed.

Lemma run_rel (fuel : nat) :
  forall sched pool s, Terms.covered Q T pool -> R s (snd (run map fuel sched pool s)).
Proof.
  induction fuel as [|fuel IH]; intros sched pool s Hcov; cbn [run]; [apply R_refl|].
  destruct (nth_error pool (hd 0 sched mod List.length pool)) as [t|] eqn:Hnth;
    [|apply R_refl].
  destruct (covered_step pool _ t s Hcov Hnth) as (Hr & Hrest & Hnew).
  destruct (resume map t s) as [[new|e] s1]; cbn [fst snd] in *.
  - apply (R_trans _ s1); [exact Hr|]. apply IH. now apply Hnew.
  - apply (R_trans _ s1); [exact Hr|]. now apply settle_rel.
Qed.

Lemma walk_rel (awaits : nat) (sched : Schedule) (root : Result Object) (s : State) :
  (forall o q x, root = Ok o -> In (q, x) (entries "." o) -> Q q x) ->
  R s (snd (walk map awaits sched root s)).
Proof.
  intros H. destruct root as [o|e]; cbn [walk snd]; [|apply R_refl].
  apply run_rel. split.
  - intros [q x] He. unfold Terms.pending in He. cbn [flat_map] in He.
    rewrite List.app_nil_r in He. now apply (H o).
  - constructor; [apply T_fresh | constructor].
Qed.
End Relation.

(** *** The fuel is enough *)

Lemma weight_app (awaits : nat) (a b : list Task) :
  Terms.weight awaits (a ++ b) = Terms.weight awaits a + Terms.weight awaits b.
Proof.
  unfold Terms.weight. now rewrite List.map_app, list_sum_app.
Qed.

Lemma weight_splice (awaits : nat) (pool new : list Task) (i : nat) (t : Task) :
  nth_error pool i = Some t ->
  Terms.weight awaits (splice i new pool) + Terms.taskWeight awaits t
  = Terms.weight awaits new + Terms.weight awaits pool.
Proof.
  intros H. pose proof (pool_split pool i t H) as Hp. unfold splice.
  remember (firstn i pool) as a. remember (skipn (S i) pool) as b.
  rewrite Hp, !weight_app.
  change (Terms.weight awaits (t :: b))
    with (Terms.taskWeight awaits t + Terms.weight awaits b).
  lia.
Qed.

Lemma subtree_nonempty (t : Task) :
  Terms.subtree t = (taskPath t, taskEntry t) :: tl (Terms.subtree t).
Proof. now rewrite subtree_children. Qed.

Lemma weight_fresh (awaits : nat) (l : list Task) :
  Forall (fun c => awaited c = 0) l ->
  Terms.weight awaits l = S awaits * List.length (Terms.pending l).
Proof.
  induction 1 as [|c l Hc _ IH]; [cbn; lia|].
  change (Terms.weight awaits (c :: l))
    with (Terms.taskWeight awaits c + Terms.weight awaits l).
  change (Terms.pending (c :: l)) with (Terms.subtree c ++ Terms.pending l)%list.
  rewrite IH, List.length_app. unfold Terms.taskWeight. rewrite Hc.
  rewrite (subtree_nonempty c) at 2. cbn [List.length tl]. lia.
Qed.

Lemma weight_children (awaits : nat) (t : Task) :
  Terms.weight awaits (children t) = S awaits * List.length (tl (Terms.subtree t)).
Proof.
  rewrite subtree_children. cbn [tl]. apply weight_fresh.
  unfold children. destruct (taskEntry t); try constructor.
  apply List.Forall_map, List.Forall_forall. reflexivity.
Qed.

(** *** An invariant of the calls that wait and the state

    When every stretch keeps an invariant of the pool and the state, or
    throws an error with [E], a run started with the invariant and with
    fuel for the weight of the pool ends with no call waiting and the
    invariant, or rejects with such an error. *)
Section Invariant.
Variable awaits : nat.
Hypothesis bounded : forall p o n s, awaits <= n -> fst (map p o n s) <> Await.
Variable Inv : list Task -> State -> Prop.
Variable E : Error -> Prop.
Hypothesis Inv_step :
  forall pool i t s, nth_error pool i = Some t -> Inv pool s ->
    match resume map t s with
    | (Ok new, s1) => Inv (splice i new pool) s1
    | (Throw e, _) => E e
    end.

Lemma resume_weight (t : Task) (s : State) (new : list Task) :
  awaited t <= awaits -> fst (resume map t s) = Ok new ->
  Terms.weight awaits new < Terms.taskWeight awaits t
  /\ Forall (fun c => awaited c <= awaits) new.
Proof.
  intros Ht. unfold resume.
  pose proof (bounded (taskPath t) (taskEntry t) (awaited t) s) as Hb.
  destruct (map _ _ _ s) as [[|[v|err]] s1]; cbn [fst] in *; intros [= <-].
  - assert (Hlt : awaited t < awaits).
    { destruct (Nat.lt_ge_cases (awaited t) awaits) as [H|H]; [exact H|].
      now destruct (Hb H). }
    split.
    + unfold Terms.weight. cbn [List.map]. unfold Terms.taskWeight, list_sum.
      cbn [awaited fold_right]. rewrite subtree_continued.
      generalize (S awaits * List.length (tl (Terms.subtree t))). lia.
    + constructor; [cbn; lia | constructor].
  - destruct (isNull v).
    + split; [|constructor]. unfold Terms.weight, Terms.taskWeight.
      cbn [List.map list_sum fold_right].
      generalize (S awaits * List.length (tl (Terms.subtree t))).
      unfold list_sum. cbn [fold_right]. lia.
    + split.
      * rewrite weight_children. unfold Terms.taskWeight.
        generalize (S awaits * List.length (tl (Terms.subtree t))). lia.
      * unfold children. destruct (taskEntry t); try constructor.
        apply List.Forall_map, List.Forall_forall. intros; cbn; lia.
Qed.

Lemma run_inv (fuel : nat) :
  forall sched pool s,
    Forall (fun t => awaited t <= awaits) pool ->
    Terms.weight awaits pool <= fuel -> Inv pool s ->
    match run map fuel sched pool s with
    | (Ok _, s') => Inv [] s'
    | (Throw e, _) => E e
    end.
Proof.
  induction fuel as [|fuel IH]; intros sched pool s Hst Hw Hinv; cbn [run].
  - destruct pool as [|t pool]; [exact Hinv|]. exfalso.
    apply List.Forall_cons_iff in Hst as [Ht _].
    change (Terms.weight awaits (t :: pool))
      with (Terms.taskWeight awaits t + Terms.weight awaits pool) in Hw.
    unfold Terms.taskWeight in Hw. lia.
  - destruct (nth_error pool (hd 0 sched mod List.length pool)) as [t|] eqn:Hnth.
    + pose proof (Inv_step pool _ t s Hnth Hinv) as Hstep.
      assert (Ht : awaited t <= awaits).
      { apply (proj1 (List.Forall_forall _ _) Hst). eapply nth_error_In, Hnth. }
      pose proof (resume_weight t s) as Hres.
      destruct (resume map t s) as [[new|e] s1]; [|exact Hstep].
      destruct (Hres new Ht eq_refl) as [Hlt Hnew].
      pose proof (weight_splice awaits pool new _ t Hnth) as Hsp.
      apply IH; [now apply Forall_splice | lia | exact Hstep].
    + apply nothing_waits in Hnth. now subst pool.
Qed.

Lemma walk_inv (sched : Schedule) (o : Object) (s : State) :
  Inv [mkTask "." o 0] s ->
  match walk map awaits sched (Ok o) s with
  | (Ok _, s') => Inv [] s'
  | (Throw e, _) => E e
  end.
Proof.
  intros Hinv. cbn [walk]. apply run_inv; [|now rewrite (weight_fresh awaits) by
    (constructor; [reflexivity | constructor]); unfold Terms.pending; cbn [flat_map];
    rewrite List.app_nil_r | exact Hinv].
  constructor; [cbn; lia | constructor].
Qed.
End Invariant.
End Generic.
End WalkFacts.

(** ** The filter and the walker *)

Module CodebaseFacts.
Import Js Codebase StringFacts PathFacts WalkFacts.

Lemma patterns_eq : Spec.patterns = Patterns Spec.defaults.
Proof. reflexivity. Qed.

Lemma ignored_by_member (l : list string) (pat P : string) :
  In pat l -> includes (replace "$" "" pat) P = true -> ignoredByPatterns l P = true.
Proof.
  induction l as [|x l IH]; simpl; [contradiction|].
  intros [->|Hin] H.
  - now rewrite H.
  - destruct (includes (replace "$" "" x) P || negb (isSupportedExtension P));
      [reflexivity | now apply IH].
Qed.

Lemma ignored_unsupported (l : list string) (P : string) :
  l <> [] -> isSupportedExtension P = false -> ignoredByPatterns l P = true.
Proof.
  destruct l as [|x l]; [congruence|]. intros _ H. simpl.
  rewrite H. now rewrite orb_true_r.
Qed.

Lemma no_extension_unsupported (P : string) :
  Path.extname P = "" -> isSupportedExtension P = false.
Proof. unfold isSupportedExtension. now intros ->. Qed.

(** *** The checks at the head of the callback *)

Lemma skipped_contents (ignorePatterns : IgnorePatterns) (fullPath : string)
    (st st' : WalkState) :
  skipped ignorePatterns fullPath st = Some st' -> fileContents st' = fileContents st.
Proof.
  unfold skipped. destruct ignorePatterns as [l|test].
  - destruct (ignoredByPatterns l fullPath); now intros [= <-].
  - destruct (test fullPath || negb (isSupportedExtension fullPath)); now intros [= <-].
Qed.

Lemma skipped_none (ignorePatterns : IgnorePatterns) (fullPath : string)
    (st st' : WalkState) :
  skipped ignorePatterns fullPath st = None -> skipped ignorePatterns fullPath st' = None.
Proof.
  unfold skipped. destruct ignorePatterns as [l|test].
  - now destruct (ignoredByPatterns l fullPath).
  - now destruct (test fullPath || negb (isSupportedExtension fullPath)).
Qed.

Lemma checked_fresh (ignorePatterns : IgnorePatterns) (cur p : string) (o : Git.Object) :
  Terms.checked ignorePatterns cur (Git.mkTask p o 0).
Proof. intros H. cbn in H. lia. Qed.

(** A call comes back from its first await only when its path went
    through the checks. *)
Lemma checked_next (ignorePatterns : IgnorePatterns) (cur : string) (t : Git.Task)
    (st st1 : WalkState) :
  Terms.checked ignorePatterns cur t ->
  walkTreeMap ignorePatterns cur (Git.taskPath t) (Git.taskEntry t) (Git.awaited t) st
  = (Git.Await, st1) ->
  Terms.checked ignorePatterns cur
    (Git.mkTask (Git.taskPath t) (Git.taskEntry t) (S (Git.awaited t))).
Proof.
  intros Ht Hmap _. cbn [Git.taskPath].
  destruct (Git.awaited t) as [|n] eqn:En; [|apply Ht; lia].
  unfold walkTreeMap in Hmap.
  destruct (String.eqb (Git.taskPath t) ""); [discriminate|].
  set (fullPath := if String.eqb cur "" then Git.taskPath t
                   else Path.join cur (Git.taskPath t)) in *.
  destruct (skipped ignorePatterns fullPath st) eqn:Hs; [discriminate|].
  destruct (mentionsTests fullPath); [discriminate|].
  repeat split. intros st'. now apply (skipped_none _ _ st).
Qed.

(** A stretch leaves the state as it is, or stores the blob of the call
    under its full path. *)
Lemma walkTreeMap_state (ignorePatterns : IgnorePatterns) (cur filepath : string)
    (entry : Git.Object) (n : nat) (st : WalkState) :
  let fullPath := if String.eqb cur "" then filepath else Path.join cur filepath in
  let st' := snd (walkTreeMap ignorePatterns cur filepath entry n st) in
  fileContents st' = fileContents st
  \/ (2 <= n /\ exists text,
        entry = Git.Blob (Ok text) /\
        fileContents st'
        = <[fullPath := mkFileContent fullPath
                          (addMarkdownPrefix filepath ++ text ++ addMarkdownSuffix filepath)]>
            (fileContents st)).
Proof.
  cbv zeta. unfold walkTreeMap.
  set (fullPath := if String.eqb cur "" then filepath else Path.join cur filepath).
  destruct n as [|[|n]].
  - left. destruct (String.eqb filepath ""); [reflexivity|].
    destruct (skipped ignorePatterns fullPath st) as [st'|] eqn:Hs;
      [exact (skipped_contents _ _ _ _ Hs)|].
    now destruct (mentionsTests fullPath).
  - left. destruct entry as [c|?| |]; try reflexivity.
    now destruct (size (fileContents st) <? 11)%nat.
  - destruct entry as [[text|e]|?| |]; try (now left).
    right. split; [lia|]. now exists text.
Qed.

(** The callback never touches the entry of a path its checks reject. *)
Lemma walkTreeMap_lookup (l : list string) (cur : string) (t : Git.Task)
    (st : WalkState) (P : string) :
  ignoredByPatterns l P = true \/ mentionsTests P = true ->
  Terms.checked (Patterns l) cur t ->
  fileContents (snd (walkTreeMap (Patterns l) cur (Git.taskPath t) (Git.taskEntry t)
                       (Git.awaited t) st)) !! P
  = fileContents st !! P.
Proof.
  intros Hbad Ht.
  destruct (walkTreeMap_state (Patterns l) cur (Git.taskPath t) (Git.taskEntry t)
              (Git.awaited t) st) as [->|(Hn & text & _ & ->)]; [reflexivity|].
  destruct (Ht ltac:(lia)) as (_ & Hs & Hm).
  apply lookup_insert_ne. intros E. rewrite E in Hs, Hm.
  specialize (Hs st). unfold skipped in Hs.
  destruct Hbad as [Hbad|Hbad]; [rewrite Hbad in Hs|]; congruence.
Qed.

Lemma walkTree_lookup (l : list string) (sched : Git.Schedule) (root : Result Git.Object)
    (st : WalkState) (cur P : string) :
  ignoredByPatterns l P = true \/ mentionsTests P = true ->
  fileContents (snd (walkTree sched root st (Patterns l) cur)) !! P = fileContents st !! P.
Proof.
  intros Hbad. unfold walkTree.
  apply (walk_rel (walkTreeMap (Patterns l) cur)
           (fun s s' => fileContents s' !! P = fileContents s !! P)
           (fun _ _ => Logic.True) (Terms.checked (Patterns l) cur)).
  - reflexivity.
  - intros s1 s2 s3 H1 H2. now rewrite H2.
  - apply checked_fresh.
  - apply checked_next.
  - intros t s _ Ht. now apply walkTreeMap_lookup.
  - trivial.
Qed.

(** A path with one of the nine names as a segment, or without a
    supported extension, fails the checks of the callback. *)
Lemma anywhere_rejected (s P : string) :
  In s Spec.excludedAnywhere -> includes s P = true ->
  ignoredByPatterns Spec.defaults P = true \/ mentionsTests P = true.
Proof.
  intros Hin H. simpl in Hin.
  destruct Hin as [<-|[<-|[<-|[<-|[<-|[<-|[]]]]]]].
  - left. now apply (ignored_by_member _ ".git"); [simpl; auto|].
  - left. apply (ignored_by_member _ "ui"); [simpl; auto|].
    now apply (includes_trans _ "build").
  - right. unfold mentionsTests. now rewrite H.
  - right. unfold mentionsTests. rewrite H. now rewrite orb_true_r.
  - right. unfold mentionsTests. rewrite H. now rewrite orb_true_r.
  - right. unfold mentionsTests. rewrite H. now rewrite orb_true_r.
Qed.

Lemma excluded_rejected (P : string) :
  (exists s, In s Spec.excludedSegments /\ Spec.hasSegment s P)
  \/ (exists s, In s Spec.excludedAnywhere /\ includes s P = true)
  \/ isSupportedExtension P = false ->
  ignoredByPatterns Spec.defaults P = true \/ mentionsTests P = true.
Proof.
  assert (Hslash : forall s, In (s ++ "/") Spec.defaults ->
            replace "$" "" (s ++ "/") = s ++ "/" ->
            s <> "" -> forallb Path.plain (list_ascii_of_string s) = true ->
            Spec.hasSegment s P -> ignoredByPatterns Spec.defaults P = true).
  { intros s Hin Hrep Hne Hplain Hseg.
    destruct (segment_cases _ _ Hseg) as [H|[->|[pre ->]]].
    - apply (ignored_by_member _ (s ++ "/")); [exact Hin|].
      now rewrite Hrep.
    - apply ignored_unsupported; [discriminate|].
      apply no_extension_unsupported.
      apply (extname_plain_segment "" s); auto.
    - apply ignored_unsupported; [discriminate|].
      apply no_extension_unsupported.
      rewrite <- app_assoc.
      apply extname_plain_segment; eauto. }
  intros [(s & Hin & Hseg)|[(s & Hin & Hinc)|Hext]].
  - simpl in Hin.
    destruct Hin as [<-|[<-|[<-|[<-|[<-|[<-|[<-|[<-|[<-|[]]]]]]]]]].
    + left. apply (Hslash "node_modules");
        [simpl; auto 10 | reflexivity | discriminate | reflexivity | exact Hseg].
    + apply (anywhere_rejected ".git"); [simpl; auto | now apply segment_includes].
    + left. apply (Hslash "dist");
        [simpl; auto 10 | reflexivity | discriminate | reflexivity | exact Hseg].
    + apply (anywhere_rejected "build"); [simpl; auto | now apply segment_includes].
    + left. apply (Hslash "coverage");
        [simpl; auto 10 | reflexivity | discriminate | reflexivity | exact Hseg].
    + apply (anywhere_rejected "examples"); [simpl; auto | now apply segment_includes].
    + apply (anywhere_rejected "example"); [simpl; auto | now apply segment_includes].
    + apply (anywhere_rejected "tests"); [simpl; auto 10 | now apply segment_includes].
    + apply (anywhere_rejected "test"); [simpl; auto 10 | now apply segment_includes].
  - now apply (anywhere_rejected s).
  - left. apply ignored_unsupported; [discriminate | exact Hext].
Qed.

(** What a successful call returns is what the two walks of the tree
    produced. *)
Lemma result_is_walk (env : Env) (branch : string) (w : World) (data : RepositoryData) :
  fst (getRepositoryData env branch w) = Ok data ->
  dataFileContents data = Spec.extracted (extraction env) (tree env)
  /\ getRepositoryStructure (listing env) (tree env) = Ok (structure data).
Proof.
  unfold getRepositoryData, tryBlock, Spec.extracted.
  change (parseIgnorePatterns defaultIgnorePatterns) with Spec.patterns.
  change (mkWalkState ∅ []) with Spec.start.
  destruct (mkdtemp env) as [dir|e]; [|discriminate].
  destruct (clone env) as [u|e];
    [|unfold catchBlock, finallyBlock; destruct (rm env); discriminate].
  destruct (listFiles env) as [files|e];
    [|unfold catchBlock, finallyBlock; destruct (rm env); discriminate].
  destruct (List.length files =? 0)%nat;
    [unfold catchBlock, finallyBlock; destruct (rm env); discriminate|].
  destruct (walkTree (extraction env) (tree env) Spec.start Spec.patterns "")
    as [[u'|e] st];
    [|unfold catchBlock, finallyBlock; destruct (rm env); discriminate].
  destruct (getRepositoryStructure (listing env) (tree env)) as [text|e];
    [|unfold catchBlock, finallyBlock; destruct (rm env); discriminate].
  unfold catchBlock, finallyBlock. destruct (rm env); simpl; intros [= <-]; auto.
Qed.

(** What the call does once the directory is made, the clone has
    succeeded and the listing of the commit is not empty. *)
Lemma after_listing (env : Env) (branch : string) (w : World) (dir : string)
    (files : list string) :
  mkdtemp env = Ok dir -> clone env = Ok tt -> listFiles env = Ok files -> files <> [] ->
  fst (getRepositoryData env branch w)
  = match walkTree (extraction env) (tree env) Spec.start Spec.patterns "" with
    | (Throw e, _) => Throw (newError (Spec.errorPrefix ++ message e))
    | (Ok _, st) =>
        match getRepositoryStructure (listing env) (tree env) with
        | Throw e => Throw (newError (Spec.errorPrefix ++ message e))
        | Ok structure => Ok (mkData (fileContents st) structure)
        end
    end.
Proof.
  intros Hdir Hclone Hfiles Hne.
  unfold getRepositoryData, tryBlock. rewrite Hdir, Hclone, Hfiles.
  destruct files as [|f files]; [congruence|]. cbn [List.length Nat.eqb].
  change (parseIgnorePatterns defaultIgnorePatterns) with Spec.patterns.
  change (mkWalkState ∅ []) with Spec.start.
  destruct (walkTree _ _ _ _ _) as [[u|e] st];
    [destruct (getRepositoryStructure _ _)|];
    unfold catchBlock, finallyBlock; now destruct (rm env).
Qed.

(** *** Fences *)

Lemma table_labels_nonempty (ext label : string) :
  fileTypePrefixes !! ext = Some label -> label <> "".
Proof.
  intros H. apply elem_of_list_to_map_2 in H.
  repeat (apply elem_of_cons in H as [H|H]; [injection H as -> ->; discriminate|]).
  now apply elem_of_nil in H.
Qed.

Lemma fenceFor_fence (P : string) : fenceFor (Path.extname P) = Spec.fence P.
Proof.
  unfold fenceFor, Spec.fence.
  destruct (fileTypePrefixes !! Path.extname P) as [label|] eqn:E; [|reflexivity].
  destruct (String.eqb_spec label ""); [|reflexivity].
  now destruct (table_labels_nonempty _ _ E).
Qed.

(** What the callback stores for a blob it accepts. *)
Lemma formatted_content (P text : string) :
  addMarkdownPrefix P ++ text ++ addMarkdownSuffix P
  = Spec.fence P ++ nl ++ text ++ nl ++ Spec.fence P.
Proof.
  unfold addMarkdownPrefix, addMarkdownSuffix.
  now rewrite fenceFor_fence, !app_assoc.
Qed.

Lemma walkTreeMap_fenced (root : Git.Object) (ignorePatterns : IgnorePatterns)
    (filepath : string) (entry : Git.Object) (n : nat) (st : WalkState) :
  In (filepath, entry) (Git.entries "." root) ->
  Spec.fenced root st ->
  Spec.fenced root (snd (walkTreeMap ignorePatterns "" filepath entry n st)).
Proof.
  intros Hin Hst P v.
  destruct (walkTreeMap_state ignorePatterns "" filepath entry n st)
    as [->|(_ & text & -> & ->)]; [apply Hst|].
  change (if String.eqb "" "" then filepath else Path.join "" filepath) with filepath.
  intros Hlook. apply lookup_insert_Some in Hlook as [[<- <-]|[_ Hlook]].
  - split; [reflexivity|]. exists text. split; [exact Hin|].
    apply formatted_content.
  - now apply Hst.
Qed.

Lemma walkTree_fenced (sched : Git.Schedule) (root : Git.Object)
    (ignorePatterns : IgnorePatterns) (st : WalkState) :
  Spec.fenced root st ->
  Spec.fenced root (snd (walkTree sched (Ok root) st ignorePatterns "")).
Proof.
  unfold walkTree.
  apply (walk_rel (walkTreeMap ignorePatterns "")
           (fun s s' => Spec.fenced root s -> Spec.fenced root s')
           (fun q x => In (q, x) (Git.entries "." root)) (fun _ => Logic.True)); auto.
  - intros t s Hin _. now apply walkTreeMap_fenced.
  - intros o q x [= <-]. trivial.
Qed.

(** *** The structure listing *)

Lemma split_length (P : string) : List.length (split "/" P) = S (Spec.depth P).
Proof.
  induction P as [|c P IH]; [reflexivity|]. simpl.
  destruct (Ascii.eqb c "/"); simpl; [now rewrite IH|].
  destruct (split "/" P); simpl in *; [discriminate | exact IH].
Qed.

Lemma structureLine_lineOf (P : string) (o : Git.Object) :
  structureLine P (Spec.annotation o) = Spec.lineOf (P, o).
Proof.
  unfold structureLine, Spec.lineOf. rewrite split_length. simpl.
  now rewrite Nat.sub_0_r.
Qed.

Lemma listing_app (l1 l2 : list (string * Git.Object)) :
  Spec.listing (l1 ++ l2) = Spec.listing l1 ++ Spec.listing l2.
Proof.
  induction l1 as [|e l1 IH]; [reflexivity|].
  simpl. now rewrite IH, app_assoc.
Qed.

Lemma listing_named_last (done : list (string * Git.Object)) (e : string * Git.Object) :
  Spec.listing (List.filter Spec.named (done ++ [e]))
  = Spec.listing (List.filter Spec.named done)
    ++ (if Spec.named e then Spec.lineOf e else "").
Proof.
  rewrite List.filter_app, listing_app. cbn [List.filter].
  destruct (Spec.named e); cbn [Spec.listing]; now rewrite ?app_nil_r.
Qed.

Lemma structureMap_bounded (p : string) (o : Git.Object) (n : nat) (s : string) :
  1 <= n -> fst (structureMap p o n s) <> Git.Await.
Proof.
  intros Hn. destruct n as [|n]; [lia|]. unfold structureMap. now destruct o.
Qed.

(** Every stretch of the callback keeps the listing in step with the
    entries done with; it never throws. *)
Lemma structure_step (root : Git.Object) (pool : list Git.Task) (i : nat) (t : Git.Task)
    (s : string) :
  nth_error pool i = Some t -> Terms.listingSoFar root pool s ->
  match Git.resume structureMap t s with
  | (Ok new, s1) => Terms.listingSoFar root (Git.splice i new pool) s1
  | (Throw e, _) => False
  end.
Proof.
  intros Hnth (done & -> & Hperm & Hall).
  assert (Ht : Terms.listed t).
  { apply (proj1 (List.Forall_forall _ _) Hall). now apply (nth_error_In pool i). }
  unfold Git.resume, structureMap. destruct (Git.awaited t) as [|n] eqn:En.
  - destruct (String.eqb (Git.taskPath t) "") eqn:Hp; cbn [isNull].
    + exists (done ++ [(Git.taskPath t, Git.taskEntry t)])%list. split; [|split].
      * rewrite listing_named_last. unfold Spec.named. cbn [fst]. rewrite Hp.
        cbn [negb]. now rewrite app_nil_r.
      * now apply ledger_returned.
      * apply Forall_splice; [exact Hall|]. unfold Git.children.
        destruct (Git.taskEntry t); try constructor.
        apply List.Forall_map, List.Forall_forall. intros e _ H. cbn in H. lia.
    + exists done. split; [reflexivity|]. split.
      * now rewrite pending_continued.
      * apply Forall_splice; [exact Hall|]. constructor; [|constructor].
        intros _. exact Hp.
  - assert (Hp : String.eqb (Git.taskPath t) "" = false) by (apply Ht; lia).
    assert (Hgoal : Terms.listingSoFar root (Git.splice i (Git.children t) pool)
              (Spec.listing (List.filter Spec.named done)
               ++ structureLine (Git.taskPath t) (Spec.annotation (Git.taskEntry t)))).
    { exists (done ++ [(Git.taskPath t, Git.taskEntry t)])%list. split; [|split].
      * rewrite listing_named_last, structureLine_lineOf. unfold Spec.named. cbn [fst].
        now rewrite Hp.
      * now apply ledger_returned.
      * apply Forall_splice; [exact Hall|]. unfold Git.children.
        destruct (Git.taskEntry t); try constructor.
        apply List.Forall_map, List.Forall_forall. intros e _ H. cbn in H. lia. }
    destruct (Git.taskEntry t) as [c|l| |] eqn:Ee; cbn [isNull Spec.annotation] in *;
      try exact Hgoal.
    all: rewrite <- (children_of_leaf t) by (rewrite Ee; discriminate); exact Hgoal.
Qed.

(** The listing is one line for every entry of the tree with a path, in
    the order in which the calls came to their end. *)
Lemma structure_outcome (sched : Git.Schedule) (root : Git.Object) :
  exists l,
    Permutation l (List.filter Spec.named (Git.entries "." root))
    /\ getRepositoryStructure sched (Ok root) = Ok (Spec.listing l).
Proof.
  unfold getRepositoryStructure.
  pose proof (walk_inv structureMap 1 structureMap_bounded (Terms.listingSoFar root)
                (fun _ => False) (structure_step root) sched root "") as H.
  destruct (Git.walk structureMap 1 sched (Ok root) "") as [[u|e] s].
  - destruct H as (done & -> & Hperm & _).
    + exists []. split; [reflexivity|]. split.
      * unfold Terms.pending. cbn [flat_map List.app]. now rewrite List.app_nil_r.
      * constructor; [|constructor]. intros H. cbn in H. lia.
    + exists (List.filter Spec.named done). split; [|reflexivity].
      apply filter_perm. unfold Terms.pending in Hperm. cbn [flat_map] in Hperm.
      now rewrite List.app_nil_r in Hperm.
  - destruct H. exists []. split; [reflexivity|]. split.
    + unfold Terms.pending. cbn [flat_map List.app]. now rewrite List.app_nil_r.
    + constructor; [|constructor]. intros H. cbn in H. lia.
Qed.

(** *** The checks, written out *)

Lemma ignored_spelled (l : list string) (P : string) :
  ignoredByPatterns l P
  = existsb (fun text => includes text P) (List.map (replace "$" "") l)
    || (negb (isSupportedExtension P) && negb (List.length l =? 0)%nat).
Proof.
  induction l as [|x l IH]; [cbn; now rewrite andb_false_r|].
  cbn [ignoredByPatterns List.map existsb].
  destruct (includes (replace "$" "" x) P); [reflexivity|].
  destruct (isSupportedExtension P) eqn:E; cbn [negb orb andb] in *.
  - rewrite IH. now rewrite !orb_false_r.
  - now rewrite orb_true_r.
Qed.

Lemma default_texts :
  Terms.rejectedTexts
  = (List.map (replace "$" "") Spec.defaults ++ ["examples"; "example"; "tests"; "test"])%list.
Proof. vm_compute. reflexivity. Qed.

Lemma supported_list : split " " supportedExtensions = Terms.supported.
Proof. vm_compute. reflexivity. Qed.

Lemma supported_spelled (P : string) :
  isSupportedExtension P = existsb (String.eqb (Path.extname P)) Terms.supported.
Proof.
  unfold isSupportedExtension. generalize (Path.extname P). intros ext.
  now rewrite supported_list.
Qed.

Lemma none_of_app {A : Type} (f : A -> bool) (l : list A) :
  forallb (fun x => negb (f x)) l = negb (existsb f l).
Proof.
  induction l as [|x l IH]; [reflexivity|]. cbn [forallb existsb].
  rewrite IH. now destruct (f x).
Qed.

(** The checks of the callback, with the default patterns, let a path
    through exactly when it is not empty, contains none of the rejected
    texts and has a supported extension. *)
Lemma eligible_passes (P : string) : Terms.eligible P = Terms.passes P.
Proof.
  unfold Terms.eligible, Terms.passes.
  rewrite ignored_spelled, none_of_app, default_texts, existsb_app, <- supported_spelled.
  unfold mentionsTests. cbn [existsb].
  change (List.length Spec.defaults =? 0)%nat with false. cbn [negb].
  generalize (existsb (fun text => includes text P) (List.map (replace "$" "") Spec.defaults)).
  generalize (isSupportedExtension P).
  intros [] []; destruct (String.eqb P ""), (includes "examples" P), (includes "example" P),
    (includes "tests" P), (includes "test" P); reflexivity.
Qed.

(** *** The walk of [walkTree], stretch by stretch *)

Lemma storable_last (done : list (string * Git.Object)) (e : string * Git.Object) :
  Terms.storable (done ++ [e])
  = (Terms.storable done
     ++ if Terms.isReadable (snd e) && Terms.passes (fst e) then [e] else [])%list.
Proof. unfold Terms.storable. now rewrite List.filter_app. Qed.

Lemma storable_split (all done rest : list (string * Git.Object)) :
  Permutation (done ++ rest) all ->
  List.length (Terms.storable done) + List.length (Terms.storable rest)
  = List.length (Terms.storable all).
Proof.
  intros H. unfold Terms.storable.
  rewrite <- (Permutation_length (filter_perm _ _ _ H)), List.filter_app.
  now rewrite List.length_app.
Qed.

Lemma own_pending (pool : list Git.Task) (i : nat) (t : Git.Task) :
  nth_error pool i = Some t ->
  In (Git.taskPath t, Git.taskEntry t) (Terms.pending pool).
Proof.
  intros H. unfold Terms.pending. apply in_flat_map. exists t.
  split; [now apply (nth_error_In pool i)|]. rewrite subtree_children. now left.
Qed.

(** With the default patterns and no current path, a call that has come
    back from an await is on a path that passes. *)
Lemma checked_passes (t : Git.Task) :
  Terms.checked Spec.patterns "" t -> 1 <= Git.awaited t ->
  Terms.passes (Git.taskPath t) = true.
Proof.
  intros Ht Hn. destruct (Ht Hn) as (Hp & Hs & Hm). cbn in Hs, Hm.
  rewrite <- eligible_passes. unfold Terms.eligible. rewrite Hp, Hm.
  specialize (Hs Spec.start). rewrite patterns_eq in Hs. unfold skipped in Hs.
  destruct (ignoredByPatterns Spec.defaults (Git.taskPath t)); [discriminate|reflexivity].
Qed.

Lemma fresh_children_checked (ignorePatterns : IgnorePatterns) (cur : string)
    (t : Git.Task) :
  Forall (Terms.checked ignorePatterns cur) (Git.children t).
Proof.
  unfold Git.children. destruct (Git.taskEntry t); try constructor.
  apply List.Forall_map, List.Forall_forall. intros e _. apply checked_fresh.
Qed.

Section Step.
Variables (root : Git.Object) (pool : list Git.Task) (i : nat) (t : Git.Task).
Variables (st : WalkState).
Hypothesis Hnth : nth_error pool i = Some t.
Hypothesis Hinv : Terms.extracting root pool st.

Lemma own_entry : In (Git.taskPath t, Git.taskEntry t) (Git.entries "." root).
Proof.
  destruct Hinv as (done & Hperm & _). apply (Permutation_in _ Hperm).
  apply in_or_app. right. now apply (own_pending pool i).
Qed.

(** The call waits again. *)
Lemma extracting_continued (n : nat) :
  Terms.checked Spec.patterns "" (Git.mkTask (Git.taskPath t) (Git.taskEntry t) n) ->
  Terms.extracting root
    (Git.splice i [Git.mkTask (Git.taskPath t) (Git.taskEntry t) n] pool) st.
Proof.
  intros Hc. destruct Hinv as (done & Hperm & Hall & Hroom). exists done.
  split; [now rewrite pending_continued|]. split; [|exact Hroom].
  apply Forall_splice; [exact Hall|]. constructor; [exact Hc | constructor].
Qed.

(** The callback returns without having stored anything. *)
Lemma extracting_returned (st' : WalkState) :
  fileContents st' = fileContents st ->
  (Terms.room root ->
   Terms.isReadable (Git.taskEntry t) && Terms.passes (Git.taskPath t) = false
   /\ forall e, Git.taskEntry t = Git.Blob (Throw e) ->
                Terms.passes (Git.taskPath t) = false) ->
  Terms.extracting root (Git.splice i (Git.children t) pool) st'.
Proof.
  intros Hst Hown. destruct Hinv as (done & Hperm & Hall & Hroom).
  exists (done ++ [(Git.taskPath t, Git.taskEntry t)])%list.
  split; [now apply ledger_returned|].
  split; [apply Forall_splice; [exact Hall | apply fresh_children_checked]|].
  intros Hr. destruct (Hown Hr) as [Hnot Hbad]. destruct (Hroom Hr) as (Hsize & Hkeys & Hread).
  rewrite storable_last. cbn [fst snd]. rewrite Hnot, List.app_nil_r, Hst.
  split; [exact Hsize|]. split; [exact Hkeys|].
  intros q e Hin. apply in_app_or in Hin as [Hin|[[= <- Hin]|[]]].
  - now apply (Hread q e).
  - now apply (Hbad e).
Qed.

(** The callback returns after having stored the blob. *)
Lemma extracting_stored (st' : WalkState) (text : string) (v : FileContent) :
  Git.taskEntry t = Git.Blob (Ok text) ->
  Terms.passes (Git.taskPath t) = true ->
  fileContents st' = <[Git.taskPath t := v]> (fileContents st) ->
  Terms.extracting root (Git.splice i (Git.children t) pool) st'.
Proof.
  intros Hblob Hpass Hst. destruct Hinv as (done & Hperm & Hall & Hroom).
  exists (done ++ [(Git.taskPath t, Git.taskEntry t)])%list.
  split; [now apply ledger_returned|].
  split; [apply Forall_splice; [exact Hall | apply fresh_children_checked]|].
  intros Hr. destruct (Hroom Hr) as (Hsize & Hkeys & Hread).
  rewrite storable_last. cbn [fst snd]. rewrite Hblob, Hpass, Hst. cbn [Terms.isReadable andb].
  split; [|split].
  - rewrite List.length_app, map_size_insert. cbn [List.length].
    destruct (fileContents st !! Git.taskPath t); cbn; lia.
  - intros P. rewrite lookup_insert_is_Some', List.map_app, in_app_iff, Hkeys.
    cbn [List.map fst In]. tauto.
  - intros q e Hin. apply in_app_or in Hin as [Hin|[[=]|[]]]. now apply (Hread q e).
Qed.

(** While there is room, the size guard lets a blob that passes through. *)
Lemma room_guard (c : Result string) :
  Git.taskEntry t = Git.Blob c -> Terms.passes (Git.taskPath t) = true ->
  Terms.room root -> size (fileContents st) < 11.
Proof.
  intros Hblob Hpass Hr. pose proof own_entry as Hown.
  destruct Hinv as (done & Hperm & _ & Hroom).
  destruct (Hroom Hr) as (Hsize & _). pose proof (storable_split _ _ _ Hperm) as Hsplit.
  destruct Hr as [Hten|[Heleven Hread]]; [lia|].
  assert (Hin : In (Git.taskPath t, Git.taskEntry t)
                   (Terms.storable (Terms.pending pool))).
  { apply List.filter_In. split; [now apply (own_pending pool i)|]. cbn [fst snd].
    rewrite Hpass, Hblob. destruct c as [text|e]; [reflexivity|].
    rewrite Hblob in Hown. rewrite (Hread _ _ Hown) in Hpass. discriminate. }
  destruct (Terms.storable (Terms.pending pool)); [contradiction|]. cbn [List.length] in *.
  lia.
Qed.

Lemma extracting_step :
  match Git.resume (walkTreeMap Spec.patterns "") t st with
  | (Ok new, st1) => Terms.extracting root (Git.splice i new pool) st1
  | (Throw e, _) =>
      exists q, In (q, Git.Blob (Throw e)) (Git.entries "." root) /\ Terms.passes q = true
  end.
Proof.
  assert (Ht : Terms.checked Spec.patterns "" t).
  { destruct Hinv as (done & _ & Hall & _).
    apply (proj1 (List.Forall_forall _ _) Hall). now apply (nth_error_In pool i). }
  assert (Hfail : Terms.eligible (Git.taskPath t) = false ->
            Terms.room root ->
            Terms.isReadable (Git.taskEntry t) && Terms.passes (Git.taskPath t) = false
            /\ forall e, Git.taskEntry t = Git.Blob (Throw e) ->
                         Terms.passes (Git.taskPath t) = false).
  { intros He _. rewrite eligible_passes in He. rewrite He. now rewrite andb_false_r. }
  unfold Git.resume, walkTreeMap. change (String.eqb "" "") with true. cbv iota.
  destruct (Git.awaited t) as [|[|n]] eqn:En.
  - pose proof (checked_next Spec.patterns "" t st st Ht) as Hnext. rewrite En in Hnext.
    unfold walkTreeMap in Hnext. change (String.eqb "" "") with true in Hnext.
    cbv iota in Hnext. unfold Terms.eligible in Hfail.
    destruct (String.eqb (Git.taskPath t) "") eqn:Hp; cbn [isNull].
    { apply extracting_returned; [reflexivity | now apply Hfail]. }
    rewrite patterns_eq in Hnext |- *. unfold skipped in Hnext |- *.
    destruct (ignoredByPatterns Spec.defaults (Git.taskPath t)) eqn:Hi; cbn [isNull].
    { apply extracting_returned; [reflexivity | now apply Hfail]. }
    destruct (mentionsTests (Git.taskPath t)) eqn:Hm; cbn [isNull].
    { apply extracting_returned; [reflexivity | now apply Hfail]. }
    apply extracting_continued. exact (Hnext eq_refl).
  - assert (Hpass : Terms.passes (Git.taskPath t) = true)
      by (apply checked_passes; [exact Ht | lia]).
    destruct (Git.taskEntry t) as [c|l| |] eqn:Ee; cbn [isNull].
    + destruct (size (fileContents st) <? 11)%nat eqn:Hlt; cbn [isNull].
      * rewrite <- Ee. apply extracting_continued. intros _. apply Ht. lia.
      * apply extracting_returned; [reflexivity|]. intros Hr.
        pose proof (room_guard c Ee Hpass Hr) as Hsize.
        apply Nat.ltb_ge in Hlt. lia.
    + apply extracting_returned; [reflexivity|]. rewrite Ee. intros _. now split.
    + apply extracting_returned; [reflexivity|]. rewrite Ee. intros _. now split.
    + apply extracting_returned; [reflexivity|]. rewrite Ee. intros _. now split.
  - assert (Hpass : Terms.passes (Git.taskPath t) = true)
      by (apply checked_passes; [exact Ht | lia]).
    pose proof own_entry as Hown.
    destruct (Git.taskEntry t) as [[text|e]|l| |] eqn:Ee; cbn [isNull].
    + eapply extracting_stored; [exact Ee | exact Hpass | reflexivity].
    + exists (Git.taskPath t). now split.
    + apply extracting_returned; [reflexivity|]. rewrite Ee. intros _. now split.
    + apply extracting_returned; [reflexivity|]. rewrite Ee. intros _. now split.
    + apply extracting_returned; [reflexivity|]. rewrite Ee. intros _. now split.
Qed.
End Step.

Lemma walkTreeMap_bounded (ignorePatterns : IgnorePatterns) (cur p : string)
    (o : Git.Object) (n : nat) (s : WalkState) :
  2 <= n -> fst (walkTreeMap ignorePatterns cur p o n s) <> Git.Await.
Proof.
  intros Hn. destruct n as [|[|n]]; try lia. unfold walkTreeMap.
  now destruct o as [[text|e]|l| |].
Qed.

Lemma extracting_start (root : Git.Object) :
  Terms.extracting root [Git.mkTask "." root 0] Spec.start.
Proof.
  exists []. split; [|split].
  - unfold Terms.pending. cbn [flat_map List.app]. now rewrite List.app_nil_r.
  - constructor; [apply checked_fresh | constructor].
  - intros _. cbn. rewrite map_size_empty. split; [lia|]. split; [|tauto].
    intros P. rewrite lookup_empty. split; [intros [x [=]] | tauto].
Qed.

(** With no unreadable blob among those that pass, the readable blobs
    that pass are the blobs that pass. *)
Lemma storable_passing (l : list (string * Git.Object)) :
  (forall q e, In (q, Git.Blob (Throw e)) l -> Terms.passes q = false) ->
  Terms.storable l = Terms.passing l.
Proof.
  intros Hread. unfold Terms.storable, Terms.passing. apply List.filter_ext_in.
  intros [q o] Hin. destruct o as [[text|e]|?| |]; try reflexivity. cbn [fst snd].
  now rewrite (Hread q e Hin).
Qed.

Lemma storable_le_passing (l : list (string * Git.Object)) :
  List.length (Terms.storable l) <= List.length (Terms.passing l).
Proof.
  induction l as [|x l IH]; [reflexivity|]. unfold Terms.storable, Terms.passing in *.
  cbn [List.filter]. destruct x as [q o].
  destruct o as [[text|e]|?| |]; cbn [fst snd Terms.isReadable Terms.isBlob andb];
    try exact IH; destruct (Terms.passes q); cbn [List.length]; lia.
Qed.

(** What a walk with the default patterns comes to, in whatever order its
    calls go on: it rejects only with the error of an unreadable blob that
    passes; and when it resolves and there was room, no such blob exists
    and the map holds the paths of the blobs that pass. *)
Lemma walkTree_outcome (sched : Git.Schedule) (root : Git.Object) :
  match walkTree sched (Ok root) Spec.start Spec.patterns "" with
  | (Ok _, st) =>
      Terms.room root ->
      Terms.readable root
      /\ forall P, is_Some (fileContents st !! P) <-> In P (Terms.candidates root)
  | (Throw e, _) =>
      exists q, In (q, Git.Blob (Throw e)) (Git.entries "." root) /\ Terms.passes q = true
  end.
Proof.
  unfold walkTree.
  pose proof (walk_inv (walkTreeMap Spec.patterns "") 2
                (walkTreeMap_bounded Spec.patterns "") (Terms.extracting root)
                (fun e => exists q, In (q, Git.Blob (Throw e)) (Git.entries "." root)
                                    /\ Terms.passes q = true)
                (extracting_step root) sched root Spec.start (extracting_start root)) as H.
  destruct (Git.walk _ 2 sched (Ok root) Spec.start) as [[u|e] st]; [|exact H].
  destruct H as (done & Hperm & _ & Hroom). intros Hr.
  destruct (Hroom Hr) as (_ & Hkeys & Hread).
  unfold Terms.pending in Hperm. cbn [flat_map] in Hperm. rewrite List.app_nil_r in Hperm.
  assert (Hreadable : Terms.readable root).
  { intros q e Hin. apply (Hread q e). now apply (Permutation_in _ (Permutation_sym Hperm)). }
  split; [exact Hreadable|]. intros P. rewrite Hkeys.
  unfold Terms.candidates, Terms.candidatesOf. rewrite <- (storable_passing _ Hreadable).
  assert (Hp : Permutation (List.map fst (Terms.storable done))
                 (List.map fst (Terms.storable (Git.entries "." root)))).
  { apply Permutation_map. unfold Terms.storable. now apply filter_perm. }
  split; intros Hin; [exact (Permutation_in _ Hp Hin)
                     | exact (Permutation_in _ (Permutation_sym Hp) Hin)].
Qed.

(** With no unreadable blob among those that pass, the walk resolves. *)
Lemma walkTree_succeeds (sched : Git.Schedule) (root : Git.Object) :
  Terms.readable root ->
  fst (walkTree sched (Ok root) Spec.start Spec.patterns "") = Ok tt.
Proof.
  intros Hread. pose proof (walkTree_outcome sched root) as H.
  destruct (walkTree sched (Ok root) Spec.start Spec.patterns "") as [[[]|e] st];
    [reflexivity|].
  destruct H as (q & Hin & Hpass). rewrite (Hread q e Hin) in Hpass. discriminate.
Qed.

Lemma walkTree_keys (sched : Git.Schedule) (root : Git.Object) :
  Terms.readable root -> List.length (Terms.candidates root) <= 11 ->
  forall P, is_Some (Spec.extracted sched (Ok root) !! P) <-> In P (Terms.candidates root).
Proof.
  intros Hread Hcount. unfold Spec.extracted.
  pose proof (walkTree_outcome sched root) as H.
  pose proof (walkTree_succeeds sched root Hread) as Hok.
  destruct (walkTree sched (Ok root) Spec.start Spec.patterns "") as [[u|e] st];
    [|discriminate].
  apply H. right. split; [|exact Hread].
  unfold Terms.candidates, Terms.candidatesOf in Hcount. rewrite List.length_map in Hcount.
  pose proof (storable_le_passing (Git.entries "." root)). lia.
Qed.

(** With at most ten readable blobs that pass, and an unreadable one that
    passes, the walk rejects, with the error of such a blob. *)
Lemma walkTree_rejects (sched : Git.Schedule) (root : Git.Object) (q : string) (e : Error) :
  In (q, Git.Blob (Throw e)) (Git.entries "." root) -> Terms.passes q = true ->
  List.length (Terms.storable (Git.entries "." root)) <= 10 ->
  exists q' e',
    fst (walkTree sched (Ok root) Spec.start Spec.patterns "") = Throw e'
    /\ In (q', Git.Blob (Throw e')) (Git.entries "." root) /\ Terms.passes q' = true.
Proof.
  intros Hin Hpass Hten. pose proof (walkTree_outcome sched root) as H.
  destruct (walkTree sched (Ok root) Spec.start Spec.patterns "") as [[u|e'] st].
  - destruct (H (or_introl Hten)) as [Hread _].
    rewrite (Hread q e Hin) in Hpass. discriminate.
  - destruct H as (q' & Hin' & Hpass'). now exists q', e'.
Qed.

(** The size of a map whose keys are those of a list without repetition. *)
Lemma size_of_keys {A : Type} (m : gmap string A) (l : list string) :
  List.NoDup l -> (forall P, is_Some (m !! P) <-> In P l) ->
  size m = List.length l.
Proof.
  intros Hnd Hkeys. rewrite <- size_dom.
  assert (E : dom m = list_to_set l).
  { apply set_eq. intros P.
    rewrite elem_of_dom, elem_of_list_to_set, list_elem_of_In. apply Hkeys. }
  rewrite E. apply size_list_to_set. now apply NoDup_ListNoDup.
Qed.

End CodebaseFacts.

(** ** Repository walker *)

Module Walker.
Import Js Codebase StringFacts WalkFacts CodebaseFacts.

(** C1.  The bound of ten does not hold of the code.  Eleven source files
    side by side are all extracted, in whatever order the calls of the
    walk go on: the callback adds a blob while the map holds fewer than
    eleven.  And the size is read before the content is awaited, the entry
    set after it: of twelve source files side by side, when every call
    has read the size before any content has arrived, all twelve are
    extracted. *)
Theorem extracted_can_exceed_ten :
  (forall sched, size (Spec.extracted sched (Ok Examples.elevenFiles)) = 11)
  /\ size (Spec.extracted Samples.guardsFirst (Ok Samples.twelveFiles)) = 12.
Proof.
  split; [|vm_compute; reflexivity].
  intros sched.
  assert (Hcand : Terms.candidates Examples.elevenFiles
                  = ["a.ts"; "b.ts"; "c.ts"; "d.ts"; "e.ts"; "f.ts"; "g.ts"; "h.ts";
                     "i.ts"; "j.ts"; "k.ts"]) by (vm_compute; reflexivity).
  change 11 with (List.length ["a.ts"; "b.ts"; "c.ts"; "d.ts"; "e.ts"; "f.ts"; "g.ts";
                               "h.ts"; "i.ts"; "j.ts"; "k.ts"]).
  apply size_of_keys.
  - apply NoDup_ListNoDup, (bool_decide_unpack _). vm_compute. reflexivity.
  - rewrite <- Hcand. apply walkTree_keys.
    + intros q e Hin. vm_compute in Hin.
      repeat (destruct Hin as [Hin|Hin]; [discriminate|]). contradiction.
    + rewrite Hcand. cbn. lia.
Qed.

Example eleven_files_returned :
  option_map (fun data => size (dataFileContents data))
    (match fst (getRepositoryData (Examples.envOf Examples.elevenFiles) "HEAD"
                  Examples.emptyWorld) with
     | Ok data => Some data
     | Throw _ => None
     end)
  = Some 11.
Proof. vm_compute. reflexivity. Qed.

(** C2.  A path that has one of the nine names as a segment, or whose
    extension is not in the whitelist, is never added to the map by a walk
    with the default patterns: its entry is the same after as before.  For
    six of the names it is enough that the path contains the name anywhere. *)
Theorem excluded_path_never_extracted (sched : Git.Schedule) (root : Result Git.Object)
    (st : WalkState) (currentPath P : string) :
  (exists s, In s Spec.excludedSegments /\ Spec.hasSegment s P)
  \/ (exists s, In s Spec.excludedAnywhere /\ includes s P = true)
  \/ isSupportedExtension P = false ->
  fileContents (snd (walkTree sched root st Spec.patterns currentPath)) !! P
  = fileContents st !! P.
Proof.
  intros H. rewrite patterns_eq. apply walkTree_lookup. now apply excluded_rejected.
Qed.

Lemma excluded_path_never_extracted_witness :
  Spec.extracted Samples.levelByLevel (Ok Examples.smallRepo) !! "node_modules/dep.js"
  = None
  /\ Spec.extracted [] (Ok Examples.smallRepo) !! "src/latest.ts" = None
  /\ Spec.extracted [] (Ok Examples.smallRepo) !! "README.md" = None.
Proof.
  split; [|split].
  - apply (excluded_path_never_extracted Samples.levelByLevel (Ok Examples.smallRepo)
             Spec.start "" "node_modules/dep.js").
    left. exists "node_modules". split; [simpl; auto | left; reflexivity].
  - apply (excluded_path_never_extracted [] (Ok Examples.smallRepo) Spec.start ""
             "src/latest.ts").
    right. left. exists "test". split; [simpl; auto 10 | reflexivity].
  - apply (excluded_path_never_extracted [] (Ok Examples.smallRepo) Spec.start ""
             "README.md").
    right. right. reflexivity.
Defined.

(** A file whose name merely starts with [dist] has no segment [dist], and
    is extracted. *)
Example dist_file_is_extracted :
  Spec.extracted [] (Ok (Git.Tree [Examples.file "dist.ts" "d"])) !! "dist.ts"
  = Some (mkFileContent "dist.ts" ("```typescript" ++ nl ++ "d" ++ nl ++ "```typescript")).
Proof. vm_compute. reflexivity. Qed.

(** C9.  A path that contains [ui] anywhere is never added to the map by a
    walk with the default patterns, whose first pattern is [ui]. *)
Theorem ui_path_never_extracted (sched : Git.Schedule) (root : Result Git.Object)
    (st : WalkState) (currentPath P : string) :
  includes "ui" P = true ->
  fileContents (snd (walkTree sched root st Spec.patterns currentPath)) !! P
  = fileContents st !! P.
Proof.
  intros H. rewrite patterns_eq. apply walkTree_lookup. left.
  apply (ignored_by_member _ "ui"); [simpl; auto | exact H].
Qed.

Lemma ui_path_never_extracted_witness :
  Spec.extracted [] (Ok Examples.smallRepo) !! "build/quick.ts" = None.
Proof.
  apply (ui_path_never_extracted [] (Ok Examples.smallRepo) Spec.start ""
           "build/quick.ts").
  reflexivity.
Defined.

(** C10.  Every entry of the extracted-file map is stored under the path of
    a blob of the tree and holds the fence of that path, a newline, the text
    of the blob, a newline, and the same fence again; the fence is the label
    of the extension in the table, or the bare fence when it has none. *)
Theorem extracted_content_fenced (sched : Git.Schedule) (root : Git.Object) (P : string)
    (v : FileContent) :
  Spec.extracted sched (Ok root) !! P = Some v ->
  path v = P /\
  exists raw, In (P, Git.Blob (Ok raw)) (Git.entries "." root) /\
              content v = Spec.fence P ++ nl ++ raw ++ nl ++ Spec.fence P.
Proof.
  intros H. refine (walkTree_fenced sched root Spec.patterns Spec.start _ P v H).
  intros Q w Hw. simpl in Hw. now rewrite lookup_empty in Hw.
Qed.

Lemma extracted_content_fenced_witness :
  exists raw, In ("src/add.ts", Git.Blob (Ok raw)) (Git.entries "." Examples.smallRepo) /\
    "```typescript" ++ nl ++ "export function add() {}" ++ nl ++ "```typescript"
    = Spec.fence "src/add.ts" ++ nl ++ raw ++ nl ++ Spec.fence "src/add.ts".
Proof.
  refine (proj2 (extracted_content_fenced [] Examples.smallRepo "src/add.ts"
                   (mkFileContent "src/add.ts"
                      ("```typescript" ++ nl ++ "export function add() {}" ++ nl
                       ++ "```typescript"))
                   _)).
  vm_compute. reflexivity.
Defined.

Example fence_typescript : Spec.fence "src/add.ts" = "```typescript".
Proof. reflexivity. Qed.

Example fence_bare : Spec.fence "src/index.php" = "```".
Proof. reflexivity. Qed.

Example php_entry :
  Spec.extracted [] (Ok Examples.smallRepo) !! "src/index.php"
  = Some (mkFileContent "src/index.php" ("```" ++ nl ++ "<?php" ++ nl ++ "```")).
Proof. vm_compute. reflexivity. Qed.

(** C6.  In whatever order the calls of the walk go on, the structure
    listing is made of one line for every entry of the tree: two spaces
    for each slash of its path, the path, and [(directory)], [(file)] or
    [(unknown)].  Neither the patterns nor the size of the extracted-file
    map play any part in it. *)
Theorem structure_lists_every_entry (sched : Git.Schedule) (root : Git.Object) :
  exists l,
    Permutation l (List.filter Spec.named (Git.entries "." root))
    /\ getRepositoryStructure sched (Ok root) = Ok (Spec.listing l).
Proof. apply structure_outcome. Qed.

(** When of the calls that wait the first always goes on, the lines come
    with every directory followed by what is below it. *)
Example structure_of_small_repo :
  getRepositoryStructure [] (Ok Examples.smallRepo)
  = Ok ("- . (directory)" ++ nl ++
        "- README.md (file)" ++ nl ++
        "- node_modules (directory)" ++ nl ++
        "  - node_modules/dep.js (file)" ++ nl ++
        "- build (directory)" ++ nl ++
        "  - build/quick.ts (file)" ++ nl ++
        "- src (directory)" ++ nl ++
        "  - src/add.ts (file)" ++ nl ++
        "  - src/latest.ts (file)" ++ nl ++
        "  - src/index.php (file)" ++ nl ++
        "- vendor (unknown)" ++ nl).
Proof. vm_compute. reflexivity. Qed.

(** In another order the same lines come level by level. *)
Example structure_level_by_level :
  getRepositoryStructure Samples.levelByLevel (Ok Examples.smallRepo)
  = Ok ("- . (directory)" ++ nl ++
        "- README.md (file)" ++ nl ++
        "- node_modules (directory)" ++ nl ++
        "- build (directory)" ++ nl ++
        "- src (directory)" ++ nl ++
        "- vendor (unknown)" ++ nl ++
        "  - node_modules/dep.js (file)" ++ nl ++
        "  - build/quick.ts (file)" ++ nl ++
        "  - src/add.ts (file)" ++ nl ++
        "  - src/latest.ts (file)" ++ nl ++
        "  - src/index.php (file)" ++ nl).
Proof. vm_compute. reflexivity. Qed.




(** Without the unreadable file, the readable one is returned. *)
Example readable_file_alone_is_returned :
  match fst (getRepositoryData (Examples.envOf Examples.readableOnly) "HEAD"
               Examples.emptyWorld) with
  | Ok data => dataFileContents data !! "b.ts"
  | Throw _ => None
  end
  = Some (mkFileContent "b.ts" ("```typescript" ++ nl ++ "let b" ++ nl ++ "```typescript")).
Proof. vm_compute. reflexivity. Qed.

End Walker.

(** ** Workspace: [getRepositoryData] *)

Module Workspace.
Import Js Codebase.

(** Whatever fails after the directory was made, the caller gets a plain
    [Error] whose message is the prefix followed by the message of the
    failure. *)
Lemma failure_is_wrapped (env : Env) (branch : string) (w : World) (dir : string)
    (e : Error) :
  mkdtemp env = Ok dir ->
  fst (getRepositoryData env branch w) = Throw e ->
  exists cause, e = newError (Spec.errorPrefix ++ cause).
Proof.
  intros Hdir. unfold getRepositoryData. rewrite Hdir.
  destruct (tryBlock env branch _) as [[d|cause] w1]; unfold catchBlock, finallyBlock;
    destruct (rm env); simpl; intros [= <-] || intros [=].
  all: now exists (message cause).
Qed.

(** C3 (as amended).  A failed clone and an empty listing of the branch
    both come out as a plain [Error]: the message is the fixed prefix
    followed, for the clone, by the message of the upstream failure and,
    for the empty listing, by the text [Could not find commit for branch:]
    and the branch (or HEAD); so do all other failures.  The two cases
    differ in the text of the message and in nothing else. *)
Theorem failures_are_one_error_type (env : Env) (branch : string) (w : World)
    (dir : string) :
  mkdtemp env = Ok dir ->
  (forall upstream, clone env = Throw upstream ->
     fst (getRepositoryData env branch w)
     = Throw (newError (Spec.errorPrefix ++ message upstream)))
  /\ (clone env = Ok tt -> listFiles env = Ok [] ->
      fst (getRepositoryData env branch w)
      = Throw (newError (Spec.errorPrefix ++ "Could not find commit for branch: "
                         ++ orDefault branch "HEAD")))
  /\ (forall e, fst (getRepositoryData env branch w) = Throw e ->
      name e = "Error" /\ exists cause, message e = Spec.errorPrefix ++ cause).
Proof.
  intros Hdir. repeat split.
  - intros upstream Hclone. unfold getRepositoryData, tryBlock.
    rewrite Hdir, Hclone. unfold catchBlock, finallyBlock. now destruct (rm env).
  - intros Hclone Hfiles. unfold getRepositoryData, tryBlock.
    rewrite Hdir, Hclone, Hfiles. unfold catchBlock, finallyBlock. simpl.
    now destruct (rm env).
  - destruct (failure_is_wrapped env branch w dir e Hdir H) as [cause ->]. reflexivity.
  - destruct (failure_is_wrapped env branch w dir e Hdir H) as [cause ->]. now exists cause.
Qed.

Lemma failures_are_one_error_type_witness :
  fst (getRepositoryData Examples.cloneAndCleanupFail "main" Examples.emptyWorld)
  = Throw (newError "Failed to get repository data: HTTP Error: 401 Unauthorized")
  /\ fst (getRepositoryData Examples.noCommit "" Examples.emptyWorld)
     = Throw (newError "Failed to get repository data: Could not find commit for branch: HEAD").
Proof.
  split.
  - exact (proj1 (failures_are_one_error_type Examples.cloneAndCleanupFail "main"
                    Examples.emptyWorld Examples.tmp eq_refl) _ eq_refl).
  - exact (proj1 (proj2 (failures_are_one_error_type Examples.noCommit ""
                           Examples.emptyWorld Examples.tmp eq_refl)) eq_refl eq_refl).
Defined.

(** C3, as stated, fails: a clone failure and an unresolved branch can
    surface as one and the same error value. *)
Lemma failure_modes_can_coincide :
  exists e,
    fst (getRepositoryData Examples.cloneFails "HEAD" Examples.emptyWorld) = Throw e
    /\ fst (getRepositoryData Examples.noCommit "HEAD" Examples.emptyWorld) = Throw e.
Proof. eexists. split; reflexivity. Qed.

(** C5.  Once the directory exists, on every way out of
    [getRepositoryData] the outcome handed to the caller is the one the
    call has when the removal succeeds; when the removal succeeds the
    directory is gone afterwards, and when it fails the only trace is one
    more line on the console. *)
Theorem cleanup_on_every_path (env : Env) (branch : string) (w : World) (dir : string) :
  mkdtemp env = Ok dir ->
  let clean := getRepositoryData (Spec.withRm env (Ok tt)) branch w in
  fst (getRepositoryData env branch w) = fst clean
  /\ (dir ∉ tempDirs (snd clean))
  /\ match rm env with
     | Ok _ => snd (getRepositoryData env branch w) = snd clean
     | Throw cleanupError =>
         output (snd (getRepositoryData env branch w))
         = (output (snd clean)
            ++ [ConsoleError "Error cleaning up temporary directory:" cleanupError])%list
     end.
Proof.
  intros Hdir. unfold getRepositoryData. simpl. rewrite Hdir.
  change (tryBlock (Spec.withRm env (Ok tt)) branch) with (tryBlock env branch).
  destruct (catchBlock (tryBlock env branch _)) as [outcome w1].
  unfold finallyBlock. simpl. repeat split.
  - now destruct (rm env).
  - intros [_ Hnot]%elem_of_difference. apply Hnot. now apply elem_of_singleton.
  - destruct (rm env) as [[]|cleanupError]; reflexivity.
Qed.

Lemma cleanup_on_every_path_witness :
  let clean := getRepositoryData (Spec.withRm Examples.cloneAndCleanupFail (Ok tt))
                 "main" Examples.emptyWorld in
  fst (getRepositoryData Examples.cloneAndCleanupFail "main" Examples.emptyWorld)
  = Throw (newError "Failed to get repository data: HTTP Error: 401 Unauthorized")
  /\ (Examples.tmp ∉ tempDirs (snd clean))
  /\ output (snd (getRepositoryData Examples.cloneAndCleanupFail "main"
                    Examples.emptyWorld))
     = (output (snd clean)
        ++ [ConsoleError "Error cleaning up temporary directory:"
              (mkError "Error" "EBUSY: resource busy or locked")])%list.
Proof.
  exact (cleanup_on_every_path Examples.cloneAndCleanupFail "main"
           Examples.emptyWorld Examples.tmp eq_refl).
Defined.

End Workspace.

(** ** Structural summarizer *)

Module Summarizer.
Import Js Parser.

Lemma collect_In {A B : Type} (f : A -> option B) (l : list A) (x : A) (y : B) :
  In x l -> f x = Some y -> In y (collect f l).
Proof.
  induction l as [|a l IH]; simpl; [contradiction|].
  intros [->|Hin] Hf.
  - rewrite Hf. now left.
  - destruct (f a); [right|]; now apply IH.
Qed.

(** [processNode] is its body, with the recursive calls going to the two
    traversals. *)
Lemma processNode_eq (fileName : string) (node : Node) :
  processNode fileName node
  = processNodeWith (processNode fileName) (processFunctionLogicNode fileName)
      fileName node.
Proof. destruct node; reflexivity. Qed.

Lemma logic_of_return (fileName : string) (node e : Node) :
  shapeOf node = ReturnStatement (Some e) ->
  processFunctionLogicNode fileName node = Some (Spec.returnOf (getText e)).
Proof. destruct node as [i s c]; simpl. now intros ->. Qed.

Lemma logic_of_block (fileName : string) (node : Node) :
  shapeOf node = Other "Block" ->
  processFunctionLogicNode fileName node
  = let blockChildren := collect (processFunctionLogicNode fileName) (forEachChild node) in
    if isEmpty blockChildren then None else Some (Spec.container "Block" blockChildren).
Proof. destruct node as [i s c]; simpl. now intros ->. Qed.

Lemma logic_of_if (fileName : string) (node cond thenStatement elseStatement : Node) :
  shapeOf node = IfStatement cond thenStatement (Some elseStatement) ->
  processFunctionLogicNode fileName node
  = Some (Spec.ifOf (getText cond)
            (match processFunctionLogicNode fileName thenStatement with
             | Some thenBlock => [Spec.container "ThenBlock" [thenBlock]]
             | None => []
             end ++
             match processFunctionLogicNode fileName elseStatement with
             | Some elseBlock => [Spec.container "ElseBlock" [elseBlock]]
             | None => []
             end)%list).
Proof. destruct node as [i s c]; simpl. now intros ->. Qed.

(** The logic flow of a function declaration, method, arrow function or
    constructor with a body: the non-null results for the children of the
    body. *)
Lemma flow_of_function (fileName : string) (f body : Node) :
  Spec.functionWithBody f body ->
  exists summary,
    processNode fileName f = Some summary /\
    logicFlowOf summary
    = Some (collect (processFunctionLogicNode fileName) (forEachChild body)).
Proof.
  destruct f as [i s c]. unfold Spec.functionWithBody. cbn [shapeOf].
  intros [(k & name & parameters & ty & ->)|(parameters & ->)];
    destruct body as [bi bs bc]; rewrite processNode_eq; simpl.
  - destruct k; eexists; split; reflexivity.
  - eexists; split; reflexivity.
Qed.

(** The statement [if (x) { return 1; } else { return 2; }] in the body of
    a function gives the node of [Spec.ifElseSummary] in its logic flow. *)
Lemma if_else_in_flow (fileName : string)
    (body ifNode cond thenStatement elseStatement r1 r2 e1 e2 : Node)
    (before after : list Node) :
  forEachChild body = (before ++ ifNode :: after)%list ->
  shapeOf ifNode = IfStatement cond thenStatement (Some elseStatement) ->
  getText cond = "x" ->
  shapeOf thenStatement = Other "Block" -> forEachChild thenStatement = [r1] ->
  shapeOf r1 = ReturnStatement (Some e1) -> getText e1 = "1" ->
  shapeOf elseStatement = Other "Block" -> forEachChild elseStatement = [r2] ->
  shapeOf r2 = ReturnStatement (Some e2) -> getText e2 = "2" ->
  In (Spec.ifElseSummary "x" "1" "2")
     (collect (processFunctionLogicNode fileName) (forEachChild body)).
Proof.
  intros Hbody Hif Hcond Hthen Hthen1 Hr1 He1 Helse Helse1 Hr2 He2.
  apply (collect_In _ _ ifNode).
  - rewrite Hbody. apply in_or_app. right. now left.
  - rewrite (logic_of_if _ _ _ _ _ Hif), Hcond.
    rewrite (logic_of_block _ _ Hthen), Hthen1, (logic_of_block _ _ Helse), Helse1.
    simpl. rewrite (logic_of_return _ _ _ Hr1), (logic_of_return _ _ _ Hr2), He1, He2.
    reflexivity.
Qed.

Lemma function_type (fileName : string) (f body : Node) (summary : LlmAstNode) :
  Spec.functionWithBody f body -> processNode fileName f = Some summary ->
  In (Spec.typeOf summary) Terms.functionTypes.
Proof.
  destruct f as [i s c]. unfold Spec.functionWithBody. cbn [shapeOf].
  intros [(k & name & parameters & ty & ->)|(parameters & ->)];
    destruct body as [bi bs bc]; rewrite processNode_eq; [destruct k|];
    cbn; intros H; injection H as H; subst summary; cbn; tauto.
Qed.

Lemma everywhere_child (fields : Fields) (lf : option (list LlmAstNode))
    (l : list LlmAstNode) (c m : LlmAstNode) :
  In c l -> In m (Terms.everywhere c) ->
  In m (Terms.everywhere (Llm fields lf (Some l))).
Proof.
  intros Hc Hm. cbn [Terms.everywhere]. right. apply in_or_app. right.
  apply in_flat_map. now exists c.
Qed.

(** Where [processNode] goes, it keeps what it gets: the summary of a node
    it is called on, with its logic flow and its type, is in the summary of
    the node the traversal started from. *)
Lemma visits_flow (fileName : string) (n f : Node) :
  Terms.visits n f ->
  forall sf, processNode fileName f = Some sf ->
  exists sn m,
    processNode fileName n = Some sn /\ In m (Terms.everywhere sn)
    /\ logicFlowOf m = logicFlowOf sf /\ Spec.typeOf m = Spec.typeOf sf.
Proof.
  induction 1 as [f|info shape children c f Hskip Hrec Hin _ IH
                 |info name clauses members children c f Hin _ IH
                 |info name members children c f Hin _ IH
                 |info listInfo declInfo listShape declarations declChildren children
                    name ty init f Hin Harrow _ IH];
    intros sf Hsf.
  - exists sf, sf. repeat split; [exact Hsf|]. destruct sf. now left.
  - destruct (IH sf Hsf) as (sc & m & Hc & Hm & Hflow & Hty).
    pose proof (collect_In (processNode fileName) children c sc Hin Hc) as Hcol.
    rewrite processNode_eq. unfold processNodeWith.
    unfold Terms.skippedNode in Hskip. rewrite Hskip.
    destruct (collect (processNode fileName) children) as [|x l] eqn:E; [contradiction|].
    destruct shape; try discriminate Hrec; cbn [isEmpty];
      eexists; exists m; (split; [reflexivity|]); (split; [|now split]);
      now apply (everywhere_child _ _ _ sc).
  - destruct (IH sf Hsf) as (sc & m & Hc & Hm & Hflow & Hty).
    pose proof (collect_In (processNode fileName) members c sc Hin Hc) as Hcol.
    rewrite processNode_eq. cbn.
    eexists; exists m; (split; [reflexivity|]); (split; [|now split]).
    now apply (everywhere_child _ _ _ sc).
  - destruct (IH sf Hsf) as (sc & m & Hc & Hm & Hflow & Hty).
    pose proof (collect_In (processNode fileName) members c sc Hin Hc) as Hcol.
    rewrite processNode_eq. cbn.
    eexists; exists m; (split; [reflexivity|]); (split; [|now split]).
    now apply (everywhere_child _ _ _ sc).
  - destruct (IH sf Hsf) as ([fields lf ch] & m & Hc & Hm & Hflow & Hty).
    set (renamed := Llm (set_modifiers (set_name fields (Some name))
                           (Some (getModifiers info ++
                                  match modifiers fields with
                                  | Some l => l
                                  | None => []
                                  end)%list)) lf ch).
    assert (Hlit : literalValue init = None).
    { unfold isArrowFunction in Harrow. unfold literalValue.
      destruct (shapeOf init); try discriminate; reflexivity. }
    rewrite processNode_eq. cbn.
    match goal with
    | |- context [collect ?perDeclaration declarations] =>
        assert (Hren : In renamed (collect perDeclaration declarations))
          by (eapply (collect_In _ _ _ renamed Hin); cbn;
              rewrite Hlit, Harrow, Hc; reflexivity)
    end.
    cbn [Terms.everywhere] in Hm. destruct Hm as [<-|Hm].
    + eexists. exists renamed. split; [reflexivity|]. split; [|now split].
      apply (everywhere_child _ _ _ renamed); [exact Hren|]. now left.
    + eexists. exists m. split; [reflexivity|]. split; [|now split].
      apply (everywhere_child _ _ _ renamed); [exact Hren|]. now right.
Qed.




Example summary_of_pick :
  option_map logicFlowOf (processNode "pick.ts" Examples.pick)
  = Some (Some [Spec.ifElseSummary "x" "1" "2"]).
Proof. reflexivity. Qed.

Example summary_of_pick_file :
  option_map (List.map (fun n => (Spec.typeOf n, name_ (fieldsOf n), logicFlowOf n)))
    (parseTypeScriptApiAndStructure Examples.pickFile)
  = Some [("Function", Some "pick", Some [Spec.ifElseSummary "x" "1" "2"])].
Proof. reflexivity. Qed.

(** C8.  For a source file with the import of [Foo] and of [Bar as Baz]
    from [./mod] among its statements, in single or double quotes, the
    summary has the [Import] node with the module specifier [./mod] and
    exactly the two imported elements: [Foo] without alias, and [Baz] with
    the alias [Bar]. *)
Theorem named_import_summary (double : bool) (sourceInfo importInfo : NodeInfo)
    (fileName : string) (before after importChildren : list Node) :
  let quote := if double then Spec.doubleQuote else Spec.singleQuote in
  let sourceFile :=
    mkNode sourceInfo (SourceFile fileName)
      (before ++ Examples.importDeclaration quote importInfo importChildren :: after) in
  exists summaries,
    parseTypeScriptApiAndStructure sourceFile = Some summaries /\
    In (Spec.importFooBaz importInfo) summaries.
Proof.
  intros quote sourceFile. subst sourceFile.
  unfold parseTypeScriptApiAndStructure. rewrite processNode_eq.
  cbn [shapeOf processNodeWith isToken kindName String.eqb Ascii.eqb Bool.eqb orb
       childrenOf].
  eexists. split; [reflexivity|].
  apply (collect_In _ _ (Examples.importDeclaration quote importInfo importChildren)).
  - apply in_or_app. right. now left.
  - rewrite processNode_eq. subst quote. destruct double; reflexivity.
Qed.

Example summary_of_import :
  parseTypeScriptApiAndStructure Examples.importFile
  = Some [Spec.importFooBaz (mkInfo "" [] (Some []))].
Proof. reflexivity. Qed.

End Summarizer.

(** ** More on the walker *)

Module WalkerMore.
Import Js Codebase StringFacts WalkFacts CodebaseFacts.

(** X1.  Every default pattern is looked for anywhere in the path, once its
    first dollar sign is removed: a path that contains the rest of the
    pattern is never added to the map, wherever in the path that is. *)
Theorem pattern_anywhere_never_extracted (sched : Git.Schedule)
    (root : Result Git.Object) (st : WalkState) (currentPath P pat : string) :
  In pat Spec.defaults ->
  includes (replace "$" "" pat) P = true ->
  fileContents (snd (walkTree sched root st Spec.patterns currentPath)) !! P
  = fileContents st !! P.
Proof.
  intros Hin H. rewrite patterns_eq. apply walkTree_lookup. left.
  now apply (ignored_by_member _ pat).
Qed.

Lemma pattern_anywhere_never_extracted_witness :
  Path.extname "src/.mdx-loader.ts" = ".ts"
  /\ Spec.extracted [] (Ok Samples.loaderRepo) !! "src/.mdx-loader.ts" = None.
Proof.
  split; [reflexivity|].
  apply (pattern_anywhere_never_extracted [] (Ok Samples.loaderRepo) Spec.start ""
           "src/.mdx-loader.ts" ".md$"); [simpl; auto 12 | reflexivity].
Defined.

(** X2.  When no blob whose path passes is unreadable and at most eleven
    blobs pass, then in whatever order the calls of the walk go on, the
    walk does not throw and the map holds an entry for exactly the paths of
    those blobs.  A path passes when it is not empty, contains none of the
    rejected texts, and has a supported extension. *)
Theorem extracted_exactly_candidates (sched : Git.Schedule) (root : Git.Object) :
  Terms.readable root ->
  List.length (Terms.candidates root) <= 11 ->
  fst (walkTree sched (Ok root) Spec.start Spec.patterns "") = Ok tt
  /\ forall P, is_Some (Spec.extracted sched (Ok root) !! P)
              <-> In P (Terms.candidates root).
Proof.
  intros Hread Hcount. split; [now apply walkTree_succeeds | now apply walkTree_keys].
Qed.

Lemma extracted_exactly_candidates_witness :
  Terms.candidates Examples.smallRepo = ["src/add.ts"; "src/index.php"]
  /\ forall P, is_Some (Spec.extracted Samples.levelByLevel (Ok Examples.smallRepo) !! P)
              <-> In P ["src/add.ts"; "src/index.php"].
Proof.
  split; [vm_compute; reflexivity|].
  refine (proj2 (extracted_exactly_candidates Samples.levelByLevel Examples.smallRepo _ _)).
  - intros q e Hin. vm_compute in Hin.
    repeat (destruct Hin as [Hin|Hin]; [discriminate|]). contradiction.
  - vm_compute. lia.
Defined.

(** *** Trimmed lines *)

Lemma trimStart_tight (s : string) : Terms.startsTight (trimStart s) = true.
Proof.
  induction s as [|c s IH]; [reflexivity|]. simpl.
  destruct (isWhiteSpace c) eqn:E; [exact IH|]. simpl. now rewrite E.
Qed.

Lemma trimEnd_ends (s : string) : Terms.endsTight (trimEnd s) = true.
Proof.
  induction s as [|c s IH]; [reflexivity|]. cbn [trimEnd].
  destruct (trimEnd s) as [|d r] eqn:E.
  - destruct (isWhiteSpace c) eqn:Ec; [reflexivity|]. simpl. now rewrite Ec.
  - exact IH.
Qed.

Lemma trimEnd_starts (s : string) :
  Terms.startsTight s = true -> Terms.startsTight (trimEnd s) = true.
Proof.
  destruct s as [|c s]; [reflexivity|]. cbn [Terms.startsTight trimEnd]. intros Hc.
  destruct (trimEnd s); [|exact Hc].
  destruct (isWhiteSpace c) eqn:E; [discriminate|].
  cbn [Terms.startsTight]. now rewrite E.
Qed.

Lemma tight_trimStart (s : string) : Terms.startsTight s = true -> trimStart s = s.
Proof.
  destruct s as [|c s]; [reflexivity|]. simpl. now destruct (isWhiteSpace c).
Qed.

Lemma tight_trimEnd (s : string) : Terms.endsTight s = true -> trimEnd s = s.
Proof.
  induction s as [|c s IH]; [reflexivity|]. cbn [Terms.endsTight trimEnd].
  destruct s as [|d r].
  - simpl. now destruct (isWhiteSpace c).
  - intros H. now rewrite (IH H).
Qed.

Lemma tight_trim (s : string) :
  Terms.startsTight s = true -> Terms.endsTight s = true -> trim s = s.
Proof.
  intros H1 H2. unfold trim. rewrite (tight_trimStart _ H1). now apply tight_trimEnd.
Qed.

Lemma substring_all (s : string) : substring 0 (String.length s) s = s.
Proof. induction s as [|c s IH]; [reflexivity|]. simpl. now rewrite IH. Qed.

(** Removing the first tab, character by character. *)
Lemma replace_tab_cons (c : ascii) (s : string) :
  replace tab "" (String c s)
  = if Ascii.eqb c (ascii_of_nat 9) then s else String c (replace tab "" s).
Proof.
  cbn [replace].
  assert (Hp : String.prefix tab (String c s) = Ascii.eqb c (ascii_of_nat 9)).
  { unfold tab. cbn [String.prefix].
    destruct (ascii_dec (ascii_of_nat 9) c) as [<-|ne].
    - rewrite Ascii.eqb_refl. now destruct s.
    - destruct (Ascii.eqb_spec c (ascii_of_nat 9)) as [->|_];
        [now destruct ne | reflexivity]. }
  rewrite Hp. destruct (Ascii.eqb c (ascii_of_nat 9)); [|reflexivity].
  rewrite app_nil_l. change (String.length tab) with 1.
  cbn [String.length substring Nat.sub]. rewrite Nat.sub_0_r. apply substring_all.
Qed.

Lemma replace_tab_tight (s : string) :
  Terms.startsTight s = true -> Terms.endsTight s = true ->
  Terms.startsTight (replace tab "" s) = true /\ Terms.endsTight (replace tab "" s) = true.
Proof.
  intros Hstart Hend. split.
  - destruct s as [|c s]; [reflexivity|]. rewrite replace_tab_cons.
    cbn [Terms.startsTight] in Hstart.
    destruct (Ascii.eqb_spec c (ascii_of_nat 9)) as [->|_]; [discriminate | exact Hstart].
  - clear Hstart. induction s as [|c s IH]; [reflexivity|]. rewrite replace_tab_cons.
    destruct (Ascii.eqb_spec c (ascii_of_nat 9)) as [->|ne].
    + destruct s; [discriminate | exact Hend].
    + destruct s as [|d r]; [exact Hend|].
      cbn [Terms.endsTight] in Hend. specialize (IH Hend).
      destruct (replace tab "" (String d r)) as [|d' r'] eqn:E; [|exact IH].
      rewrite replace_tab_cons in E.
      destruct (Ascii.eqb_spec d (ascii_of_nat 9)) as [->|_]; [|discriminate].
      subst r. discriminate.
Qed.

(** *** Blank lines and comments *)

Lemma trim_blank (line : string) :
  Terms.blankOrComment line = true ->
  trim line = "" \/ exists rest, trim line = String "#" rest.
Proof.
  induction line as [|c line IH]; [now left|]. cbn [Terms.blankOrComment].
  unfold trim in *. cbn [trimStart].
  destruct (isWhiteSpace c) eqn:Hc; [exact IH|].
  intros Hsharp. apply Ascii.eqb_eq in Hsharp. subst c. right. cbn [trimEnd].
  destruct (trimEnd line) as [|d r]; eexists; reflexivity.
Qed.

(** A blank line or a comment gives no pattern. *)
Lemma blank_gives_no_pattern (line : string) :
  Terms.blankOrComment line = true ->
  negb (String.eqb (replace tab "" (trim line)) "")
  && negb (startsWith "#" (replace tab "" (trim line))) = false.
Proof.
  intros H. destruct (trim_blank line H) as [->|[rest ->]]; [reflexivity|].
  rewrite replace_tab_cons. change (Ascii.eqb "#" (ascii_of_nat 9)) with false. cbv iota.
  unfold startsWith. now destruct (replace tab "" rest).
Qed.

Lemma filter_none {A : Type} (f : A -> bool) (l : list A) :
  (forall x, In x l -> f x = false) -> List.filter f l = [].
Proof.
  induction l as [|x l IH]; [reflexivity|]. intros H. cbn [List.filter].
  rewrite (H x (or_introl eq_refl)). apply IH. intros y Hy. apply H. now right.
Qed.

Lemma parse_blank (patterns : string) :
  (forall line, In line (split (ascii_of_nat 10) patterns) ->
                Terms.blankOrComment line = true) ->
  parseIgnorePatterns patterns = RegExp (fun _ => true).
Proof.
  intros H. unfold parseIgnorePatterns. rewrite filter_none; [reflexivity|].
  intros p Hp. apply in_map_iff in Hp as (line & <- & Hline).
  now apply blank_gives_no_pattern, H.
Qed.

(** With the regular expression that matches every path, every call of
    the callback returns before its first await, and leaves the map as
    it is. *)
Lemma walk_all_ignored (sched : Git.Schedule) (root : Result Git.Object)
    (st : WalkState) (currentPath : string) :
  fileContents (snd (walkTree sched root st (RegExp (fun _ => true)) currentPath))
  = fileContents st.
Proof.
  unfold walkTree.
  apply (walk_rel (walkTreeMap (RegExp (fun _ => true)) currentPath)
           (fun s s' => fileContents s' = fileContents s) (fun _ _ => Logic.True)
           (fun t => Git.awaited t = 0)); try congruence; try trivial.
  - intros t s s1 Ht. rewrite Ht. unfold walkTreeMap, skipped.
    destruct (String.eqb (Git.taskPath t) ""); discriminate.
  - intros t s _ Ht. rewrite Ht.
    destruct (walkTreeMap_state (RegExp (fun _ => true)) currentPath (Git.taskPath t)
                (Git.taskEntry t) 0 s) as [H|[H _]]; [exact H | lia].
Qed.

(** X3.  When every line of the pattern text is blank or a comment,
    [parseIgnorePatterns] returns a regular expression that matches every
    path, and a walk with it adds nothing to the map, in whatever order
    its calls go on. *)
Theorem no_patterns_no_files (patterns : string) (sched : Git.Schedule)
    (root : Result Git.Object) (st : WalkState) (currentPath : string) :
  (forall line, In line (split (ascii_of_nat 10) patterns) ->
                Terms.blankOrComment line = true) ->
  exists test,
    parseIgnorePatterns patterns = RegExp test
    /\ (forall P, test P = true)
    /\ fileContents (snd (walkTree sched root st (parseIgnorePatterns patterns)
                            currentPath))
       = fileContents st.
Proof.
  intros H. exists (fun _ => true). rewrite (parse_blank patterns H).
  split; [reflexivity|]. split; [reflexivity|]. apply walk_all_ignored.
Qed.

Lemma no_patterns_no_files_witness :
  split (ascii_of_nat 10) Samples.commentsOnly = ["# nothing to ignore"; "   "; ""]
  /\ Spec.extracted [] (Ok Examples.smallRepo) !! "src/add.ts" <> None
  /\ exists test,
       parseIgnorePatterns Samples.commentsOnly = RegExp test
       /\ (forall P, test P = true)
       /\ fileContents (snd (walkTree [] (Ok Examples.smallRepo) Spec.start
                               (parseIgnorePatterns Samples.commentsOnly) ""))
          = ∅.
Proof.
  split; [reflexivity|]. split; [vm_compute; discriminate|].
  apply (no_patterns_no_files Samples.commentsOnly [] (Ok Examples.smallRepo)
           Spec.start "").
  intros line Hin. vm_compute in Hin.
  destruct Hin as [<-|[<-|[<-|[]]]]; reflexivity.
Defined.

(** X4.  The pattern strings [parseIgnorePatterns] returns are at least one,
    and each of them is non-empty, is not a comment, and has no white space
    at either end. *)
Theorem parsed_patterns_tidy (patterns : string) (l : list string) :
  parseIgnorePatterns patterns = Patterns l ->
  l <> [] /\
  forall p, In p l -> p <> "" /\ startsWith "#" p = false /\ trim p = p.
Proof.
  unfold parseIgnorePatterns.
  set (lines := List.map (fun line => replace tab "" (trim line))
                  (split (ascii_of_nat 10) patterns)).
  destruct (List.length _ =? 0)%nat eqn:Hlen; [discriminate|]. intros [= <-].
  split.
  - intros E. rewrite E in Hlen. discriminate.
  - intros p Hp. apply List.filter_In in Hp as [Hin Hkeep].
    apply andb_true_iff in Hkeep as [Hne Hcomment].
    apply negb_true_iff in Hne, Hcomment. repeat split.
    + now apply String.eqb_neq.
    + exact Hcomment.
    + subst lines. apply in_map_iff in Hin as (line & <- & _).
      destruct (replace_tab_tight (trim line)) as [H1 H2].
      * unfold trim. apply trimEnd_starts, trimStart_tight.
      * apply trimEnd_ends.
      * now apply tight_trim.
Qed.

Lemma parsed_patterns_tidy_witness :
  Spec.defaults <> [] /\
  forall p, In p Spec.defaults -> p <> "" /\ startsWith "#" p = false /\ trim p = p.
Proof.
  apply (parsed_patterns_tidy defaultIgnorePatterns Spec.defaults).
  vm_compute. reflexivity.
Defined.

(** A path in the map has a supported extension and is not empty. *)
Lemma extracted_supported (sched : Git.Schedule) (root : Result Git.Object) (P : string)
    (v : FileContent) :
  Spec.extracted sched root !! P = Some v -> isSupportedExtension P = true.
Proof.
  intros H. destruct (isSupportedExtension P) eqn:E; [reflexivity|].
  unfold Spec.extracted in H. rewrite patterns_eq, walkTree_lookup in H.
  - cbn in H. now rewrite lookup_empty in H.
  - left. apply ignored_unsupported; [discriminate | exact E].
Qed.

Lemma supported_In (P : string) :
  isSupportedExtension P = true -> In (Path.extname P) (split " " supportedExtensions).
Proof.
  unfold isSupportedExtension. generalize (Path.extname P) as ext. intros ext H.
  apply existsb_exists in H as (x & Hin & Hx). apply String.eqb_eq in Hx. now subst.
Qed.

Lemma supported_fences :
  forallb (fun ext => Bool.eqb (String.eqb (fenceFor ext) "```")
                        (existsb (String.eqb ext) [".php"; ".rs"; ".swift"]))
          (split " " supportedExtensions) = true.
Proof. vm_compute. reflexivity. Qed.

(** X5.  Of the files the walk extracts, exactly those with the extension
    [.php], [.rs] or [.swift] get the bare fence; every other extracted
    file gets a labelled one. *)
Theorem bare_fence_extensions (sched : Git.Schedule) (root : Result Git.Object)
    (P : string) (v : FileContent) :
  Spec.extracted sched root !! P = Some v ->
  (Spec.fence P = "```" <-> In (Path.extname P) [".php"; ".rs"; ".swift"]).
Proof.
  intros H. apply extracted_supported, supported_In in H.
  pose proof (proj1 (forallb_forall _ _) supported_fences _ H) as Hext.
  apply Bool.eqb_prop in Hext. rewrite fenceFor_fence in Hext.
  rewrite <- String.eqb_eq, Hext, existsb_exists. split.
  - intros (x & Hx & Hxe). apply String.eqb_eq in Hxe. now subst.
  - intros Hx. exists (Path.extname P). split; [exact Hx | apply String.eqb_refl].
Qed.

Lemma bare_fence_extensions_witness :
  (Spec.fence "src/index.php" = "```"
   <-> In (Path.extname "src/index.php") [".php"; ".rs"; ".swift"])
  /\ (Spec.fence "src/add.ts" = "```"
      <-> In (Path.extname "src/add.ts") [".php"; ".rs"; ".swift"]).
Proof.
  split.
  - apply (bare_fence_extensions [] (Ok Examples.smallRepo) "src/index.php"
             (mkFileContent "src/index.php" ("```" ++ nl ++ "<?php" ++ nl ++ "```"))).
    vm_compute. reflexivity.
  - apply (bare_fence_extensions Samples.levelByLevel (Ok Examples.smallRepo) "src/add.ts"
             (mkFileContent "src/add.ts"
                ("```typescript" ++ nl ++ "export function add() {}" ++ nl
                 ++ "```typescript"))).
    vm_compute. reflexivity.
Defined.

End WalkerMore.

(** ** More on [getRepositoryData] *)

Module WorkspaceMore.
Import Js Codebase StringFacts WalkFacts CodebaseFacts.

Lemma listing_In (e : string * Git.Object) (l : list (string * Git.Object)) :
  In e l -> exists before after, Spec.listing l = before ++ Spec.lineOf e ++ after.
Proof.
  intros H. apply in_split in H as (l1 & l2 & ->).
  exists (Spec.listing l1), (Spec.listing l2). now rewrite listing_app.
Qed.

(** X6.  When the directory is made, the clone succeeds, the listing of the
    commit is not empty and no blob whose path passes is unreadable,
    [getRepositoryData] returns, whatever the final removal does and in
    whatever order the calls of the two walks go on: the map of the walk,
    and a listing made of one line for every entry of the tree. *)
Theorem readable_repository_succeeds (env : Env) (branch : string) (w : World)
    (dir : string) (files : list string) (root : Git.Object) :
  mkdtemp env = Ok dir -> clone env = Ok tt -> listFiles env = Ok files ->
  files <> [] -> tree env = Ok root -> Terms.readable root ->
  exists l,
    Permutation l (List.filter Spec.named (Git.entries "." root))
    /\ fst (getRepositoryData env branch w)
       = Ok (mkData (Spec.extracted (extraction env) (Ok root)) (Spec.listing l)).
Proof.
  intros Hdir Hclone Hfiles Hne Htree Hread.
  destruct (structure_outcome (listing env) root) as (l & Hperm & Hlist).
  exists l. split; [exact Hperm|].
  rewrite (after_listing env branch w dir files Hdir Hclone Hfiles Hne), Htree, Hlist.
  unfold Spec.extracted. pose proof (walkTree_succeeds (extraction env) root Hread) as Hok.
  destruct (walkTree (extraction env) (Ok root) Spec.start Spec.patterns "")
    as [[u|e] st]; [reflexivity | discriminate].
Qed.

Lemma readable_repository_succeeds_witness :
  Terms.readable Examples.smallRepo
  /\ exists l,
       Permutation l (List.filter Spec.named (Git.entries "." Examples.smallRepo))
       /\ fst (getRepositoryData
                 (Samples.envWith [] Samples.levelByLevel Examples.smallRepo) "HEAD"
                 Examples.emptyWorld)
          = Ok (mkData (Spec.extracted [] (Ok Examples.smallRepo)) (Spec.listing l)).
Proof.
  assert (Hread : Terms.readable Examples.smallRepo).
  { intros q e Hin. vm_compute in Hin.
    repeat (destruct Hin as [Hin|Hin]; [discriminate|]). contradiction. }
  split; [exact Hread|].
  apply (readable_repository_succeeds
           (Samples.envWith [] Samples.levelByLevel Examples.smallRepo) "HEAD"
           Examples.emptyWorld Examples.tmp ["a.ts"] Examples.smallRepo);
    [reflexivity | reflexivity | reflexivity | discriminate | reflexivity | exact Hread].
Defined.

(** X7.  Every path in the map [getRepositoryData] returns has its line,
    marked as a file, in the structure listing it returns with it. *)
Theorem extracted_paths_are_listed (env : Env) (branch : string) (w : World)
    (data : RepositoryData) (P : string) (v : FileContent) :
  fst (getRepositoryData env branch w) = Ok data ->
  dataFileContents data !! P = Some v ->
  exists before after, structure data = before ++ structureLine P "file" ++ after.
Proof.
  intros Hdata Hlook. destruct (result_is_walk _ _ _ _ Hdata) as [Hmap Hlist].
  rewrite Hmap in Hlook. destruct (tree env) as [root|e]; [|discriminate].
  assert (Hnamed : Spec.named (P, Git.Blob (Ok "")) = true).
  { apply WalkerMore.extracted_supported in Hlook.
    unfold Spec.named. cbn [fst]. destruct (String.eqb_spec P "") as [->|_];
      [discriminate | reflexivity]. }
  assert (Hfenced : Spec.fenced root Spec.start).
  { intros q x Hq. cbn in Hq. now rewrite lookup_empty in Hq. }
  apply (walkTree_fenced (extraction env) root Spec.patterns) in Hfenced.
  destruct (Hfenced P v Hlook) as (_ & raw & Hin & _).
  destruct (structure_outcome (listing env) root) as (l & Hperm & Hl).
  rewrite Hl in Hlist. injection Hlist as <-.
  destruct (listing_In (P, Git.Blob (Ok raw)) l) as (before & after & ->).
  - apply (Permutation_in _ (Permutation_sym Hperm)).
    apply List.filter_In. split; [exact Hin | exact Hnamed].
  - exists before, after. now rewrite <- structureLine_lineOf.
Qed.

Lemma extracted_paths_are_listed_witness :
  exists before after,
    Spec.listing (List.filter Spec.named (Git.entries "." Examples.smallRepo))
    = before ++ structureLine "src/add.ts" "file" ++ after.
Proof.
  apply (extracted_paths_are_listed (Examples.envOf Examples.smallRepo) "HEAD"
           Examples.emptyWorld
           (mkData (Spec.extracted [] (Ok Examples.smallRepo))
              (Spec.listing (List.filter Spec.named (Git.entries "." Examples.smallRepo))))
           "src/add.ts"
           (mkFileContent "src/add.ts"
              ("```typescript" ++ nl ++ "export function add() {}" ++ nl ++ "```typescript")));
    vm_compute; reflexivity.
Defined.

End WorkspaceMore.

(** ** Lists *)

Module ListFacts.
Lemma last_nonempty {A : Type} (l : list A) (x d1 d2 : A) :
  List.last (x :: l) d1 = List.last (x :: l) d2.
Proof.
  revert x. induction l as [|y l IH]; intros x; [reflexivity|]. apply (IH y).
Qed.

Lemma last_app_cons {A : Type} (l1 l2 : list A) (x d1 d2 : A) :
  List.last (l1 ++ x :: l2) d1 = List.last (x :: l2) d2.
Proof.
  induction l1 as [|a l1 IH]; [apply last_nonempty|]. rewrite <- IH.
  destruct l1; reflexivity.
Qed.
End ListFacts.

(** ** More on the summarizer *)

Module SummarizerMore.
Import Js Parser StringFacts ListFacts Summarizer.

(** *** Sizes *)

Lemma size_In (c : Node) (l : list Node) :
  In c l -> Terms.nodeSize c <= list_sum (List.map Terms.nodeSize l).
Proof.
  induction l as [|x l IH]; simpl; [contradiction|].
  intros [->|H]; [lia|]. specialize (IH H). lia.
Qed.

Lemma nodeSize_eq (i : NodeInfo) (s : Shape) (c : list Node) :
  Terms.nodeSize (mkNode i s c)
  = S (Terms.shapeSize s + list_sum (List.map Terms.nodeSize c)).
Proof. reflexivity. Qed.

Lemma size_child (i : NodeInfo) (s : Shape) (l : list Node) (c : Node) :
  In c l -> Terms.nodeSize c < Terms.nodeSize (mkNode i s l).
Proof. intros H. apply size_In in H. rewrite nodeSize_eq. lia. Qed.

Lemma size_shape (i : NodeInfo) (s : Shape) (l : list Node) (c : Node) :
  Terms.nodeSize c <= Terms.shapeSize s -> Terms.nodeSize c < Terms.nodeSize (mkNode i s l).
Proof. intros H. rewrite nodeSize_eq. lia. Qed.

(** *** Building shaped summaries *)

Lemma shaped_intro (f : Fields) (lf ch : option (list LlmAstNode)) :
  Terms.wellShaped (Llm f lf ch) = true ->
  (forall l, lf = Some l -> Forall Terms.shapedThroughout l) ->
  (forall l, ch = Some l -> Forall Terms.shapedThroughout l) ->
  Terms.shapedThroughout (Llm f lf ch).
Proof.
  intros Hw Hlf Hch. unfold Terms.shapedThroughout. cbn [Terms.everywhere].
  constructor; [exact Hw|]. apply Forall_app. split.
  - destruct lf as [l|]; [|constructor]. apply List.Forall_flat_map. now apply Hlf.
  - destruct ch as [l|]; [|constructor]. apply List.Forall_flat_map. now apply Hch.
Qed.

Lemma shaped_leaf (f : Fields) :
  Terms.wellShaped (Llm f None None) = true -> Terms.shapedThroughout (Llm f None None).
Proof. intros H. apply shaped_intro; [exact H | discriminate | discriminate]. Qed.

Lemma shaped_children (f : Fields) (l : list LlmAstNode) :
  Terms.wellShaped (Llm f None (Some l)) = true ->
  Forall Terms.shapedThroughout l ->
  Terms.shapedThroughout (Llm f None (Some l)).
Proof.
  intros H Hl. apply shaped_intro; [exact H | discriminate | now intros ? [= <-]].
Qed.

(** Only the type of a node, its logic flow and its children matter. *)
Lemma shaped_retag (f g : Fields) (lf ch : option (list LlmAstNode)) :
  type_ g = type_ f ->
  Terms.shapedThroughout (Llm f lf ch) -> Terms.shapedThroughout (Llm g lf ch).
Proof.
  intros Hty H. unfold Terms.shapedThroughout in *. cbn [Terms.everywhere] in *.
  inversion H as [|? ? Hw Hrest]; subst. constructor; [|exact Hrest].
  unfold Terms.wellShaped, Terms.hasChild, Spec.typeOf in *.
  cbn [fieldsOf logicFlowOf childrenOf] in *. now rewrite Hty.
Qed.

Lemma collect_shaped {A : Type} (f : A -> option LlmAstNode) (l : list A) :
  (forall x y, In x l -> f x = Some y -> Terms.shapedThroughout y) ->
  Forall Terms.shapedThroughout (collect f l).
Proof.
  induction l as [|a l IH]; intros H; cbn [collect]; [constructor|].
  destruct (f a) as [y|] eqn:E.
  - constructor; [apply (H a); [now left | exact E]|].
    apply IH. intros x z Hx. apply H. now right.
  - apply IH. intros x z Hx. apply H. now right.
Qed.

Lemma nonempty_hasChild {A : Type} (l : list A) :
  isEmpty l = false -> exists c r, l = c :: r.
Proof. destruct l as [|c r]; [discriminate|]. intros _. now exists c, r. Qed.

Lemma heritage_type (clauses : list HeritageClause) (f : Fields) :
  type_ (heritage clauses f) = type_ f.
Proof.
  unfold heritage. revert f. induction clauses as [|c clauses IH]; intros f; [reflexivity|].
  cbn [fold_left]. rewrite IH. generalize (types c) f. clear.
  induction l as [|ty l IH]; intros f; [reflexivity|].
  cbn [fold_left]. rewrite IH. now destruct (token c).
Qed.


Lemma shaped_holder (f : Fields) (c : LlmAstNode) (l : list LlmAstNode) :
  String.eqb (type_ f) "Unknown" = false ->
  String.eqb (type_ f) "UnknownLogic" = false ->
  Terms.wellShaped (Llm f None (Some (c :: l))) = true.
Proof.
  intros H1 H2. unfold Terms.wellShaped, Terms.hasChild, Spec.typeOf.
  cbn [fieldsOf logicFlowOf childrenOf]. rewrite H1, H2.
  now destruct (Terms.isContainer (type_ f)).
Qed.

Ltac leaf := intros [= <-]; apply shaped_leaf; reflexivity.

Lemma processNodeWith_shaped (pn pl : Node -> option LlmAstNode) (fileName : string)
    (node : Node) :
  (forall c r, Terms.nodeSize c < Terms.nodeSize node -> pn c = Some r ->
               Terms.shapedThroughout r) ->
  (forall c r, Terms.nodeSize c < Terms.nodeSize node -> pl c = Some r ->
               Terms.shapedThroughout r) ->
  forall r, processNodeWith pn pl fileName node = Some r -> Terms.shapedThroughout r.
Proof.
  destruct node as [info shape children]. intros Hpn Hpl r.
  assert (Hchildren : Forall Terms.shapedThroughout (collect pn children)).
  { apply collect_shaped. intros c y Hc. apply Hpn. now apply size_child. }
  unfold processNodeWith.
  destruct (isToken shape || _ || _); [discriminate|].
  set (nodeRep := set_modifiers (set_jsDoc (bare "Unknown") (getJSDoc info))
                    (Some (getModifiers info))).
  assert (Hdefault : forall k,
             (if isEmpty (collect pn children) then None
              else Some (Llm (set_type nodeRep ("GenericContainer (" ++ k ++ ")"))
                             None (Some (collect pn children)))) = Some r ->
             Terms.shapedThroughout r).
  { intros k. destruct (collect pn children) as [|c l]; [discriminate|].
    intros [= <-]. apply shaped_children; [|exact Hchildren].
    now apply shaped_holder. }
  destruct shape as [f|spec clause|spec typeOnly clause|k name parameters ty body
                    |parameters body|name clauses members|name ty init|name ty
                    |name members|name ty|name members|declarationList|name ty init
                    |e t el|e|e args|e|t|t|k|k];
    try apply Hdefault.
  - intros [= <-]. apply shaped_children; [reflexivity | exact Hchildren].
  - leaf.
  - intros [= <-]. apply shaped_leaf. now destruct typeOnly.
  - intros [= <-]. apply shaped_intro.
    + destruct k, body as [[bi bs statements]|]; reflexivity.
    + intros l Hl. destruct body as [[bi bs statements]|]; [|discriminate].
      injection Hl as <-. apply collect_shaped. intros c y Hc. apply Hpl.
      apply size_child with (i := bi) (s := bs) in Hc.
      rewrite (nodeSize_eq info). cbn [Terms.shapeSize]. lia.
    + discriminate.
  - intros [= <-]. apply shaped_intro.
    + destruct body as [[bi bs statements]|]; reflexivity.
    + intros l Hl. destruct body as [[bi bs statements]|]; [|discriminate].
      injection Hl as <-. apply collect_shaped. intros c y Hc. apply Hpl.
      apply size_child with (i := bi) (s := bs) in Hc.
      rewrite (nodeSize_eq info). cbn [Terms.shapeSize]. lia.
    + discriminate.
  - intros [= <-]. apply shaped_children.
    + unfold Terms.wellShaped, Terms.hasChild, Spec.typeOf.
      cbn [fieldsOf logicFlowOf childrenOf].
      destruct clauses; [rewrite heritage_type|]; reflexivity.
    + apply collect_shaped. intros c y Hc. apply Hpn, size_shape.
      cbn [Terms.shapeSize]. now apply size_In.
  - intros [= <-]. apply shaped_leaf.
    destruct init as [init|]; [destruct (literalValue init)|]; reflexivity.
  - leaf.
  - intros [= <-]. apply shaped_children; [reflexivity|].
    apply collect_shaped. intros c y Hc. apply Hpn, size_shape.
    cbn [Terms.shapeSize]. now apply size_In.
  - leaf.
  - intros [= <-]. apply shaped_children; [reflexivity|].
    apply List.Forall_map, List.Forall_forall. intros m _. now apply shaped_leaf.
  - destruct declarationList as [di ds declarations]. intros [= <-].
    apply shaped_children; [reflexivity|]. apply collect_shaped.
    intros [ni ns nc] y Hd.
    destruct ns as [| | | | | | | | | | | |name ty init| | | | | | | |]; try discriminate.
    destruct init as [init|]; [|leaf].
    destruct (literalValue init); [leaf|].
    destruct (isArrowFunction init); [|leaf].
    destruct (pn init) as [[f lf ch]|] eqn:E; [|leaf].
    intros [= <-]. apply (shaped_retag f); [reflexivity|].
    apply (Hpn init); [|exact E].
    apply size_child with (i := di) (s := ds) in Hd.
    rewrite (nodeSize_eq info). rewrite (nodeSize_eq ni) in Hd.
    cbn [Terms.shapeSize] in *. lia.
Qed.


Lemma loop_kinds (k : string) :
  isLoopKind k = true ->
  In k ["ForStatement"; "WhileStatement"; "SwitchStatement"; "TryStatement"].
Proof.
  unfold isLoopKind. rewrite !orb_true_iff, !String.eqb_eq.
  intros [[[->| ->]| ->]| ->]; simpl; tauto.
Qed.

Lemma logic_shaped (fileName : string) (node : Node) :
  (forall c r, Terms.nodeSize c < Terms.nodeSize node ->
               processFunctionLogicNode fileName c = Some r -> Terms.shapedThroughout r) ->
  (forall r, processNode fileName node = Some r -> Terms.shapedThroughout r) ->
  forall r, processFunctionLogicNode fileName node = Some r -> Terms.shapedThroughout r.
Proof.
  destruct node as [info shape children]. intros Hpl Hpn r.
  cbn [processFunctionLogicNode].
  rewrite <- (processNode_eq fileName (mkNode info shape children)).
  assert (Hvariable :
            match processNode fileName (mkNode info shape children) with
            | Some v => if isVariableNode v then Some v else None
            | None => None
            end = Some r -> Terms.shapedThroughout r).
  { destruct (processNode fileName (mkNode info shape children)) as [v|];
      [|discriminate].
    destruct (isVariableNode v); [|discriminate]. intros [= <-]. now apply Hpn. }
  assert (Hkids : Forall Terms.shapedThroughout
                    (collect (processFunctionLogicNode fileName) children)).
  { apply collect_shaped. intros c y Hc. apply Hpl. now apply size_child. }
  assert (Hdefault : forall (k : string) (v : option LitValue),
             (if isEmpty (collect (processFunctionLogicNode fileName) children) then None
              else Some (Llm (set_value (bare ("NestedLogic (" ++ k ++ ")")) v) None
                             (Some (collect (processFunctionLogicNode fileName) children))))
             = Some r -> Terms.shapedThroughout r).
  { intros k v.
    destruct (collect (processFunctionLogicNode fileName) children) as [|c l];
      [discriminate|].
    intros [= <-]. apply shaped_children; [|exact Hkids]. now apply shaped_holder. }
  clear Hpn.
  destruct shape as [f|spec clause|spec typeOnly clause|k name parameters ty body
                    |parameters body|name clauses members|name ty init|name ty
                    |name members|name ty|name members|declarationList|name ty init
                    |e t el|e|e args|e|t|t|k|k];
    try apply Hdefault; try exact Hvariable.
  - intros [= <-]. apply shaped_children; [reflexivity|]. apply Forall_app. split.
    + destruct (processFunctionLogicNode fileName t) as [thenBlock|] eqn:E;
        [|constructor].
      constructor; [|constructor]. apply shaped_children; [reflexivity|].
      constructor; [|constructor]. apply (Hpl t); [|exact E].
      rewrite (nodeSize_eq info). cbn [Terms.shapeSize]. destruct el; lia.
    + destruct el as [el|]; [|constructor].
      destruct (processFunctionLogicNode fileName el) as [elseBlock|] eqn:E;
        [|constructor].
      constructor; [|constructor]. apply shaped_children; [reflexivity|].
      constructor; [|constructor]. apply (Hpl el); [|exact E].
      rewrite (nodeSize_eq info). cbn [Terms.shapeSize]. lia.
  - leaf.
  - intros [= <-]. apply shaped_children; [reflexivity|].
    apply List.Forall_map, List.Forall_forall. intros m _. now apply shaped_leaf.
  - apply Hpl. rewrite (nodeSize_eq info). cbn [Terms.shapeSize]. lia.
  - destruct (String.eqb k "Block").
    { destruct (collect (processFunctionLogicNode fileName) children) as [|c l];
        [discriminate|].
      intros [= <-]. apply shaped_children; [reflexivity | exact Hkids]. }
    destruct (isLoopKind k) eqn:Hloop.
    { intros [= <-]. apply shaped_intro.
      - apply loop_kinds in Hloop.
        repeat (destruct Hloop as [<-|Hloop];
                [now destruct (collect (processFunctionLogicNode fileName) children)|]).
        contradiction.
      - discriminate.
      - intros l Hl.
        destruct (isEmpty (collect (processFunctionLogicNode fileName) children));
          [discriminate|].
        injection Hl as <-. exact Hkids. }
    destruct (String.eqb k "VariableDeclarationList");
      [exact Hvariable | apply Hdefault].
Qed.

(** Every node of every summary, of declarations and of logic alike, is
    well shaped. *)
Lemma summaries_shaped (fileName : string) :
  forall n node, Terms.nodeSize node < n ->
    (forall r, processNode fileName node = Some r -> Terms.shapedThroughout r)
    /\ (forall r, processFunctionLogicNode fileName node = Some r ->
                  Terms.shapedThroughout r).
Proof.
  induction n as [|n IH]; intros node Hsize; [lia|].
  assert (Hpn : forall r, processNode fileName node = Some r ->
                          Terms.shapedThroughout r).
  { intros r. rewrite processNode_eq. apply processNodeWith_shaped.
    - intros c y Hc. apply (IH c). lia.
    - intros c y Hc. apply (IH c). lia. }
  split; [exact Hpn|]. apply logic_shaped; [|exact Hpn].
  intros c y Hc. apply (IH c). lia.
Qed.

Lemma processNode_shaped (fileName : string) (node : Node) (r : LlmAstNode) :
  processNode fileName node = Some r -> Terms.shapedThroughout r.
Proof. apply (summaries_shaped fileName (S (Terms.nodeSize node))). lia. Qed.

Lemma parse_shaped (sourceFile : Node) (summaries : list LlmAstNode)
    (r m : LlmAstNode) :
  parseTypeScriptApiAndStructure sourceFile = Some summaries ->
  In r summaries -> In m (Terms.everywhere r) -> Terms.wellShaped m = true.
Proof.
  unfold parseTypeScriptApiAndStructure.
  destruct (processNode _ sourceFile) as [[f lf ch]|] eqn:E; [|discriminate].
  cbn [childrenOf]. intros -> Hr Hm. apply processNode_shaped in E.
  unfold Terms.shapedThroughout in E. rewrite List.Forall_forall in E. apply E.
  cbn [Terms.everywhere]. right. apply in_or_app. right.
  apply in_flat_map. now exists r.
Qed.


(** X8.  In what [parseTypeScriptApiAndStructure] returns, at any depth, a
    node with a logic flow is the summary of a function, a method, an arrow
    function or a constructor, and it has no children. *)
Theorem logic_flow_only_on_functions (sourceFile : Node)
    (summaries flow : list LlmAstNode) (r m : LlmAstNode) :
  parseTypeScriptApiAndStructure sourceFile = Some summaries ->
  In r summaries -> In m (Terms.everywhere r) ->
  logicFlowOf m = Some flow ->
  In (Spec.typeOf m) Terms.functionTypes /\ childrenOf m = None.
Proof.
  intros Hparse Hr Hm Hflow. pose proof (parse_shaped _ _ _ _ Hparse Hr Hm) as H.
  unfold Terms.wellShaped in H. rewrite Hflow in H.
  rewrite !andb_true_iff in H. destruct H as [[[[Hty Hch] _] _] _]. split.
  - apply existsb_exists in Hty as (ty & Hin & Heq).
    apply String.eqb_eq in Heq. now rewrite Heq.
  - now destruct (childrenOf m).
Qed.

Lemma logic_flow_only_on_functions_witness :
  In (Spec.typeOf Samples.pickSummary) Terms.functionTypes
  /\ childrenOf Samples.pickSummary = None.
Proof.
  apply (logic_flow_only_on_functions Examples.pickFile [Samples.pickSummary]
           [Spec.ifElseSummary "x" "1" "2"] Samples.pickSummary Samples.pickSummary);
    [vm_compute; reflexivity | now left | now left | reflexivity].
Defined.

(** X9.  In what [parseTypeScriptApiAndStructure] returns, at any depth, a
    [Block], [ThenBlock], [ElseBlock], [GenericContainer] or [NestedLogic]
    node has at least one child. *)
Theorem containers_never_empty (sourceFile : Node) (summaries : list LlmAstNode)
    (r m : LlmAstNode) :
  parseTypeScriptApiAndStructure sourceFile = Some summaries ->
  In r summaries -> In m (Terms.everywhere r) ->
  Terms.isContainer (Spec.typeOf m) = true ->
  exists c l, childrenOf m = Some (c :: l).
Proof.
  intros Hparse Hr Hm Hty. pose proof (parse_shaped _ _ _ _ Hparse Hr Hm) as H.
  unfold Terms.wellShaped in H. rewrite Hty in H.
  rewrite !andb_true_iff in H. destruct H as [_ H]. unfold Terms.hasChild in H.
  destruct (childrenOf m) as [[|c l]|]; try discriminate. now exists c, l.
Qed.

Lemma containers_never_empty_witness :
  exists c l,
    childrenOf (Spec.container "ThenBlock" [Spec.container "Block" [Spec.returnOf "1"]])
    = Some (c :: l).
Proof.
  apply (containers_never_empty Examples.pickFile [Samples.pickSummary]
           Samples.pickSummary);
    [vm_compute; reflexivity | now left | vm_compute; tauto | reflexivity].
Defined.

(** X10.  No node of what [parseTypeScriptApiAndStructure] returns keeps
    one of the two placeholder types the traversals start from. *)
Theorem types_never_placeholders (sourceFile : Node) (summaries : list LlmAstNode)
    (r m : LlmAstNode) :
  parseTypeScriptApiAndStructure sourceFile = Some summaries ->
  In r summaries -> In m (Terms.everywhere r) ->
  Spec.typeOf m <> "Unknown" /\ Spec.typeOf m <> "UnknownLogic".
Proof.
  intros Hparse Hr Hm. pose proof (parse_shaped _ _ _ _ Hparse Hr Hm) as H.
  unfold Terms.wellShaped in H. rewrite !andb_true_iff, !negb_true_iff in H.
  destruct H as [[[_ H1] H2] _]. now rewrite <- !String.eqb_neq.
Qed.

Lemma types_never_placeholders_witness :
  Spec.typeOf (Spec.returnOf "2") <> "Unknown"
  /\ Spec.typeOf (Spec.returnOf "2") <> "UnknownLogic".
Proof.
  apply (types_never_placeholders Examples.pickFile [Samples.pickSummary]
           Samples.pickSummary);
    [vm_compute; reflexivity | now left | vm_compute; tauto].
Defined.

(** X11.  [processFunctionLogicNode] returns null for every variable
    declaration and every variable declaration list: [processNode] gives
    them no summary of type [Variable] or [VariableDeclarationGroup].  Only
    a whole variable statement gets a node in a logic flow; the variables
    declared in the head of a loop get none. *)
Theorem bare_declarations_leave_no_logic (fileName : string) (node : Node) :
  (exists name ty init, shapeOf node = VariableDeclaration name ty init)
  \/ shapeOf node = Other "VariableDeclarationList" ->
  processFunctionLogicNode fileName node = None.
Proof.
  destruct node as [info shape children]. cbn [shapeOf].
  intros [(name & ty & init & ->)| ->]; cbn [processFunctionLogicNode];
    unfold processNodeWith; cbn [isToken kindName];
    destruct (collect (processNode fileName) children); reflexivity.
Qed.

Lemma bare_declarations_leave_no_logic_witness :
  processFunctionLogicNode "loop.ts" Samples.loopVariables = None.
Proof.
  apply (bare_declarations_leave_no_logic "loop.ts" Samples.loopVariables).
  right. reflexivity.
Defined.

(** X12.  A variable initialised with an arrow function is summarised, among
    the children of its statement, by the summary of the arrow function
    under the name of the variable, with the modifiers of the statement
    before those of the arrow function, and with the logic flow of the
    arrow function; the declared type of the variable is not recorded. *)
Theorem arrow_variable_summary (fileName name : string) (ty : option string)
    (info listInfo declInfo arrowInfo : NodeInfo) (listShape : Shape)
    (before after declChildren children arrowChildren : list Node)
    (parameters : list ParameterDecl) (ret : option string) (body : option Node) :
  let arrow := mkNode arrowInfo (FunctionLike ArrowFunction None parameters ret body)
                 arrowChildren in
  let decl := mkNode declInfo (VariableDeclaration name ty (Some arrow)) declChildren in
  let statement :=
    mkNode info (VariableStatement (mkNode listInfo listShape (before ++ decl :: after)))
      children in
  exists summary kids arrowSummary,
    processNode fileName statement = Some summary
    /\ childrenOf summary = Some kids
    /\ processNode fileName arrow = Some arrowSummary
    /\ In (Llm (mkFields "ArrowFunction" (Some name) (getJSDoc arrowInfo)
                  (Some (getModifiers info ++ getModifiers arrowInfo)%list)
                  (Some (signatureOf parameters (getTypeString ret)))
                  None None None None None None None None)
               (logicFlowOf arrowSummary) None) kids.
Proof.
  intros arrow decl statement. subst statement.
  rewrite processNode_eq. cbn [processNodeWith isToken kindName String.eqb Ascii.eqb
                               Bool.eqb orb].
  eexists. eexists. exists (match processNode fileName arrow with
                            | Some a => a
                            | None => Llm (bare "") None None
                            end).
  split; [reflexivity|]. split; [reflexivity|].
  assert (Harrow : processNode fileName arrow
                   = Some (Llm (mkFields "ArrowFunction" None (getJSDoc arrowInfo)
                                  (Some (getModifiers arrowInfo))
                                  (Some (signatureOf parameters (getTypeString ret)))
                                  None None None None None None None None)
                               (match body with
                                | Some (mkNode _ _ statements) =>
                                    Some (collect (processFunctionLogicNode fileName)
                                            statements)
                                | None => None
                                end) None)).
  { subst arrow. rewrite processNode_eq. reflexivity. }
  rewrite Harrow. split; [reflexivity|].
  apply (collect_In _ _ decl); [apply in_or_app; right; now left|].
  subst decl. cbv beta iota. change (literalValue arrow) with (@None LitValue).
  change (isArrowFunction arrow) with true. cbv iota. rewrite Harrow. reflexivity.
Qed.


Example summary_of_arrow_variable :
  option_map (fun s => List.map (fun n => (Spec.typeOf n, name_ (fieldsOf n),
                                           modifiers (fieldsOf n), dataType (fieldsOf n),
                                           logicFlowOf n))
                         (Spec.childNodes s))
    (processNode "twice.ts" Samples.twiceStatement)
  = Some [("ArrowFunction", Some "twice", Some ["export"; "async"], None,
           Some [Spec.returnOf "n"])].
Proof. vm_compute. reflexivity. Qed.

(** The two fields the heritage clauses write, after any starting point. *)
Lemma heritage_fields (clauses : list HeritageClause) :
  forall f,
    inheritsFrom (heritage clauses f)
    = List.last (List.map Some (Terms.heritageTypes ExtendsKeyword clauses))
        (inheritsFrom f)
    /\ implements (heritage clauses f)
       = match Terms.heritageTypes ImplementsKeyword clauses with
         | [] => implements f
         | l => Some (match implements f with Some l0 => l0 | None => [] end ++ l)%list
         end.
Proof.
  unfold heritage.
  induction clauses as [|[tok tys] clauses IH]; intros f; [split; reflexivity|].
  cbn [fold_left Terms.heritageTypes flat_map token types].
  destruct (IH (fold_left (heritageStep tok) tys f)) as [IH1 IH2].
  fold (Terms.heritageTypes ExtendsKeyword clauses) in *.
  fold (Terms.heritageTypes ImplementsKeyword clauses) in *.
  rewrite IH1, IH2. clear IH IH1 IH2.
  destruct tok; cbn [List.app].
  - assert (H : forall g, inheritsFrom (fold_left (heritageStep ExtendsKeyword) tys g)
                          = List.last (List.map Some tys) (inheritsFrom g)
                          /\ implements (fold_left (heritageStep ExtendsKeyword) tys g)
                             = implements g).
    { induction tys as [|ty tys IHt]; intros g; [split; reflexivity|].
      cbn [fold_left]. destruct (IHt (heritageStep ExtendsKeyword g ty)) as [-> ->].
      split; [|reflexivity]. cbn [heritageStep set_inheritsFrom inheritsFrom List.map].
      destruct tys as [|ty' tys]; [reflexivity|].
      exact (last_nonempty (List.map Some tys) (Some ty') _ _). }
    destruct (H f) as [-> ->]. split; [|reflexivity].
    rewrite List.map_app. generalize (List.map Some (Terms.heritageTypes ExtendsKeyword clauses)).
    intros l. destruct l as [|x l]; [now rewrite List.app_nil_r|].
    symmetry. apply last_app_cons.
  - assert (H : forall g, inheritsFrom (fold_left (heritageStep ImplementsKeyword) tys g)
                          = inheritsFrom g
                          /\ implements (fold_left (heritageStep ImplementsKeyword) tys g)
                             = match tys with
                               | [] => implements g
                               | _ => Some (match implements g with
                                            | Some l0 => l0
                                            | None => []
                                            end ++ tys)%list
                               end).
    { induction tys as [|ty tys IHt]; intros g; [split; reflexivity|].
      cbn [fold_left]. destruct (IHt (heritageStep ImplementsKeyword g ty)) as [-> ->].
      split; [reflexivity|]. cbn [heritageStep set_implements implements].
      destruct tys; destruct (implements g); cbn [List.app];
        rewrite <- ?List.app_assoc; reflexivity. }
    destruct (H f) as [-> ->]. split; [reflexivity|].
    destruct tys as [|ty tys]; [reflexivity|]. cbn [List.app].
    destruct (Terms.heritageTypes ImplementsKeyword clauses) as [|x l].
    + now rewrite List.app_nil_r.
    + now rewrite <- List.app_assoc.
Qed.

(** X13.  The summary of a class records as [inheritsFrom] the last type of
    its [extends] clauses, if any, and as [implements] the types of its
    [implements] clauses in source order, or nothing when there are
    none. *)
Theorem class_heritage (fileName : string) (info : NodeInfo) (name : option string)
    (clauses : list HeritageClause) (members children : list Node) :
  exists f ch,
    processNode fileName (mkNode info (ClassDeclaration name (Some clauses) members) children)
    = Some (Llm f None ch)
    /\ type_ f = "Class"
    /\ inheritsFrom f
       = List.last (List.map Some (Terms.heritageTypes ExtendsKeyword clauses)) None
    /\ implements f
       = match Terms.heritageTypes ImplementsKeyword clauses with
         | [] => None
         | l => Some l
         end.
Proof.
  rewrite processNode_eq. cbn [processNodeWith isToken kindName String.eqb Ascii.eqb
                               Bool.eqb orb].
  eexists. eexists. split; [reflexivity|]. split; [apply heritage_type|].
  match goal with
  | |- context [heritage clauses ?g] => destruct (heritage_fields clauses g) as [-> ->]
  end.
  split; reflexivity.
Qed.

End SummarizerMore.

(** ** The tally of file types and the repository name *)

Module RoutesFacts.
Import Js Routes StringFacts ListFacts.

Lemma countSum_fresh (m : gmap string nat) (i : string) (x : nat) :
  m !! i = None -> Terms.countSum (<[i := x]> m) = x + Terms.countSum m.
Proof.
  intros H. unfold Terms.countSum. rewrite map_fold_insert_L; [reflexivity| |exact H].
  intros j1 j2 z1 z2 y _ _ _. cbv beta. lia.
Qed.

Lemma countSum_insert (m : gmap string nat) (i : string) (x : nat) :
  Terms.countSum (<[i := x]> m) + default 0 (m !! i) = x + Terms.countSum m.
Proof.
  destruct (m !! i) as [y|] eqn:E; cbn [default from_option].
  - assert (Hm : Terms.countSum m = y + Terms.countSum (delete i m)).
    { rewrite <- (insert_delete_id m i y E) at 1.
      apply countSum_fresh, lookup_delete_eq. }
    rewrite <- (insert_delete_eq m i x), Hm, countSum_fresh by apply lookup_delete_eq.
    unfold id. lia.
  - rewrite countSum_fresh by exact E. lia.
Qed.

Lemma analyze_totals (items : list ContentItem) :
  forall t,
    totalFiles (analyzeContents items t)
    = totalFiles t + List.length (Terms.files items)
    /\ Terms.countSum (fileTypes (analyzeContents items t))
       = Terms.countSum (fileTypes t) + List.length (Terms.files items).
Proof.
  unfold analyzeContents, Terms.files.
  induction items as [|item items IH]; intros t; cbn [fold_left List.filter].
  - cbn [List.length]. split; lia.
  - destruct (IH (analyzeItem t item)) as [-> ->]. unfold analyzeItem.
    destruct (String.eqb (itemType item) "file"); cbn [List.length totalFiles fileTypes].
    + pose proof (countSum_insert (fileTypes t) (extensionOf (itemName item))
                    (default 0 (fileTypes t !! extensionOf (itemName item)) + 1)).
      split; lia.
    + split; lia.
Qed.

Lemma analyze_counts (items : list ContentItem) :
  forall (t : Tally) (count : string -> nat),
    (forall ext, fileTypes t !! ext = Terms.entryOf (count ext)) ->
    forall ext,
      fileTypes (analyzeContents items t) !! ext
      = Terms.entryOf (count ext + List.length (Terms.filesOfType ext items)).
Proof.
  unfold analyzeContents, Terms.filesOfType.
  induction items as [|item items IH]; intros t count Hcount ext;
    cbn [fold_left List.filter].
  - now rewrite Nat.add_0_r.
  - unfold analyzeItem at 2.
    destruct (String.eqb (itemType item) "file"); cbn [andb].
    + set (e := extensionOf (itemName item)).
      rewrite (IH _ (fun x => if String.eqb e x then S (count x) else count x)).
      * destruct (String.eqb e ext); cbn [List.length];
          apply (f_equal Terms.entryOf); lia.
      * intros x. cbn [fileTypes]. rewrite Hcount.
        destruct (String.eqb_spec e x) as [<-|ne].
        -- rewrite lookup_insert_eq. cbn [Terms.entryOf].
           destruct (count e); cbn [Terms.entryOf default from_option]; unfold id;
             f_equal; lia.
        -- rewrite lookup_insert_ne by exact ne. apply Hcount.
    + now apply IH.
Qed.


(** X15.  After [analyzeContents] has run over a listing, [totalFiles] is
    the number of its items of type [file], and [fileTypes] holds for every
    extension the number of those files with that extension, and no entry
    for an extension no file has. *)
Theorem tally_counts_files (items : list ContentItem) (ext : string) :
  let t := analyzeContents items (mkTally ∅ 0) in
  totalFiles t = List.length (Terms.files items)
  /\ fileTypes t !! ext = Terms.entryOf (List.length (Terms.filesOfType ext items)).
Proof.
  cbv zeta. split.
  - now rewrite (proj1 (analyze_totals items (mkTally ∅ 0))).
  - rewrite (analyze_counts items (mkTally ∅ 0) (fun _ => 0)); [reflexivity|].
    intros x. apply lookup_empty.
Qed.

(** X16.  The counts in [fileTypes] add up to [totalFiles]: the file count
    the route reports is the total of the per-type counts it reports. *)
Theorem tally_counts_add_up (items : list ContentItem) :
  let t := analyzeContents items (mkTally ∅ 0) in
  Terms.countSum (fileTypes t) = totalFiles t.
Proof.
  cbv zeta. destruct (analyze_totals items (mkTally ∅ 0)) as [-> ->].
  cbn [fileTypes totalFiles]. unfold Terms.countSum. now rewrite map_fold_empty.
Qed.

Example tally_of_listing :
  let t := analyzeContents
             [mkItem "file" "README.md"; mkItem "dir" "src"; mkItem "file" "Makefile";
              mkItem "file" "index.TS"; mkItem "file" "a.ts"; mkItem "file" "notes."]
             (mkTally ∅ 0) in
  (totalFiles t, fileTypes t !! "ts", fileTypes t !! "makefile", fileTypes t !! "no-ext",
   fileTypes t !! "src")
  = (5, Some 2, Some 1, Some 1, None).
Proof. vm_compute. reflexivity. Qed.

(** *** Extensions *)

Lemma split_dotless (b : string) : includes "." b = false -> split "." b = [b].
Proof.
  induction b as [|c b IH]; [reflexivity|]. cbn [includes split].
  intros H. apply orb_false_iff in H as [Hp Hb]. rewrite (IH Hb).
  destruct (Ascii.eqb_spec c ".") as [->|ne]; [|reflexivity].
  now destruct b.
Qed.

Lemma split_app (a b : string) :
  split "." (a ++ "." ++ b) = (split "." a ++ split "." b)%list.
Proof.
  induction a as [|c a IH]; [reflexivity|]. rewrite app_cons. cbn [split].
  rewrite IH. destruct (Ascii.eqb c "."); [reflexivity|].
  destruct (split "." a) as [|x xs] eqn:E; [now destruct (split_nonempty "." a)|].
  reflexivity.
Qed.

Lemma toLowerCase_empty (b : string) : String.eqb (toLowerCase b) "" = String.eqb b "".
Proof. now destruct b. Qed.

(** X17.  The file type of a name is the lower-cased text after its last
    dot, so a name without a dot is filed under its whole lower-cased name,
    together with the files that have that name as their extension; only a
    name that is empty or ends in a dot is filed under [no-ext]. *)
Theorem extension_of_name (a b : string) :
  includes "." b = false ->
  let bucket := if String.eqb b "" then "no-ext" else toLowerCase b in
  extensionOf b = bucket /\ extensionOf (a ++ "." ++ b) = bucket.
Proof.
  intros Hb. cbv zeta. unfold extensionOf. cbv zeta. rewrite split_app, (split_dotless b Hb).
  rewrite (last_app_cons (split "." a) [] b "" ""). cbn [List.last].
  rewrite toLowerCase_empty. split; reflexivity.
Qed.

Lemma extension_of_name_witness :
  extensionOf "Makefile" = "makefile" /\ extensionOf "rules.Makefile" = "makefile".
Proof.
  apply (extension_of_name "rules" "Makefile"). reflexivity.
Defined.

(** *** The first occurrence of a pattern *)

Lemma prefix_within (p x y : string) :
  String.length p <= String.length x -> String.prefix p (x ++ y) = String.prefix p x.
Proof.
  revert x. induction p as [|c p IH]; intros x H.
  - destruct x; [now destruct y | reflexivity].
  - destruct x as [|d x]; [simpl in H; lia|]. rewrite app_cons. cbn [String.prefix].
    destruct (ascii_dec c d); [|reflexivity]. apply IH. simpl in H. lia.
Qed.

Lemma length_app (a b : string) :
  String.length (a ++ b) = String.length a + String.length b.
Proof. induction a as [|c a IH]; [reflexivity|]. rewrite app_cons. simpl. now rewrite IH. Qed.

Lemma substring_skip (p b : string) :
  substring (String.length p) (String.length (p ++ b) - String.length p) (p ++ b) = b.
Proof.
  induction p as [|c p IH].
  - rewrite app_nil_l. cbn [String.length]. rewrite Nat.sub_0_r.
    apply WalkerMore.substring_all.
  - rewrite app_cons. cbn [String.length substring Nat.sub]. exact IH.
Qed.

Lemma includes_app_r (p s x : string) :
  includes p s = true -> includes p (s ++ x) = true.
Proof.
  intros H. destruct (includes_elim _ _ H) as (a & b & ->).
  rewrite !app_assoc. apply includes_intro.
Qed.

(** A pattern [q ++ z] that does not occur in [a ++ q] occurs in
    [a ++ (q ++ z) ++ b] first at the end of [a]. *)
Lemma first_prefix (q : string) (z : ascii) (c : ascii) (a b : string) :
  String.prefix (q ++ String z "") (String c (a ++ q)) = false ->
  String.prefix (q ++ String z "") (String c (a ++ (q ++ String z "") ++ b)) = false.
Proof.
  intros H. rewrite <- H.
  replace (String c (a ++ (q ++ String z "") ++ b))
    with (String c (a ++ q) ++ (String z "" ++ b))
    by (now rewrite app_cons, !app_assoc).
  apply prefix_within. rewrite length_app. cbn [String.length].
  rewrite !length_app. cbn [String.length]. lia.
Qed.

Lemma replace_prefix (p r s : string) :
  String.prefix p s = true ->
  replace p r s = r ++ substring (String.length p) (String.length s - String.length p) s.
Proof. intros H. destruct s; cbn [replace]; now rewrite H. Qed.

Lemma replace_first (q : string) (z : ascii) (r a b : string) :
  includes (q ++ String z "") (a ++ q) = false ->
  replace (q ++ String z "") r (a ++ (q ++ String z "") ++ b) = a ++ r ++ b.
Proof.
  induction a as [|c a IH]; intros H.
  - rewrite !app_nil_l, replace_prefix by apply prefix_app.
    now rewrite substring_skip.
  - rewrite app_cons in H. cbn [includes] in H. apply orb_false_iff in H as [Hp Ha].
    rewrite app_cons. cbn [replace]. rewrite (first_prefix _ _ _ _ _ Hp).
    rewrite (IH Ha). now rewrite app_cons.
Qed.

(** X18.  [cleanRepo] removes the first [.git] of the repository name
    wherever it stands, not only at the end: the name [user.github.io]
    becomes [userhub.io]. *)
Theorem cleanRepo_first_occurrence (a b : string) :
  includes ".git" (a ++ ".gi") = false ->
  cleanRepo (a ++ ".git" ++ b) = a ++ b.
Proof.
  intros H. unfold cleanRepo.
  exact (replace_first ".gi" "t" "" a b H).
Qed.

Lemma cleanRepo_first_occurrence_witness :
  cleanRepo "open-docs.git" = "open-docs" /\ cleanRepo "user.github.io" = "userhub.io".
Proof.
  split.
  - apply (cleanRepo_first_occurrence "open-docs" ""). reflexivity.
  - apply (cleanRepo_first_occurrence "user" "hub.io"). reflexivity.
Defined.

End RoutesFacts.

(** ** Thinking sections and anchors *)

Module FormatterFacts.
Import Js Formatter StringFacts RoutesFacts.

Lemma indexOf_none (p s : string) : includes p s = false -> indexOf p s = (-1)%Z.
Proof.
  induction s as [|c s IH]; cbn [includes indexOf]; intros H;
    apply orb_false_iff in H as [Hp Hs]; rewrite Hp; [reflexivity|].
  now rewrite (IH Hs).
Qed.

Lemma indexOf_prefix (p s : string) : String.prefix p s = true -> indexOf p s = 0%Z.
Proof. intros H. destruct s; cbn [indexOf]; now rewrite H. Qed.

Lemma indexOf_first (q : string) (z : ascii) (a b : string) :
  includes (q ++ String z "") (a ++ q) = false ->
  indexOf (q ++ String z "") (a ++ (q ++ String z "") ++ b) = Z.of_nat (String.length a).
Proof.
  induction a as [|c a IH]; intros H.
  - rewrite app_nil_l. apply indexOf_prefix, prefix_app.
  - rewrite app_cons in H. cbn [includes] in H. apply orb_false_iff in H as [Hp Ha].
    rewrite app_cons. cbn [indexOf]. rewrite (first_prefix _ _ _ _ _ Hp), (IH Ha).
    cbn [String.length]. destruct (Z.ltb_spec (Z.of_nat (String.length a)) 0); lia.
Qed.

(** X19.  [FormatThinkingResponse] returns a response without the separator
    as it is, white space included; of a response with the separator it
    returns what follows the first separator, trimmed, so that a second
    separator stays in the text. *)
Theorem thinking_is_cut_at_first_separator (a b : string) :
  includes thinkingSeparator (a ++ "</think") = false ->
  FormatThinkingResponse a = a
  /\ FormatThinkingResponse (a ++ thinkingSeparator ++ b) = trim b.
Proof.
  intros H. unfold FormatThinkingResponse. cbv zeta. split.
  - rewrite indexOf_none; [reflexivity|].
    destruct (includes thinkingSeparator a) eqn:E; [|reflexivity].
    now rewrite (includes_app_r _ _ "</think" E) in H.
  - pose proof (indexOf_first "</think" ">" a b H) as E.
    change ("</think" ++ String ">" "") with thinkingSeparator in E. rewrite E.
    destruct (Z.ltb_spec (Z.of_nat (String.length a)) 0) as [Hneg|_]; [lia|].
    unfold substringFrom. rewrite <- Nat2Z.inj_add, Nat2Z.id, <- length_app.
    rewrite <- (app_assoc a thinkingSeparator b). now rewrite substring_skip.
Qed.

Lemma thinking_is_cut_at_first_separator_witness :
  FormatThinkingResponse "  plan  " = "  plan  "
  /\ FormatThinkingResponse "  plan  </think>  answer </think> more  "
     = "answer </think> more".
Proof.
  apply (thinking_is_cut_at_first_separator "  plan  " "  answer </think> more  ").
  reflexivity.
Defined.


(** *** Anchors *)

Lemma toLowerCase_cons (c : ascii) (s : string) :
  toLowerCase (String c s)
  = String (if (65 <=? nat_of_ascii c)%nat && (nat_of_ascii c <=? 90)%nat
            then ascii_of_nat (nat_of_ascii c + 32) else c)
           (toLowerCase s).
Proof. reflexivity. Qed.

(** The lower-cased form of a letter or digit is a lower-case letter or a
    digit, and no hyphen. *)
Lemma lower_alphanumeric (c : ascii) :
  isAlphaNumeric c = true ->
  let d := if (65 <=? nat_of_ascii c)%nat && (nat_of_ascii c <=? 90)%nat
           then ascii_of_nat (nat_of_ascii c + 32) else c in
  Terms.isAnchorChar d = true /\ Ascii.eqb d "-" = false.
Proof.
  destruct c as [b0 b1 b2 b3 b4 b5 b6 b7].
  destruct b0, b1, b2, b3, b4, b5, b6, b7; intros H;
    try discriminate H; split; reflexivity.
Qed.

Lemma anchor_shape (s : string) :
  forall inRun,
    Terms.allChars Terms.isAnchorChar (toLowerCase (hyphenate inRun s)) = true
    /\ includes "--" (toLowerCase (hyphenate inRun s)) = false
    /\ (inRun = true -> String.prefix "-" (toLowerCase (hyphenate inRun s)) = false).
Proof.
  induction s as [|c s IH]; intros inRun; [now repeat split|].
  cbn [hyphenate]. destruct (isAlphaNumeric c) eqn:Hc.
  - destruct (IH false) as (H1 & H2 & _).
    destruct (lower_alphanumeric c Hc) as [Hd Hne]. cbv zeta in Hd, Hne.
    rewrite toLowerCase_cons. cbn [Terms.allChars includes String.prefix].
    rewrite Hd, H1, H2.
    destruct (ascii_dec "-" _) as [E|_]; [|now repeat split].
    rewrite <- E in Hne. discriminate.
  - destruct inRun.
    + exact (IH true).
    + destruct (IH true) as (H1 & H2 & H3). specialize (H3 eq_refl).
      rewrite toLowerCase_cons. cbn [Terms.allChars includes String.prefix].
      change (if (65 <=? nat_of_ascii "-")%nat && (nat_of_ascii "-" <=? 90)%nat
              then ascii_of_nat (nat_of_ascii "-" + 32) else "-"%char) with "-"%char.
      cbn [Terms.allChars includes String.prefix]. rewrite H1, H2.
      destruct (ascii_dec "-" "-") as [_|ne]; [|now destruct ne].
      split; [reflexivity|]. split; [|discriminate].
      destruct (toLowerCase (hyphenate true s)) as [|d r]; [reflexivity|].
      cbn [String.prefix] in *. destruct (ascii_dec "-" d); [|reflexivity].
      now destruct r.
Qed.

(** X20.  An anchor holds only digits, the letters a to z and hyphens, and
    never two hyphens in a row. *)
Theorem anchor_is_url_friendly (filePath : string) :
  Terms.allChars Terms.isAnchorChar (generateAnchor filePath) = true
  /\ includes "--" (generateAnchor filePath) = false.
Proof.
  unfold generateAnchor. cbv zeta.
  destruct (anchor_shape filePath false) as (H1 & H2 & _). now split.
Qed.

Lemma hyphenate_separator (a b : string) (c d : ascii) :
  isAlphaNumeric c = false -> isAlphaNumeric d = false ->
  forall inRun, hyphenate inRun (a ++ String c b) = hyphenate inRun (a ++ String d b).
Proof.
  intros Hc Hd. induction a as [|x a IH]; intros inRun.
  - rewrite !app_nil_l. cbn [hyphenate]. now rewrite Hc, Hd.
  - rewrite !app_cons. cbn [hyphenate]. now rewrite !IH.
Qed.

(** X21.  Anchors do not tell separators apart: two paths that differ in
    one character that is neither a letter nor a digit get the same
    anchor, as [docs/api.md] and [docs-api.md] do. *)
Theorem anchors_collide (a b : string) (c d : ascii) :
  isAlphaNumeric c = false -> isAlphaNumeric d = false ->
  generateAnchor (a ++ String c b) = generateAnchor (a ++ String d b).
Proof.
  intros Hc Hd. unfold generateAnchor. cbv zeta.
  now rewrite (hyphenate_separator a b c d Hc Hd).
Qed.

Lemma anchors_collide_witness :
  generateAnchor "docs/api.md" = generateAnchor "docs-api.md".
Proof.
  apply (anchors_collide "docs" "api.md" "/" "-"); reflexivity.
Defined.

Example anchor_of_path : generateAnchor "src/lib/AI/prompt_Template.ts" = "src-lib-ai-prompt-template-ts".
Proof. reflexivity. Qed.

End FormatterFacts.
